(** * benchmark_pg_valkey: queue workers, producer and metrics collector

    A shallow embedding of the Python sources under [src/benchmark]:
    - [worker_pg.py]     : [MetricsCollector], [PostgreSQLWorker]
    - [worker_valkey.py] : [MetricsCollector], [ValkeyWorker]
    - [producer.py]      : [Producer]
    - [config.py]        : the [BENCHMARK], [QUEUE_TYPES] and [VALKEY_CONFIG] tables

    Python integers are unbounded and are modelled by [Z]; Python's [//] and
    [%] are floor division and floor modulo, which is what [Z.div] and
    [Z.modulo] compute.  Python floats (latencies, wall-clock readings) are
    modelled by exact rationals [Q]: rounding of float arithmetic is not
    represented.  Exceptions are values of type [exn] carried by [result]. *)

From Stdlib Require Import ZArith QArith Qround List String Ascii Bool Lia.
From Stdlib Require Import Permutation Sorted DecimalString.
From Stdlib Require Floats.PrimFloat Numbers.Cyclic.Int63.Uint63.
Import ListNotations.

Local Open Scope Z_scope.

(* ================================================================== *)
(** ** Python basics *)

(** [range(n)]: the integers [0, 1, ..., n-1]; empty when [n <= 0]. *)
Definition range (n : Z) : list Z :=
  List.map Z.of_nat (List.seq 0 (Z.to_nat n)).

(** An exception value; [exn_msg] is what [str(e)] returns. *)
Record exn := Exn { exn_msg : string }.

Inductive result (A : Type) : Type :=
| Ok (a : A)
| Raise (e : exn).
Arguments Ok {A} a.
Arguments Raise {A} e.

(* ================================================================== *)
(** ** config.py *)

Module Config.

(** The entries of [BENCHMARK] that the modelled code reads. *)
Record benchmark := {
  num_workers : Z;
  job_processing_time_ms : Z;
  worker_poll_interval_ms : Z;
  valkey_worker_batch_size : Z;
  valkey_worker_poll_interval_ms : Z;
  metrics_interval : Z;
  job_size_bytes : Z
}.

Definition BENCHMARK : benchmark := {|
  num_workers := 10;
  job_processing_time_ms := 5;
  worker_poll_interval_ms := 10;
  valkey_worker_batch_size := 50;
  valkey_worker_poll_interval_ms := 100;
  metrics_interval := 1;
  job_size_bytes := 512
|}.

(** [QUEUE_TYPES['partitioned']['partitions']]. *)
Definition partitioned_partitions : Z := 16.

End Config.

(* ================================================================== *)
(** ** worker_pg.py: partition assignment in [PostgreSQLWorker.__init__] *)

Module PostgreSQLWorker.

(** [partitions_per_worker = max(1, num_partitions // num_workers)] *)
Definition partitions_per_worker (num_workers num_partitions : Z) : Z :=
  Z.max 1 (num_partitions / num_workers).

(** [start_partition = worker_id % num_partitions] *)
Definition start_partition (worker_id num_partitions : Z) : Z :=
  worker_id mod num_partitions.

(** [self.partitions] as computed for [queue_type == 'partitioned'].
    [num_partitions // num_workers] raises [ZeroDivisionError] when
    [num_workers] is 0, and so does [worker_id % num_partitions] when
    [num_partitions] is 0. *)
Definition partitions (worker_id num_workers num_partitions : Z)
  : result (list Z) :=
  if num_workers =? 0 then Raise (Exn "integer division or modulo by zero")
  else
    let ppw := partitions_per_worker num_workers num_partitions in
    if num_partitions =? 0 then Raise (Exn "integer division or modulo by zero")
    else
      let start := start_partition worker_id num_partitions in
      Ok (List.map (fun i => (start + i) mod num_partitions) (range ppw)).

(** The partitions of a worker as a plain list ([[]] when construction
    raises): convenient for statements about ownership. *)
Definition owned (worker_id num_workers num_partitions : Z) : list Z :=
  match partitions worker_id num_workers num_partitions with
  | Ok l => l
  | Raise _ => []
  end.

(** Worker [w] of the pool owns partition [p]. *)
Definition owns (num_workers num_partitions w p : Z) : Prop :=
  In p (owned w num_workers num_partitions).

End PostgreSQLWorker.

(** [ceil(a / b)] for positive [b], as the specification writes it. *)
Definition ceil_div (a b : Z) : Z := (a + b - 1) / b.

(* ================================================================== *)
(** ** Python lists of floats *)

(** [len(l)] *)
Definition len {A : Type} (l : list A) : Z := Z.of_nat (List.length l).

(** [l[i]]: a negative index counts from the end; an index outside the
    list raises [IndexError]. *)
Definition getitem {A : Type} (l : list A) (i : Z) : result A :=
  let j := if i <? 0 then i + len l else i in
  if j <? 0 then Raise (Exn "list index out of range")
  else match nth_error l (Z.to_nat j) with
       | Some x => Ok x
       | None => Raise (Exn "list index out of range")
       end.

(** [int(x)] on a float: truncation towards zero.  The argument is the
    exact product where Python has the rounded one; for the percentiles
    0.50, 0.95 and 0.99 both truncate to the same integer (lemma
    [float_index_agrees] checks it in binary64 for every [n] up to 10000). *)
Definition int (x : Q) : Z :=
  if Qle_bool 0 x then Qfloor x else Qceiling x.

(** The same index computed in binary64, as Python does: [n] converted
    to a double, multiplied by the double nearest to [a / 100], rounding
    to nearest.  [float_index_is n a k] tells that this product lies in
    [[k, k + 1)], which is to say that [int] of it is [k]. *)
Definition float_of_Z (n : Z) : PrimFloat.float :=
  PrimFloat.of_uint63 (Uint63.of_Z n).

Definition float_index_is (n a k : Z) : bool :=
  let pct := PrimFloat.div (float_of_Z a) (float_of_Z 100) in
  let x := PrimFloat.mul (float_of_Z n) pct in
  PrimFloat.leb (float_of_Z k) x && PrimFloat.ltb x (float_of_Z (k + 1)).

(** [sum(l)] *)
Definition sum (l : list Q) : Q := fold_left Qplus l 0%Q.

(** [sorted(l)] returns a new list, in ascending order, and is stable.
    Inserting the elements from the last to the first, each before the
    first element that is not smaller, is an ascending stable sort. *)
Fixpoint insert_sorted (x : Q) (l : list Q) : list Q :=
  match l with
  | [] => [x]
  | y :: l' => if Qle_bool x y then x :: l else y :: insert_sorted x l'
  end.

Definition sorted (l : list Q) : list Q := fold_right insert_sorted [] l.

(** How many elements of [l] satisfy [p]. *)
Definition count (p : Q -> bool) (l : list Q) : nat :=
  List.length (List.filter p l).

(** [x < y] on floats, as a boolean. *)
Definition Qlt_bool (x y : Q) : bool := negb (Qle_bool y x).

(* ================================================================== *)
(** ** worker_pg.py and worker_valkey.py: [MetricsCollector]

    Both files declare the same class; [record_job] is the method of
    [worker_pg.py] and [record_jobs] the one of [worker_valkey.py];
    [__init__], [get_metrics] and [save_metrics] are the same text in both. *)

Module MetricsCollector.

Record t := mk {
  output_file : string;
  jobs_processed : Z;
  latencies : list Q;
  start_time : Q
}.

(** [__init__(output_file)], with [now] the reading of [time.time()]. *)
Definition init (output_file : string) (now : Q) : t :=
  {| output_file := output_file; jobs_processed := 0;
     latencies := []; start_time := now |}.

(** The body of [record_job], executed while [self.lock] is held. *)
Definition record_job (latency_ms : Q) (c : t) : t :=
  {| output_file := output_file c;
     jobs_processed := jobs_processed c + 1;
     latencies := latencies c ++ [latency_ms];
     start_time := start_time c |}.

(** The body of [record_jobs], executed while [self.lock] is held. *)
Definition record_jobs (latencies_list : list Q) (c : t) : t :=
  {| output_file := output_file c;
     jobs_processed := jobs_processed c + len latencies_list;
     latencies := latencies c ++ latencies_list;
     start_time := start_time c |}.

(** One call on a collector. *)
Inductive call :=
| RecordJob (latency_ms : Q)
| RecordJobs (latencies_list : list Q).

Definition do_call (k : call) (c : t) : t :=
  match k with
  | RecordJob x => record_job x c
  | RecordJobs l => record_jobs l c
  end.

(** A sequence of calls, first call first. *)
Definition do_calls (ks : list call) (c : t) : t :=
  fold_left (fun c k => do_call k c) ks c.

(** The dictionary built by [get_metrics]. *)
Record metrics := {
  timestamp : Q;
  elapsed : Q;
  m_jobs_processed : Z;
  throughput : Q;
  latency_p50 : Q;
  latency_p95 : Q;
  latency_p99 : Q;
  latency_min : Q;
  latency_max : Q;
  latency_avg : Q
}.

(** [sorted_latencies[int(n * pct)] if n > 0 else 0] *)
Definition percentile (sorted_latencies : list Q) (n : Z) (pct : Q)
  : result Q :=
  if 0 <? n then getitem sorted_latencies (int (inject_Z n * pct))
  else Ok 0%Q.

(** [get_metrics()], with [now] the wall-clock reading of the call (the
    readings of [datetime.now()] and of the two [time.time()] inside one
    call are taken at the same instant).  [None] is [Ok None]; the float
    division [jobs_processed / (time.time() - start_time)] raises
    [ZeroDivisionError] when no time has elapsed.  Floats are exact
    rationals: the percentiles, the minimum and the maximum are samples
    of the list and carry no rounding, whereas [throughput] and
    [latency_avg] are the exact quotients, where the source rounds the
    sum and the division to binary64. *)
Definition get_metrics(now : Q) (c : t) : result (option metrics) :=
  match latencies c with
  | [] => Ok None
  | _ :: _ =>
    let sorted_latencies := sorted (latencies c) in
    let n := len sorted_latencies in
    let el := (now - start_time c)%Q in
    if Qeq_bool el 0 then Raise (Exn "float division by zero")
    else
      match percentile sorted_latencies n 0.50%Q,
            percentile sorted_latencies n 0.95%Q,
            percentile sorted_latencies n 0.99%Q,
            (if 0 <? n then getitem sorted_latencies 0 else Ok 0%Q),
            (if 0 <? n then getitem sorted_latencies (-1) else Ok 0%Q)
      with
      | Ok p50, Ok p95, Ok p99, Ok lo, Ok hi =>
        Ok (Some {| timestamp := now;
                    elapsed := el;
                    m_jobs_processed := jobs_processed c;
                    throughput := (inject_Z (jobs_processed c) / el)%Q;
                    latency_p50 := p50;
                    latency_p95 := p95;
                    latency_p99 := p99;
                    latency_min := lo;
                    latency_max := hi;
                    latency_avg :=
                      if 0 <? n then (sum sorted_latencies / inject_Z n)%Q
                      else 0%Q |})
      | Raise e, _, _, _, _ => Raise e
      | _, Raise e, _, _, _ => Raise e
      | _, _, Raise e, _, _ => Raise e
      | _, _, _, Raise e, _ => Raise e
      | _, _, _, _, Raise e => Raise e
      end
  end.

(** The output file: one entry per line written; a line is
    [json.dumps(metrics) + '\n'] and is kept here as the dictionary it
    serialises. *)
Definition file := list metrics.

(** [save_metrics()]: appends one line unless [get_metrics] returned
    [None] (a non-empty dictionary is truthy). *)
Definition save_metrics (now : Q) (c : t) (f : file) : result file :=
  match get_metrics now c with
  | Raise e => Raise e
  | Ok None => Ok f
  | Ok (Some m) => Ok (f ++ [m])
  end.

(** *** The lock

    [record_job], [record_jobs] and [get_metrics] run their bodies inside
    [with self.lock:].  The interleaving semantics below makes the lock
    explicit: several threads execute record calls one statement at a
    time, and a thread enters the body only when it acquires the lock. *)

(** Where a thread stands inside a record call with samples [l]
    ([record_job(x)] is the case [l = [x]]). *)
Inductive pc :=
| Outside                  (* not inside a record call *)
| Waiting (l : list Q)     (* at [with self.lock:], lock not yet acquired *)
| Entered (l : list Q)     (* lock held, before [self.jobs_processed += ...] *)
| Counted (l : list Q)     (* counter updated, before the append/extend *)
| Stored.                  (* samples stored, about to release the lock *)

Record sys := {
  coll : t;
  lock : option nat;       (* the thread holding [self.lock] *)
  pcs : nat -> pc
}.

Definition set_pc (th : nat) (p : pc) (f : nat -> pc) : nat -> pc :=
  fun th' => if Nat.eqb th' th then p else f th'.

(** What the scheduler or a caller can make happen. *)
Inductive event :=
| Invoke (th : nat) (k : call)   (* thread [th] calls a record method *)
| Step (th : nat).               (* thread [th] runs its next statement *)

Definition samples_of (k : call) : list Q :=
  match k with RecordJob x => [x] | RecordJobs l => l end.

Definition actor (e : event) : nat :=
  match e with Invoke th _ => th | Step th => th end.

(** One transition; [None] when the event is not enabled (the thread is
    busy, or blocked on the lock). *)
Definition step (e : event) (s : sys) : option sys :=
  match e with
  | Invoke th k =>
    match pcs s th with
    | Outside => Some {| coll := coll s; lock := lock s;
                         pcs := set_pc th (Waiting (samples_of k)) (pcs s) |}
    | _ => None
    end
  | Step th =>
    match pcs s th with
    | Outside => None
    | Waiting l =>
      match lock s with
      | None => Some {| coll := coll s; lock := Some th;
                        pcs := set_pc th (Entered l) (pcs s) |}
      | Some _ => None
      end
    | Entered l =>
      Some {| coll := {| output_file := output_file (coll s);
                         jobs_processed := jobs_processed (coll s) + len l;
                         latencies := latencies (coll s);
                         start_time := start_time (coll s) |};
              lock := lock s;
              pcs := set_pc th (Counted l) (pcs s) |}
    | Counted l =>
      Some {| coll := {| output_file := output_file (coll s);
                         jobs_processed := jobs_processed (coll s);
                         latencies := latencies (coll s) ++ l;
                         start_time := start_time (coll s) |};
              lock := lock s;
              pcs := set_pc th Stored (pcs s) |}
    | Stored =>
      Some {| coll := coll s; lock := None;
              pcs := set_pc th Outside (pcs s) |}
    end
  end.

(** A schedule: events that are not enabled leave the system as it is. *)
Definition exec (es : list event) (s : sys) : sys :=
  fold_left (fun s e => match step e s with Some s' => s' | None => s end)
            es s.

Definition fresh (output_file : string) (now : Q) : sys :=
  {| coll := init output_file now; lock := None; pcs := fun _ => Outside |}.

(** A thread that is not inside the body of a record call. *)
Definition outside_body (p : pc) : Prop :=
  match p with Outside | Waiting _ => True | _ => False end.

(** What holds of the system between any two statements. *)
Definition consistent (s : sys) : Prop :=
  match lock s with
  | None =>
    jobs_processed (coll s) = len (latencies (coll s)) /\
    forall th, outside_body (pcs s th)
  | Some h =>
    (forall th, th <> h -> outside_body (pcs s th)) /\
    match pcs s h with
    | Entered _ | Stored => jobs_processed (coll s) = len (latencies (coll s))
    | Counted l => jobs_processed (coll s) = len (latencies (coll s)) + len l
    | Outside | Waiting _ => False
    end
  end.

End MetricsCollector.

(* ================================================================== *)
(** ** The Valkey server, as the client calls of the sources see it

    One stream ([VALKEY_CONFIG['stream_name']]) and one consumer group
    ([VALKEY_CONFIG['consumer_group']]).  Every client call is appended to
    [trace] when it is issued, then either raises the exception scheduled
    for it in [faults] (connection errors, timeouts) or takes effect. *)

Module Valkey.

(** Entry IDs ([b'<ms>-<seq>']), kept abstract. *)
Definition entry_id := Z.

(** What the worker's evaluation of
    [message_data.get(b'created_at', b'').decode('utf-8')] followed by
    [datetime.fromisoformat] yields on an entry: the field is absent or
    empty, or it decodes and parses to an instant (seconds) without a UTC
    offset, as the producer writes it with [datetime.now().isoformat()],
    or it parses to a datetime that carries a UTC offset, or [decode] or
    [fromisoformat] raises. *)
Inductive created_at_field :=
| NoCreatedAt
| IsoCreatedAt (at_time : Q)
| AwareCreatedAt
| BadCreatedAt (e : exn).

(** A stream entry; the worker reads no other field of its data. *)
Record message := {
  message_id : entry_id;
  created_at : created_at_field
}.

(** An entry of the group's pending entries list. *)
Record pending := {
  p_message : message;
  consumer : string;
  delivered_at : Q;
  times_delivered : Z
}.

Record group_state := {
  delivered : nat;          (* entries of the stream already delivered *)
  pel : list pending
}.

Inductive command :=
| XGroupCreate
| XAdd (n : Z)
| XReadGroup (consumername : string) (count block : Z)
| XAck (ids : list entry_id)
| XPendingRange (count : Z)
| XClaim (consumername : string) (min_idle_time : Z) (ids : list entry_id).

Record server := {
  stream : list message;
  group : option group_state;
  faults : list (option exn);
  trace : list command
}.

(** Milliseconds since the entry was last delivered. *)
Definition idle (now : Q) (p : pending) : Z :=
  Qfloor ((now - delivered_at p) * 1000).

(** The call reaches the client library: it is logged, and the fault
    scheduled for it, if any, is taken. *)
Definition issue (c : command) (s : server) : option exn * server :=
  match faults s with
  | [] => (None, {| stream := stream s; group := group s;
                    faults := []; trace := trace s ++ [c] |})
  | f :: fs => (f, {| stream := stream s; group := group s;
                      faults := fs; trace := trace s ++ [c] |})
  end.

Definition set_group (g : option group_state) (s : server) : server :=
  {| stream := stream s; group := g; faults := faults s; trace := trace s |}.

Definition BUSYGROUP : exn :=
  Exn "BUSYGROUP Consumer Group name already exists".
Definition NOGROUP : exn :=
  Exn "NOGROUP No such key 'bench_queue' or consumer group 'bench_workers'".

(** [xgroup_create(name, groupname, id='0', mkstream=True)] *)
Definition xgroup_create (s : server) : result unit * server :=
  match issue XGroupCreate s with
  | (Some e, s1) => (Raise e, s1)
  | (None, s1) =>
    match group s1 with
    | Some _ => (Raise BUSYGROUP, s1)
    | None => (Ok tt, set_group (Some {| delivered := 0; pel := [] |}) s1)
    end
  end.

Definition deliver (consumername : string) (now : Q) (m : message) : pending :=
  {| p_message := m; consumer := consumername;
     delivered_at := now; times_delivered := 1 |}.

(** [xreadgroup(groupname, consumername, {stream: '>'}, count, block)]:
    up to [count] entries never delivered to the group; the reply lists
    the stream with its entries, or is empty when there is none. *)
Definition xreadgroup (consumername : string) (count block : Z) (now : Q)
                      (s : server)
  : result (list (string * list message)) * server :=
  match issue (XReadGroup consumername count block) s with
  | (Some e, s1) => (Raise e, s1)
  | (None, s1) =>
    match group s1 with
    | None => (Raise NOGROUP, s1)
    | Some g =>
      match firstn (Z.to_nat count) (skipn (delivered g) (stream s1)) with
      | [] => (Ok [], s1)
      | (_ :: _) as msgs =>
        (Ok [("bench_queue"%string, msgs)],
         set_group (Some {| delivered := (delivered g + List.length msgs)%nat;
                            pel := pel g ++ List.map (deliver consumername now) msgs |})
                   s1)
      end
    end
  end.

Definition mem (i : entry_id) (ids : list entry_id) : bool :=
  existsb (Z.eqb i) ids.

(** [xack(name, groupname, *ids)]: the entries leave the pending list;
    the reply is how many did. *)
Definition xack (ids : list entry_id) (s : server) : result Z * server :=
  match issue (XAck ids) s with
  | (Some e, s1) => (Raise e, s1)
  | (None, s1) =>
    match group s1 with
    | None => (Ok 0, s1)
    | Some g =>
      let keep := List.filter (fun p => negb (mem (message_id (p_message p)) ids)) (pel g) in
      (Ok (len (pel g) - len keep),
       set_group (Some {| delivered := delivered g; pel := keep |}) s1)
    end
  end.

(** One element of the reply of [xpending_range]. *)
Record pending_info := {
  pi_message_id : entry_id;
  pi_consumer : string;
  time_since_delivered : Z;
  pi_times_delivered : Z
}.

Definition info (now : Q) (p : pending) : pending_info :=
  {| pi_message_id := message_id (p_message p);
     pi_consumer := consumer p;
     time_since_delivered := idle now p;
     pi_times_delivered := times_delivered p |}.

(** [xpending_range(name, groupname, min='-', max='+', count)] *)
Definition xpending_range (count : Z) (now : Q) (s : server)
  : result (list pending_info) * server :=
  match issue (XPendingRange count) s with
  | (Some e, s1) => (Raise e, s1)
  | (None, s1) =>
    match group s1 with
    | None => (Raise NOGROUP, s1)
    | Some g => (Ok (List.map (info now) (firstn (Z.to_nat count) (pel g))), s1)
    end
  end.

(** Whether [xclaim] transfers the pending entry [p]. *)
Definition claimable (min_idle_time : Z) (ids : list entry_id) (now : Q)
                     (p : pending) : bool :=
  mem (message_id (p_message p)) ids && (min_idle_time <=? idle now p).

Definition claim (consumername : string) (now : Q) (p : pending) : pending :=
  {| p_message := p_message p; consumer := consumername;
     delivered_at := now; times_delivered := times_delivered p + 1 |}.

(** [xclaim(name, groupname, consumername, min_idle_time, message_ids)]:
    the listed pending entries idle for at least [min_idle_time] change
    owner and have their idle time reset; the reply carries their data. *)
Definition xclaim (consumername : string) (min_idle_time : Z)
                  (ids : list entry_id) (now : Q) (s : server)
  : result (list message) * server :=
  match issue (XClaim consumername min_idle_time ids) s with
  | (Some e, s1) => (Raise e, s1)
  | (None, s1) =>
    match group s1 with
    | None => (Raise NOGROUP, s1)
    | Some g =>
      (Ok (List.map p_message
             (List.filter (claimable min_idle_time ids now) (pel g))),
       set_group
         (Some {| delivered := delivered g;
                  pel := List.map (fun p => if claimable min_idle_time ids now p
                                            then claim consumername now p else p)
                                  (pel g) |})
         s1)
    end
  end.

Definition next_id (s : server) : entry_id :=
  1 + fold_right Z.max 0 (List.map message_id (stream s)).

(** A pipeline of [n] [xadd] calls executed as one transaction; every
    entry carries [created_at = datetime.now().isoformat()]. *)
Definition xadd_pipeline (n : Z) (now : Q) (s : server) : result unit * server :=
  match issue (XAdd n) s with
  | (Some e, s1) => (Raise e, s1)
  | (None, s1) =>
    (Ok tt,
     {| stream := stream s1 ++
                  List.map (fun i => {| message_id := next_id s1 + i;
                                        created_at := IsoCreatedAt now |})
                           (range n);
        group := group s1; faults := faults s1; trace := trace s1 |})
  end.

End Valkey.

(* ================================================================== *)
(** ** Strings *)

(** [needle in hay] on Python strings: [needle] occurs as a substring. *)
Fixpoint contains (needle hay : string) : bool :=
  String.prefix needle hay ||
  match hay with
  | EmptyString => false
  | String _ hay' => contains needle hay'
  end.

(** [str(i)] for an integer, as used by f-strings. *)
Definition str_of_int (i : Z) : string :=
  DecimalString.NilZero.string_of_int (Z.to_int i).

(* ================================================================== *)
(** ** worker_valkey.py: [ValkeyWorker] *)

Module ValkeyWorker.

(** The lines the worker prints, by the statement that prints them. *)
Inductive line :=
| Warning (worker : string) (e : exn)
| ErrorProcessingMessage (worker : string) (i : Valkey.entry_id) (e : exn)
| ErrorAcknowledgingBatch (worker : string) (e : exn)
| GroupNotFoundRecreating (worker : string)
| ErrorReadingStream (worker : string) (e : exn)
| ErrorClaimingMessage (worker : string) (i : Valkey.entry_id) (e : exn)
| ErrorAcknowledgingClaimedBatch (worker : string) (e : exn)
| ErrorClaimingPending (worker : string) (e : exn)
| Started (worker : string) (batch_size : Z)
| Stopped (worker : string) (jobs : Z).

(** The worker object together with what it acts on: the collector it
    shares with the other workers, the server, the wall clock (seconds)
    and standard output. *)
Record t := mk {
  worker_id : string;
  jobs_processed : Z;
  batch_size : Z;
  poll_interval : Z;
  metrics : MetricsCollector.t;
  valkey : Valkey.server;
  clock : Q;
  stdout : list line
}.

Definition set_valkey (v : Valkey.server) (s : t) : t :=
  mk (worker_id s) (jobs_processed s) (batch_size s) (poll_interval s)
     (metrics s) v (clock s) (stdout s).
Definition set_clock (c : Q) (s : t) : t :=
  mk (worker_id s) (jobs_processed s) (batch_size s) (poll_interval s)
     (metrics s) (valkey s) c (stdout s).
Definition set_metrics (m : MetricsCollector.t) (s : t) : t :=
  mk (worker_id s) (jobs_processed s) (batch_size s) (poll_interval s)
     m (valkey s) (clock s) (stdout s).
Definition set_jobs_processed (n : Z) (s : t) : t :=
  mk (worker_id s) n (batch_size s) (poll_interval s)
     (metrics s) (valkey s) (clock s) (stdout s).
Definition print (l : line) (s : t) : t :=
  mk (worker_id s) (jobs_processed s) (batch_size s) (poll_interval s)
     (metrics s) (valkey s) (clock s) (stdout s ++ [l]).

(** [time.sleep(seconds)]; instants are kept in lowest terms. *)
Definition sleep (seconds : Q) (s : t) : t :=
  set_clock (Qred (clock s + seconds)) s.

(** The client calls, on the worker's own connection. *)
Definition xgroup_create (s : t) : result unit * t :=
  let (r, v) := Valkey.xgroup_create (valkey s) in (r, set_valkey v s).

(** A reply without entries comes after the call blocked for
    [block] milliseconds. *)
Definition xreadgroup (s : t)
  : result (list (string * list Valkey.message)) * t :=
  let (r, v) := Valkey.xreadgroup (worker_id s) (batch_size s)
                                  (poll_interval s) (clock s) (valkey s) in
  match r with
  | Ok [] => (r, sleep (inject_Z (poll_interval s) / 1000) (set_valkey v s))
  | _ => (r, set_valkey v s)
  end.

Definition xack (ids : list Valkey.entry_id) (s : t) : result Z * t :=
  let (r, v) := Valkey.xack ids (valkey s) in (r, set_valkey v s).

Definition xpending_range (count : Z) (s : t)
  : result (list Valkey.pending_info) * t :=
  let (r, v) := Valkey.xpending_range count (clock s) (valkey s) in
  (r, set_valkey v s).

Definition xclaim (min_idle_time : Z) (ids : list Valkey.entry_id) (s : t)
  : result (list Valkey.message) * t :=
  let (r, v) := Valkey.xclaim (worker_id s) min_idle_time ids (clock s) (valkey s) in
  (r, set_valkey v s).

(** [__init__(worker_id, metrics_collector)] on an existing server. *)
Definition init (worker_id : Z) (metrics_collector : MetricsCollector.t)
                (server : Valkey.server) (now : Q) (out : list line) : t :=
  let s := mk ("worker_" ++ str_of_int worker_id) 0
              (Config.valkey_worker_batch_size Config.BENCHMARK)
              (Config.valkey_worker_poll_interval_ms Config.BENCHMARK)
              metrics_collector server now out in
  match xgroup_create s with
  | (Ok _, s1) => s1
  | (Raise e, s1) =>
    if negb (contains "BUSYGROUP" (exn_msg e))
    then print (Warning (ValkeyWorker.worker_id s1) e) s1
    else s1
  end.

(** [simulate_processing()] *)
Definition simulate_processing (s : t) : t :=
  sleep (inject_Z (Config.job_processing_time_ms Config.BENCHMARK) / 1000) s.

(** What [datetime.now() - created_at] raises ([TypeError]) when
    [created_at] carries a UTC offset. *)
Definition naive_minus_aware : exn :=
  Exn "can't subtract offset-naive and offset-aware datetimes".

(** The statements shared by the two processing loops, from the
    extraction of [created_at] to the computation of [latency_ms]:
    raises what [decode] or [fromisoformat] raises, before anything
    else is done for the message; on a [created_at] with a UTC offset
    the subtraction raises, after the processing time has passed. *)
Definition measure (m : Valkey.message) (s : t) : result Q * t :=
  match Valkey.created_at m with
  | Valkey.BadCreatedAt e => (Raise e, s)
  | Valkey.AwareCreatedAt => (Raise naive_minus_aware, simulate_processing s)
  | Valkey.IsoCreatedAt created =>
    let s1 := simulate_processing s in
    (Ok ((clock s1 - created) * 1000)%Q, s1)
  | Valkey.NoCreatedAt =>
    let created := clock s in
    let s1 := simulate_processing s in
    (Ok ((clock s1 - created) * 1000)%Q, s1)
  end.

(** [message_ids_to_ack] and [batch_latencies] (in
    [claim_pending_messages]: [claimed_ids] and [batch_latencies]). *)
Record batch := {
  ids_to_ack : list Valkey.entry_id;
  batch_latencies : list Q
}.

Definition empty_batch : batch :=
  {| ids_to_ack := []; batch_latencies := [] |}.

(** [batch_latencies.append(latency_ms)], [ids.append(message_id)] and
    [self.jobs_processed += 1]. *)
Definition collect (i : Valkey.entry_id) (latency_ms : Q) (b : batch) (s : t)
  : batch * t :=
  ({| ids_to_ack := ids_to_ack b ++ [i];
      batch_latencies := batch_latencies b ++ [latency_ms] |},
   set_jobs_processed (jobs_processed s + 1) s).

(** The inner loop of [process_messages], with its [try]/[except]
    around each message. *)
Fixpoint process_stream_messages (stream_messages : list Valkey.message)
                                 (b : batch) (s : t) : batch * t :=
  match stream_messages with
  | [] => (b, s)
  | m :: rest =>
    match measure m s with
    | (Ok latency_ms, s1) =>
      let (b1, s2) := collect (Valkey.message_id m) latency_ms b s1 in
      process_stream_messages rest b1 s2
    | (Raise e, s1) =>
      process_stream_messages rest b
        (print (ErrorProcessingMessage (worker_id s1) (Valkey.message_id m) e) s1)
    end
  end.

(** The outer loop, over the streams of the reply. *)
Fixpoint process_reply (messages : list (string * list Valkey.message))
                       (b : batch) (s : t) : batch * t :=
  match messages with
  | [] => (b, s)
  | (_, stream_messages) :: rest =>
    let (b1, s1) := process_stream_messages stream_messages b s in
    process_reply rest b1 s1
  end.

(** The batched acknowledge and the recording of the metrics that end
    both [process_messages] and [claim_pending_messages]; [on_error]
    is the line printed when [xack] raises. *)
Definition ack_and_record (on_error : string -> exn -> line) (b : batch) (s : t)
  : Z * t :=
  let s1 :=
    match ids_to_ack b with
    | [] => s
    | _ :: _ =>
      match xack (ids_to_ack b) s with
      | (Ok _, s') => s'
      | (Raise e, s') => print (on_error (worker_id s') e) s'
      end
    end in
  let s2 :=
    match batch_latencies b with
    | [] => s1
    | _ :: _ =>
      set_metrics (MetricsCollector.record_jobs (batch_latencies b) (metrics s1)) s1
    end in
  (len (ids_to_ack b), s2).

(** [process_messages()] *)
Definition process_messages (s : t) : Z * t :=
  match xreadgroup s with
  | (Ok [], s1) => (0, s1)
  | (Ok ((_ :: _) as messages), s1) =>
    let (b, s2) := process_reply messages empty_batch s1 in
    ack_and_record ErrorAcknowledgingBatch b s2
  | (Raise e, s1) =>
    if contains "NOGROUP" (exn_msg e) then
      let s2 := print (GroupNotFoundRecreating (worker_id s1)) s1 in
      (0, snd (xgroup_create s2))
    else
      (0, print (ErrorReadingStream (worker_id s1) e) s1)
  end.

(** The loop over the reply of [xclaim]: it has no [try] of its own, so
    an exception leaves it at once, keeping what was collected. *)
Fixpoint process_claimed (result_ : list Valkey.message) (b : batch) (s : t)
  : option exn * (batch * t) :=
  match result_ with
  | [] => (None, (b, s))
  | m :: rest =>
    match measure m s with
    | (Ok latency_ms, s1) =>
      let (b1, s2) := collect (Valkey.message_id m) latency_ms b s1 in
      process_claimed rest b1 s2
    | (Raise e, s1) => (Some e, (b, s1))
    end
  end.

(** The loop over the reply of [xpending_range]. *)
Fixpoint claim_each (pending : list Valkey.pending_info) (b : batch) (s : t)
  : batch * t :=
  match pending with
  | [] => (b, s)
  | msg :: rest =>
    let message_id := Valkey.pi_message_id msg in
    let idle_time := Valkey.time_since_delivered msg in
    if 5000 <? idle_time then
      match xclaim 5000 [message_id] s with
      | (Ok result_, s1) =>
        match process_claimed result_ b s1 with
        | (None, (b1, s2)) => claim_each rest b1 s2
        | (Some e, (b1, s2)) =>
          claim_each rest b1
            (print (ErrorClaimingMessage (worker_id s2) message_id e) s2)
        end
      | (Raise e, s1) =>
        claim_each rest b
          (print (ErrorClaimingMessage (worker_id s1) message_id e) s1)
      end
    else claim_each rest b s
  end.

(** [claim_pending_messages()] *)
Definition claim_pending_messages (s : t) : Z * t :=
  match xpending_range 10 s with
  | (Ok [], s1) => (0, s1)
  | (Ok ((_ :: _) as pending), s1) =>
    let (b, s2) := claim_each pending empty_batch s1 in
    ack_and_record ErrorAcknowledgingClaimedBatch b s2
  | (Raise e, s1) =>
    (0, print (ErrorClaimingPending (worker_id s1) e) s1)
  end.

(** The [while self.running.is_set()] loop of [run], for the
    [iterations] times the flag is found set. *)
Fixpoint run_loop (iterations : nat) (claim_counter : Z) (s : t) : t :=
  match iterations with
  | O => s
  | S n =>
    let (processed, s1) := process_messages s in
    let claim_counter := claim_counter + 1 in
    if 10 <=? claim_counter
    then run_loop n 0 (snd (claim_pending_messages s1))
    else run_loop n claim_counter s1
  end.

(** [run()]; [self.valkey.close()] has no effect on the server. *)
Definition run (iterations : nat) (s : t) : t :=
  let s1 := print (Started (worker_id s) (batch_size s)) s in
  let s2 := run_loop iterations 0 s1 in
  print (Stopped (worker_id s2) (jobs_processed s2)) s2.

End ValkeyWorker.

(* ================================================================== *)
(** ** producer.py: [Producer] *)

Module Producer.

Inductive backend_t := Pg | ValkeyStreams.
Inductive queue_type_t := SkipLocked | DeleteReturning | Partitioned.

(** A row of the queue table: [(partition_key, payload, priority)], or
    [(payload, priority)] with no partition key.  Of the payload only the
    ['id'] field is kept: the random filler is not represented. *)
Record job := {
  partition_key : option Z;
  payload_id : Z;
  priority : Z
}.

(** The psycopg2 connection with [autocommit = False]: the rows of the
    table that are committed, and the rows inserted by the transaction
    in progress.  [pg_faults] schedules the exceptions of the calls on
    the connection, one entry per call: [conn.cursor()],
    [execute_values], [conn.commit()] and [conn.rollback()]. *)
Record connection := {
  table : list job;
  in_transaction : list job;
  pg_faults : list (option exn)
}.

Definition pg_issue (c : connection) : option exn * connection :=
  match pg_faults c with
  | [] => (None, c)
  | f :: fs => (f, {| table := table c; in_transaction := in_transaction c;
                      pg_faults := fs |})
  end.

(** [conn.cursor()]: raises on a connection that is closed. *)
Definition cursor (c : connection) : result unit * connection :=
  match pg_issue c with
  | (Some e, c1) => (Raise e, c1)
  | (None, c1) => (Ok tt, c1)
  end.

(** [execute_values(cursor, "INSERT INTO ... VALUES %s", jobs)] *)
Definition execute_values (jobs : list job) (c : connection)
  : result unit * connection :=
  match pg_issue c with
  | (Some e, c1) => (Raise e, c1)
  | (None, c1) =>
    (Ok tt, {| table := table c1;
               in_transaction := in_transaction c1 ++ jobs;
               pg_faults := pg_faults c1 |})
  end.

(** [conn.commit()] *)
Definition commit (c : connection) : result unit * connection :=
  match pg_issue c with
  | (Some e, c1) => (Raise e, c1)
  | (None, c1) =>
    (Ok tt, {| table := table c1 ++ in_transaction c1;
               in_transaction := [];
               pg_faults := pg_faults c1 |})
  end.

(** [conn.rollback()]: the transaction in progress is discarded; the
    call raises on a connection that is lost. *)
Definition rollback (c : connection) : result unit * connection :=
  match pg_issue c with
  | (Some e, c1) => (Raise e, c1)
  | (None, c1) =>
    (Ok tt, {| table := table c1; in_transaction := [];
               pg_faults := pg_faults c1 |})
  end.

Inductive line :=
| CreatedConsumerGroup
| WarningCreatingGroup (e : exn)
| Header (rate duration total_jobs : Z)
| ErrorProducingBatch (e : exn)
| Progress (jobs_produced total_jobs : Z) (actual_rate : Q)
| Summary (jobs_produced : Z) (elapsed actual_rate : Q).

(** The producer object with what it acts on: its connection or the
    Valkey server, the wall clock (seconds), standard output and the
    draws of the [random] module still to come. *)
Record t := mk {
  backend : backend_t;
  queue_type : queue_type_t;
  rate : Z;
  duration : Z;
  total_jobs : Z;
  jobs_produced : Z;
  start_time : option Q;
  conn : connection;
  valkey : Valkey.server;
  clock : Q;
  stdout : list line;
  random : list Z
}.

Definition set_jobs_produced (n : Z) (s : t) : t :=
  mk (backend s) (queue_type s) (rate s) (duration s) (total_jobs s) n
     (start_time s) (conn s) (valkey s) (clock s) (stdout s) (random s).
Definition set_start_time (x : option Q) (s : t) : t :=
  mk (backend s) (queue_type s) (rate s) (duration s) (total_jobs s)
     (jobs_produced s) x (conn s) (valkey s) (clock s) (stdout s) (random s).
Definition set_conn (c : connection) (s : t) : t :=
  mk (backend s) (queue_type s) (rate s) (duration s) (total_jobs s)
     (jobs_produced s) (start_time s) c (valkey s) (clock s) (stdout s) (random s).
Definition set_valkey (v : Valkey.server) (s : t) : t :=
  mk (backend s) (queue_type s) (rate s) (duration s) (total_jobs s)
     (jobs_produced s) (start_time s) (conn s) v (clock s) (stdout s) (random s).
Definition set_clock (c : Q) (s : t) : t :=
  mk (backend s) (queue_type s) (rate s) (duration s) (total_jobs s)
     (jobs_produced s) (start_time s) (conn s) (valkey s) c (stdout s) (random s).
Definition set_random (r : list Z) (s : t) : t :=
  mk (backend s) (queue_type s) (rate s) (duration s) (total_jobs s)
     (jobs_produced s) (start_time s) (conn s) (valkey s) (clock s) (stdout s) r.
Definition print (l : line) (s : t) : t :=
  mk (backend s) (queue_type s) (rate s) (duration s) (total_jobs s)
     (jobs_produced s) (start_time s) (conn s) (valkey s) (clock s)
     (stdout s ++ [l]) (random s).

(** [__init__(backend, queue_type, rate, duration)], given the
    connection that [psycopg2.connect] opens or the server that the
    Valkey client reaches; the Valkey branch creates the consumer group
    and ignores BUSYGROUP. *)
Definition init (backend : backend_t) (queue_type : queue_type_t)
                (rate duration : Z) (c : connection) (v : Valkey.server)
                (now : Q) (draws : list Z) : t :=
  let s := mk backend queue_type rate duration (rate * duration) 0 None
              c v now [] draws in
  match backend with
  | Pg => s
  | ValkeyStreams =>
    match Valkey.xgroup_create v with
    | (Ok _, v1) => print CreatedConsumerGroup (set_valkey v1 s)
    | (Raise e, v1) =>
      if negb (contains "BUSYGROUP" (exn_msg e))
      then print (WarningCreatingGroup e) (set_valkey v1 s)
      else set_valkey v1 s
    end
  end.

(** [time.sleep(seconds)]; instants are kept in lowest terms. *)
Definition sleep (seconds : Q) (s : t) : t :=
  set_clock (Qred (clock s + seconds)) s.

(** [random.randint(a, b)] *)
Definition randint (a b : Z) (s : t) : Z * t :=
  match random s with
  | [] => (a, s)
  | x :: r => (a + x mod (b - a + 1), set_random r s)
  end.

(** The loop of [produce_pg_batch] that builds [jobs]. *)
Fixpoint make_jobs (n : nat) (jobs : list job) (s : t) : list job * t :=
  match n with
  | O => (jobs, s)
  | S n' =>
    let payload := jobs_produced s in
    let (priority, s1) := randint 0 10 s in
    match queue_type s1 with
    | Partitioned =>
      let (partition_key, s2) := randint 0 15 s1 in
      make_jobs n' (jobs ++ [{| partition_key := Some partition_key;
                                payload_id := payload;
                                priority := priority |}]) s2
    | _ =>
      make_jobs n' (jobs ++ [{| partition_key := None;
                                payload_id := payload;
                                priority := priority |}]) s1
    end
  end.

(** The [except Exception as e] clause of [produce_pg_batch], entered
    with the connection as the failed call left it: an exception of
    [rollback] leaves the clause, and with it the method. *)
Definition on_exception (e : exn) (c : connection) (s : t) : result Z * t :=
  match rollback c with
  | (Raise e', c') => (Raise e', set_conn c' s)
  | (Ok _, c') => (Ok 0, print (ErrorProducingBatch e) (set_conn c' s))
  end.

(** [produce_pg_batch(batch_size)]: the cursor is taken before the
    [try], whose body is the insert and the commit. *)
Definition produce_pg_batch (batch_size : Z) (s : t) : result Z * t :=
  match cursor (conn s) with
  | (Raise e, c0) => (Raise e, set_conn c0 s)
  | (Ok _, c0) =>
    let (jobs, s1) := make_jobs (Z.to_nat batch_size) [] (set_conn c0 s) in
    match execute_values jobs (conn s1) with
    | (Raise e, c1) => on_exception e c1 s1
    | (Ok _, c1) =>
      match commit c1 with
      | (Raise e, c2) => on_exception e c2 s1
      | (Ok _, c2) =>
        let s2 := set_conn c2 s1 in
        (Ok batch_size, set_jobs_produced (jobs_produced s2 + batch_size) s2)
      end
    end
  end.

(** The draws of [random.randint(0, 10)] made while the pipeline of
    [produce_valkey_batch] is filled. *)
Fixpoint draw_priorities (n : nat) (s : t) : t :=
  match n with
  | O => s
  | S n' => draw_priorities n' (snd (randint 0 10 s))
  end.

(** [produce_valkey_batch(batch_size)]: every call is inside the
    [try]. *)
Definition produce_valkey_batch (batch_size : Z) (s : t) : Z * t :=
  let s1 := draw_priorities (Z.to_nat batch_size) s in
  match Valkey.xadd_pipeline batch_size (clock s1) (valkey s1) with
  | (Raise e, v) => (0, print (ErrorProducingBatch e) (set_valkey v s1))
  | (Ok _, v) =>
    let s2 := set_valkey v s1 in
    (batch_size, set_jobs_produced (jobs_produced s2 + batch_size) s2)
  end.

(** [batch_size = max(1, self.rate // 100)] *)
Definition batch_size_of (rate : Z) : Z := Z.max 1 (rate / 100).

(** One turn of the [while] loop of [run]: the batch, the rate
    limiting and the progress line; an exception that leaves
    [produce_pg_batch] leaves the turn.  Instants are exact rationals
    where the source computes in binary64: the rounding of the schedule
    pointer is not represented. *)
Definition iteration (batch_size : Z) (interval : Q) (start : Q)
                     (next_batch_time : Q) (s : t) : result Q * t :=
  let (produced, s1) :=
    match backend s with
    | Pg => produce_pg_batch batch_size s
    | ValkeyStreams =>
      let (n, s') := produce_valkey_batch batch_size s in (Ok n, s')
    end in
  match produced with
  | Raise e => (Raise e, s1)
  | Ok _ =>
    let next_batch_time := Qred (next_batch_time + interval) in
    let sleep_time := Qred (next_batch_time - clock s1) in
    let s2 := if Qlt_bool 0 sleep_time then sleep sleep_time s1 else s1 in
    let elapsed := (clock s2 - start)%Q in
    let s3 :=
      if jobs_produced s2 mod (rate s2 * 10) =? 0
      then print (Progress (jobs_produced s2) (total_jobs s2)
                           (if Qlt_bool 0 elapsed
                            then inject_Z (jobs_produced s2) / elapsed else 0)%Q) s2
      else s2 in
    (Ok next_batch_time, s3)
  end.

(** [while self.jobs_produced < self.total_jobs]: the exception that
    left the loop, if any, with the state it was left in; [None] when
    [fuel] turns were not enough for the loop to end. *)
Fixpoint run_loop (fuel : nat) (batch_size : Z) (interval : Q) (start : Q)
                  (next_batch_time : Q) (s : t) : option (option exn * t) :=
  if jobs_produced s <? total_jobs s then
    match fuel with
    | O => None
    | S fuel' =>
      match iteration batch_size interval start next_batch_time s with
      | (Raise e, s1) => Some (Some e, s1)
      | (Ok next_batch_time, s1) =>
        run_loop fuel' batch_size interval start next_batch_time s1
      end
    end
  else Some (None, s).

Inductive outcome :=
| Finished (s : t)            (* [run] returned *)
| Crashed (e : exn) (s : t)   (* [run] raised *)
| Running.                    (* the loop has not ended within [fuel] turns *)

(** [run()], uninterrupted.  [batch_size / self.rate] is evaluated
    before the [try] and raises [ZeroDivisionError] for a rate of 0.
    The [try] has no handler for an exception of the loop: the [finally]
    clause prints the summary and the exception is raised again. *)
Definition run (fuel : nat) (s : t) : outcome :=
  let s0 := print (Header (rate s) (duration s) (total_jobs s)) s in
  let start := clock s0 in
  let s1 := set_start_time (Some start) s0 in
  let batch_size := batch_size_of (rate s1) in
  if rate s1 =? 0 then Crashed (Exn "division by zero") s1
  else
    let interval := (inject_Z batch_size / inject_Z (rate s1))%Q in
    match run_loop fuel batch_size interval start start s1 with
    | None => Running
    | Some (raised, s2) =>
      let elapsed := (clock s2 - start)%Q in
      let s3 := print (Summary (jobs_produced s2) elapsed
                               (if Qlt_bool 0 elapsed
                                then inject_Z (jobs_produced s2) / elapsed else 0)%Q)
                      s2 in
      match raised with
      | None => Finished s3
      | Some e => Crashed e s3
      end
    end.

End Producer.

(* ================================================================== *)
(** ** worker_pg.py: the processing methods of [PostgreSQLWorker]

    The database is the worker's environment: the functions named in
    [QUEUE_TYPES] are written in SQL, outside the Python sources.  Every
    [cursor.execute] is logged with the function it calls and its
    parameters and is answered by the next entry of [script]: the row
    that [fetchone] then returns, no row, or the exception that
    [execute] raises.  Once the script is exhausted the queue is empty
    and nothing raises.  Rows carry the columns that the methods read,
    [conn.cursor] does not raise, and statements take no time: the clock
    moves only when the worker sleeps. *)

Module PgWorker.

Inductive queue_type_t := skip_locked | delete_returning | partitioned.

(** An entry of [QUEUE_TYPES] (config.py). *)
Record queue_config := {
  table : string;
  get_function : string;
  complete_function : string;
  fail_function : string
}.

Definition QUEUE_TYPES (queue_type : queue_type_t) : queue_config :=
  match queue_type with
  | skip_locked =>
    {| table := "queue_jobs"; get_function := "get_next_job";
       complete_function := "complete_job"; fail_function := "fail_job" |}
  | delete_returning =>
    {| table := "queue_jobs_dr"; get_function := "get_next_job_dr";
       complete_function := "complete_job_dr";
       fail_function := "requeue_job_dr" |}
  | partitioned =>
    {| table := "queue_jobs_part"; get_function := "get_next_job_part";
       complete_function := "complete_job_part";
       fail_function := "fail_job_part" |}
  end.

(** The parameters of a statement. *)
Inductive value :=
| VInt (i : Z)
| VStr (s : string)
| VJson (payload : Z)      (* [json.dumps(payload)] *)
| VTime (instant : Q).

(** [SELECT * FROM f(%s, ...)] or [SELECT f(%s, ...)] with its
    parameters. *)
Record statement := {
  function : string;
  parameters : list value
}.

(** The row of a job as [RealDictCursor] returns it. *)
Record job_row := {
  job_id : Z;
  job_created_at : Q;
  job_payload : Z;
  job_priority : Z
}.

Inductive reply :=
| Row (job : job_row)
| NoRow
| Fails (e : exn).

Record database := {
  script : list reply;
  log : list statement
}.

(** [cursor.execute(...)], followed by [cursor.fetchone()] where the
    method fetches. *)
Definition execute (st : statement) (d : database) : reply * database :=
  match script d with
  | [] => (NoRow, {| script := []; log := log d ++ [st] |})
  | r :: rs => (r, {| script := rs; log := log d ++ [st] |})
  end.

Inductive line :=
| ErrorProcessingJob (worker : string) (e : exn)
| ErrorProcessingJobFromPartition (worker : string) (partition_key : Z) (e : exn)
| Started (worker : string)
| Stopped (worker : string) (jobs : Z).

(** The worker object with what it acts on: the collector it shares
    with the other workers, its connection, the wall clock (seconds)
    and standard output. *)
Record t := mk {
  worker_id : string;
  queue_type : queue_type_t;
  partitions : option (list Z);
  jobs_processed : Z;
  metrics : MetricsCollector.t;
  conn : database;
  clock : Q;
  stdout : list line
}.

Definition set_conn (d : database) (s : t) : t :=
  mk (worker_id s) (queue_type s) (partitions s) (jobs_processed s)
     (metrics s) d (clock s) (stdout s).
Definition set_clock (c : Q) (s : t) : t :=
  mk (worker_id s) (queue_type s) (partitions s) (jobs_processed s)
     (metrics s) (conn s) c (stdout s).
Definition set_metrics (m : MetricsCollector.t) (s : t) : t :=
  mk (worker_id s) (queue_type s) (partitions s) (jobs_processed s)
     m (conn s) (clock s) (stdout s).
Definition set_jobs_processed (n : Z) (s : t) : t :=
  mk (worker_id s) (queue_type s) (partitions s) n
     (metrics s) (conn s) (clock s) (stdout s).
Definition print (l : line) (s : t) : t :=
  mk (worker_id s) (queue_type s) (partitions s) (jobs_processed s)
     (metrics s) (conn s) (clock s) (stdout s ++ [l]).

(** [time.sleep(seconds)]; instants are kept in lowest terms. *)
Definition sleep (seconds : Q) (s : t) : t :=
  set_clock (Qred (clock s + seconds)) s.

Definition cursor_execute (st : statement) (s : t) : reply * t :=
  let (r, d) := execute st (conn s) in (r, set_conn d s).

(** [__init__(worker_id, queue_type, metrics_collector)], given the
    connection that [psycopg2.connect] opens. *)
Definition init (worker_id : Z) (queue_type : queue_type_t)
                (metrics_collector : MetricsCollector.t) (db : database)
                (now : Q) (out : list line) : result t :=
  let name := ("worker_" ++ str_of_int worker_id)%string in
  match queue_type with
  | partitioned =>
    match PostgreSQLWorker.partitions worker_id
            (Config.num_workers Config.BENCHMARK)
            Config.partitioned_partitions with
    | Ok l => Ok (mk name queue_type (Some l) 0 metrics_collector db now out)
    | Raise e => Raise e
    end
  | _ => Ok (mk name queue_type None 0 metrics_collector db now out)
  end.

(** [simulate_processing()] *)
Definition simulate_processing (s : t) : t :=
  sleep (inject_Z (Config.job_processing_time_ms Config.BENCHMARK) / 1000) s.

(** [time.sleep(BENCHMARK['worker_poll_interval_ms'] / 1000.0)] *)
Definition poll_sleep (s : t) : t :=
  sleep (inject_Z (Config.worker_poll_interval_ms Config.BENCHMARK) / 1000) s.

(** The statements that end the three methods once the job is marked
    as completed: the latency is taken, recorded and counted. *)
Definition record_metrics (job : job_row) (s : t) : t :=
  let latency_ms := ((clock s - job_created_at job) * 1000)%Q in
  let s1 := set_metrics (MetricsCollector.record_job latency_ms (metrics s)) s in
  set_jobs_processed (jobs_processed s1 + 1) s1.

(** [process_job_basic()] *)
Definition process_job_basic (s : t) : bool * t :=
  let config := QUEUE_TYPES (queue_type s) in
  match cursor_execute {| function := get_function config;
                          parameters := [VStr (worker_id s)] |} s with
  | (Fails e, s1) => (false, print (ErrorProcessingJob (worker_id s1) e) s1)
  | (NoRow, s1) => (false, poll_sleep s1)
  | (Row job, s1) =>
    let s2 := simulate_processing s1 in
    match cursor_execute {| function := complete_function config;
                            parameters := [VInt (job_id job)] |} s2 with
    | (Fails e, s3) => (false, print (ErrorProcessingJob (worker_id s3) e) s3)
    | (_, s3) => (true, record_metrics job s3)
    end
  end.

(** [process_job_delete_returning()] *)
Definition process_job_delete_returning (s : t) : bool * t :=
  let config := QUEUE_TYPES (queue_type s) in
  match cursor_execute {| function := get_function config;
                          parameters := [VStr (worker_id s)] |} s with
  | (Fails e, s1) => (false, print (ErrorProcessingJob (worker_id s1) e) s1)
  | (NoRow, s1) => (false, poll_sleep s1)
  | (Row job, s1) =>
    let s2 := simulate_processing s1 in
    match cursor_execute
            {| function := complete_function config;
               parameters := [VInt (job_id job); VJson (job_payload job);
                              VInt (job_priority job);
                              VTime (job_created_at job);
                              VStr (worker_id s2)] |} s2 with
    | (Fails e, s3) => (false, print (ErrorProcessingJob (worker_id s3) e) s3)
    | (_, s3) => (true, record_metrics job s3)
    end
  end.

(** The [for partition_key in self.partitions] loop of
    [process_job_partitioned], with the statements that follow it. *)
Fixpoint try_partitions (keys : list Z) (s : t) : bool * t :=
  match keys with
  | [] => (false, poll_sleep s)
  | partition_key :: rest =>
    let config := QUEUE_TYPES (queue_type s) in
    match cursor_execute {| function := get_function config;
                            parameters := [VInt partition_key;
                                           VStr (worker_id s)] |} s with
    | (Fails e, s1) =>
      try_partitions rest
        (print (ErrorProcessingJobFromPartition (worker_id s1) partition_key e) s1)
    | (NoRow, s1) => try_partitions rest s1
    | (Row job, s1) =>
      let s2 := simulate_processing s1 in
      match cursor_execute {| function := complete_function config;
                              parameters := [VInt partition_key;
                                             VInt (job_id job)] |} s2 with
      | (Fails e, s3) =>
        try_partitions rest
          (print (ErrorProcessingJobFromPartition (worker_id s3) partition_key e) s3)
      | (_, s3) => (true, record_metrics job s3)
      end
    end
  end.

(** [process_job_partitioned()]; iterating over [self.partitions]
    raises [TypeError] when it is [None]. *)
Definition process_job_partitioned (s : t) : result bool * t :=
  match partitions s with
  | None => (Raise (Exn "'NoneType' object is not iterable"), s)
  | Some keys => let (found, s1) := try_partitions keys s in (Ok found, s1)
  end.

(** The body of the [while] loop of [run]. *)
Definition turn (s : t) : result bool * t :=
  match queue_type s with
  | delete_returning =>
    let (found, s1) := process_job_delete_returning s in (Ok found, s1)
  | partitioned => process_job_partitioned s
  | skip_locked =>
    let (found, s1) := process_job_basic s in (Ok found, s1)
  end.

(** The [while self.running.is_set()] loop of [run], for the
    [iterations] times the flag is found set; an exception leaves it. *)
Fixpoint run_loop (iterations : nat) (s : t) : option exn * t :=
  match iterations with
  | O => (None, s)
  | S n =>
    match turn s with
    | (Ok _, s1) => run_loop n s1
    | (Raise e, s1) => (Some e, s1)
    end
  end.

(** [run()]: the [finally] clause prints the last line whether the loop
    was left by the flag or by an exception, which is then raised
    again; [self.conn.close()] has no effect on the database. *)
Definition run (iterations : nat) (s : t) : option exn * t :=
  let s1 := print (Started (worker_id s)) s in
  let (raised, s2) := run_loop iterations s1 in
  (raised, print (Stopped (worker_id s2) (jobs_processed s2)) s2).

End PgWorker.

(* ================================================================== *)
(** ** Vocabulary of the properties *)

(** Every worker of a pool of [W] owns [ceil(P / W)] partitions. *)
Definition owns_ceil_share (W P : Z) : Prop :=
  forall w, 0 <= w < W ->
    len (PostgreSQLWorker.owned w W P) = ceil_div P W.

(** Every partition index [0 .. P-1] is owned by some worker [0 .. W-1]. *)
Definition covers_all (W P : Z) : Prop :=
  forall p, 0 <= p < P ->
    exists w, 0 <= w < W /\ PostgreSQLWorker.owns W P w p.

(** [index = floor(percentile * n)] *)
Definition nearest_rank_index (percentile : Q) (n : Z) : Z :=
  Qfloor (percentile * inject_Z n).

(** [v] stands at position [k] (from 0) of the multiset [l] put in
    ascending order: it is a sample, at most [k] samples are strictly
    below it and more than [k] samples are below or equal to it. *)
Definition has_rank (l : list Q) (k : Z) (v : Q) : Prop :=
  In v l /\
  Z.of_nat (count (fun x => Qlt_bool x v) l) <= k
    < Z.of_nat (count (fun x => Qle_bool x v) l).

(** The arithmetic mean of the samples. *)
Definition mean (l : list Q) : Q :=
  (fold_right Qplus 0 l / inject_Z (len l))%Q.

(** The samples [1, 2, ..., 100] (milliseconds). *)
Definition samples_1_100 : list Q :=
  List.map (fun i => inject_Z (i + 1)) (range 100).

(** Equality of two floats as values (same numerator and denominator). *)
Definition Qsame (x y : Q) : bool :=
  (Qnum x =? Qnum y) && Pos.eqb (Qden x) (Qden y).

(** Boolean reading of [has_rank] for a sample already known to be in [l]. *)
Definition rankb (l : list Q) (k : Z) (v : Q) : bool :=
  (Z.of_nat (count (fun x => Qlt_bool x v) l) <=? k) &&
  (k <? Z.of_nat (count (fun x => Qle_bool x v) l)).

(** Every batch write of the run succeeds: no call to the backend is
    scheduled to raise. *)
Definition writes_succeed (s : Producer.t) : Prop :=
  Forall (fun f => f = None) (Producer.pg_faults (Producer.conn s)) /\
  Forall (fun f => f = None) (Valkey.faults (Producer.valkey s)).

(** The outcome scheduled for the next call of a fault schedule. *)
Definition next_fault (fs : list (option exn)) : option exn :=
  match fs with
  | [] => None
  | f :: _ => f
  end.

(** The next PostgreSQL batch insert raises [e], the cursor having been
    taken: either [execute_values] does, or it succeeds and [commit]
    raises; [rest] schedules the calls that follow, the first of which
    is the [rollback] of the handler. *)
Definition insert_raises (e : exn) (rest : list (option exn))
                         (s : Producer.t) : Prop :=
  Producer.pg_faults (Producer.conn s) = None :: Some e :: rest \/
  Producer.pg_faults (Producer.conn s) = None :: None :: Some e :: rest.

(** What one batch leaves in place when it is written. *)
Definition batch_written (batch_size : Z) (s s' : Producer.t) : Prop :=
  Producer.jobs_produced s' = Producer.jobs_produced s + batch_size /\
  writes_succeed s' /\
  Producer.backend s' = Producer.backend s /\
  Producer.rate s' = Producer.rate s /\
  Producer.total_jobs s' = Producer.total_jobs s.

(** Two producer states that differ at most in the pending draws of
    [random]. *)
Definition same_but_random (s s' : Producer.t) : Prop :=
  Producer.backend s' = Producer.backend s /\
  Producer.queue_type s' = Producer.queue_type s /\
  Producer.rate s' = Producer.rate s /\
  Producer.duration s' = Producer.duration s /\
  Producer.total_jobs s' = Producer.total_jobs s /\
  Producer.jobs_produced s' = Producer.jobs_produced s /\
  Producer.start_time s' = Producer.start_time s /\
  Producer.conn s' = Producer.conn s /\
  Producer.valkey s' = Producer.valkey s /\
  Producer.clock s' = Producer.clock s /\
  Producer.stdout s' = Producer.stdout s.

(** A connection with an empty table and a server with an empty stream
    and no consumer group, on which no call is scheduled to raise. *)
Definition empty_connection : Producer.connection :=
  {| Producer.table := []; Producer.in_transaction := [];
     Producer.pg_faults := [] |}.

Definition empty_server : Valkey.server :=
  {| Valkey.stream := []; Valkey.group := None;
     Valkey.faults := []; Valkey.trace := [] |}.

(** The ID of a pending entry. *)
Definition pid (p : Valkey.pending) : Valkey.entry_id :=
  Valkey.message_id (Valkey.p_message p).

(** The entry with ID [i] is in the pending entries list of the group:
    delivered to some consumer and not acknowledged. *)
Definition is_pending (i : Valkey.entry_id) (v : Valkey.server) : Prop :=
  exists g p, Valkey.group v = Some g /\ In p (Valkey.pel g) /\ pid p = i.

(** The pending entry [p] is in the group's list, as it stands. *)
Definition pending_as (p : Valkey.pending) (v : Valkey.server) : Prop :=
  exists g, Valkey.group v = Some g /\ In p (Valkey.pel g).

(** What processing the message throws, if anything: its [created_at]
    does not decode or does not parse, or cannot be subtracted from the
    current time. *)
Definition thrown (m : Valkey.message) : option exn :=
  match Valkey.created_at m with
  | Valkey.BadCreatedAt e => Some e
  | Valkey.AwareCreatedAt => Some ValkeyWorker.naive_minus_aware
  | _ => None
  end.

Definition throws (m : Valkey.message) : bool :=
  match thrown m with
  | Some _ => true
  | None => false
  end.

(** The messages of a batch that are processed without an exception. *)
Definition processed (msgs : list Valkey.message) : list Valkey.message :=
  List.filter (fun m => negb (throws m)) msgs.

(** The lines printed for the messages of a batch that throw. *)
Definition error_lines (worker : string) (msgs : list Valkey.message)
  : list ValkeyWorker.line :=
  flat_map (fun m => match thrown m with
                     | Some e =>
                       [ValkeyWorker.ErrorProcessingMessage worker (Valkey.message_id m) e]
                     | None => []
                     end) msgs.

(** All the entries of a reply of [xreadgroup], stream after stream. *)
Definition reply_messages (messages : list (string * list Valkey.message))
  : list Valkey.message :=
  flat_map snd messages.

(** No call to the server is scheduled to raise. *)
Definition no_faults (v : Valkey.server) : Prop :=
  Forall (fun f => f = None) (Valkey.faults v).

(** The fields of the worker object that no method assigns. *)
Definition same_worker (s s' : ValkeyWorker.t) : Prop :=
  ValkeyWorker.worker_id s' = ValkeyWorker.worker_id s /\
  ValkeyWorker.batch_size s' = ValkeyWorker.batch_size s /\
  ValkeyWorker.poll_interval s' = ValkeyWorker.poll_interval s.

(** The scanned pending entry has been idle for more than the threshold
    of [claim_pending_messages]. *)
Definition stale (now : Q) (p : Valkey.pending) : bool :=
  5000 <? Valkey.idle now p.

(** What the loop over the entries of one stream has done when it ends. *)
Definition loop_effect (msgs : list Valkey.message)
                       (b b' : ValkeyWorker.batch) (s s' : ValkeyWorker.t)
  : Prop :=
  ValkeyWorker.ids_to_ack b' =
    ValkeyWorker.ids_to_ack b ++ List.map Valkey.message_id (processed msgs) /\
  (exists new,
     ValkeyWorker.batch_latencies b' = ValkeyWorker.batch_latencies b ++ new /\
     List.length new = List.length (processed msgs)) /\
  ValkeyWorker.jobs_processed s' =
    ValkeyWorker.jobs_processed s + len (processed msgs) /\
  ValkeyWorker.valkey s' = ValkeyWorker.valkey s /\
  ValkeyWorker.metrics s' = ValkeyWorker.metrics s /\
  ValkeyWorker.stdout s' =
    ValkeyWorker.stdout s ++ error_lines (ValkeyWorker.worker_id s) msgs /\
  same_worker s s' /\
  (ValkeyWorker.clock s <= ValkeyWorker.clock s')%Q.

(** A worker in front of a stream of three entries not yet delivered, the
    second of which has a [created_at] that does not parse; [fs] schedules
    the outcomes of the server calls. *)
Definition three_entries (fs : list (option exn)) : ValkeyWorker.t :=
  ValkeyWorker.mk "worker_0" 0 50 100
    (MetricsCollector.init "metrics_valkey.jsonl" 0)
    {| Valkey.stream :=
         [ {| Valkey.message_id := 1; Valkey.created_at := Valkey.IsoCreatedAt 0 |};
           {| Valkey.message_id := 2;
              Valkey.created_at := Valkey.BadCreatedAt (Exn "Invalid isoformat string") |};
           {| Valkey.message_id := 3; Valkey.created_at := Valkey.NoCreatedAt |} ];
       Valkey.group := Some {| Valkey.delivered := 0; Valkey.pel := [] |};
       Valkey.faults := fs;
       Valkey.trace := [] |}
    1 [].

(** After a sweep that acknowledged [acked], the pending entry [q] is
    still in the list as it was, and was not acknowledged. *)
Definition untouched (q : Valkey.pending) (g' : Valkey.group_state)
                     (acked : list Valkey.entry_id) : Prop :=
  In q (Valkey.pel g') /\ ~ In (pid q) acked.

(** After a sweep by worker [w] that acknowledged [acked], the pending
    entry [q] has been claimed by [w], and its ID was put in [acked]
    exactly when its reprocessing did not throw. *)
Definition reclaimed (w : string) (q : Valkey.pending)
                     (g' : Valkey.group_state)
                     (acked : list Valkey.entry_id) : Prop :=
  (exists q', In q' (Valkey.pel g') /\
              Valkey.p_message q' = Valkey.p_message q /\
              Valkey.consumer q' = w) /\
  (throws (Valkey.p_message q) = false -> In (pid q) acked) /\
  (throws (Valkey.p_message q) = true -> ~ In (pid q) acked).

(** A worker in front of one entry, pending with another consumer since
    instant 0, seen at instant 6: idle for 6000 ms. *)
Definition stalled_entry (c : Valkey.created_at_field) : ValkeyWorker.t :=
  ValkeyWorker.mk "worker_0" 0 50 100
    (MetricsCollector.init "metrics_valkey.jsonl" 0)
    {| Valkey.stream := [ {| Valkey.message_id := 7; Valkey.created_at := c |} ];
       Valkey.group :=
         Some {| Valkey.delivered := 1;
                 Valkey.pel :=
                   [ {| Valkey.p_message :=
                          {| Valkey.message_id := 7; Valkey.created_at := c |};
                        Valkey.consumer := "worker_9";
                        Valkey.delivered_at := 0;
                        Valkey.times_delivered := 1 |} ] |};
       Valkey.faults := [];
       Valkey.trace := [] |}
    6 [].

(** The pending list after [xclaim] of the one ID [i]. *)
Definition claim_in (w : string) (i : Valkey.entry_id) (now : Q)
                    (l : list Valkey.pending) : list Valkey.pending :=
  List.map (fun q => if Valkey.claimable 5000 [i] now q
                     then Valkey.claim w now q else q) l.

(** What the loop of [claim_pending_messages] over the scanned entries
    [ps] has done when it ends in state [s'] with batch [b'], having
    started in state [s] with batch [b] on the pending list of [g]. *)
Definition sweep_effect (now0 : Q) (ps : list Valkey.pending)
                        (g : Valkey.group_state)
                        (b : ValkeyWorker.batch) (s : ValkeyWorker.t)
                        (b' : ValkeyWorker.batch) (s' : ValkeyWorker.t)
  : Prop :=
  exists g' extra new,
    Valkey.group (ValkeyWorker.valkey s') = Some g' /\
    List.map pid (Valkey.pel g') = List.map pid (Valkey.pel g) /\
    ValkeyWorker.ids_to_ack b' = ValkeyWorker.ids_to_ack b ++ extra /\
    ValkeyWorker.batch_latencies b' = ValkeyWorker.batch_latencies b ++ new /\
    List.length new = List.length extra /\
    ValkeyWorker.jobs_processed s' = ValkeyWorker.jobs_processed s + len extra /\
    ValkeyWorker.metrics s' = ValkeyWorker.metrics s /\
    same_worker s s' /\
    (forall q, In q (Valkey.pel g) ->
       untouched q g' extra \/
       (In q ps /\ stale now0 q = true /\
        reclaimed (ValkeyWorker.worker_id s) q g' extra)).

(* ================================================================== *)
(** ** Vocabulary of the further properties *)

(** The samples of a record call that a thread has passed to the
    collector's method but not stored yet. *)
Definition unstored (p : MetricsCollector.pc) : Z :=
  match p with
  | MetricsCollector.Waiting l
  | MetricsCollector.Entered l
  | MetricsCollector.Counted l => len l
  | MetricsCollector.Outside | MetricsCollector.Stored => 0
  end.

(** The same, summed over the threads [0 .. K-1]. *)
Fixpoint unstored_below (K : nat) (f : nat -> MetricsCollector.pc) : Z :=
  match K with
  | O => 0
  | S k => unstored (f k) + unstored_below k f
  end.

(** How many samples the record calls of a schedule have been given:
    only the calls that the schedule could make count (a thread that is
    inside a call cannot start another). *)
Fixpoint invoked (es : list MetricsCollector.event) (s : MetricsCollector.sys)
  : Z :=
  match es with
  | [] => 0
  | e :: es' =>
    match MetricsCollector.step e s with
    | Some s' =>
      match e with
      | MetricsCollector.Invoke _ k =>
        len (MetricsCollector.samples_of k) + invoked es' s'
      | MetricsCollector.Step _ => invoked es' s'
      end
    | None => invoked es' s
    end
  end.

(** The samples themselves: those a thread has passed to the collector's
    method but not stored yet. *)
Definition pending (p : MetricsCollector.pc) : list Q :=
  match p with
  | MetricsCollector.Waiting l
  | MetricsCollector.Entered l
  | MetricsCollector.Counted l => l
  | MetricsCollector.Outside | MetricsCollector.Stored => []
  end.

(** The same, collected over the threads [0 .. K-1]. *)
Fixpoint pending_below (K : nat) (f : nat -> MetricsCollector.pc) : list Q :=
  match K with
  | O => []
  | S k => pending (f k) ++ pending_below k f
  end.

(** The samples that the record calls of a schedule have been given, in
    the order of the calls; as for [invoked], only the calls that the
    schedule could make count. *)
Fixpoint invoked_samples (es : list MetricsCollector.event)
    (s : MetricsCollector.sys) : list Q :=
  match es with
  | [] => []
  | e :: es' =>
    match MetricsCollector.step e s with
    | Some s' =>
      match e with
      | MetricsCollector.Invoke _ k =>
        MetricsCollector.samples_of k ++ invoked_samples es' s'
      | MetricsCollector.Step _ => invoked_samples es' s'
      end
    | None => invoked_samples es' s
    end
  end.

(** The jobs that the producer's backend holds: the committed rows of
    the queue table, or the entries of the stream. *)
Definition stored_jobs (s : Producer.t) : Z :=
  match Producer.backend s with
  | Producer.Pg => len (Producer.table (Producer.conn s))
  | Producer.ValkeyStreams => len (Valkey.stream (Producer.valkey s))
  end.

(** A row as [produce_pg_batch] builds it while [jobs_produced] is [n]:
    the payload carries [n] as its id, the priority is one of 0..10, and
    there is a partition key, one of 0..15, exactly for the partitioned
    queue. *)
Definition well_formed_row (q : Producer.queue_type_t) (n : Z)
                           (j : Producer.job) : Prop :=
  Producer.payload_id j = n /\
  0 <= Producer.priority j <= 10 /\
  match q with
  | Producer.Partitioned =>
    exists k, Producer.partition_key j = Some k /\ 0 <= k <= 15
  | _ => Producer.partition_key j = None
  end.

(** The fields of the producer that [run] only reads. *)
Definition same_settings (s s' : Producer.t) : Prop :=
  Producer.backend s' = Producer.backend s /\
  Producer.queue_type s' = Producer.queue_type s /\
  Producer.rate s' = Producer.rate s /\
  Producer.duration s' = Producer.duration s /\
  Producer.total_jobs s' = Producer.total_jobs s.

(** The calls of a fault schedule that are still to raise. *)
Fixpoint failures (fs : list (option exn)) : nat :=
  match fs with
  | [] => O
  | Some _ :: fs' => S (failures fs')
  | None :: fs' => failures fs'
  end.

(** What a stretch of a worker's execution has done when it processed
    [n] entries and sent the commands [new]: the worker's counter and
    the collector's counter have grown by [n], [n] samples have been
    appended to the collector, and the server has logged [new]. *)
Definition worker_progress (n : Z) (new : list Valkey.command)
                           (s s' : ValkeyWorker.t) : Prop :=
  ValkeyWorker.jobs_processed s' = ValkeyWorker.jobs_processed s + n /\
  MetricsCollector.jobs_processed (ValkeyWorker.metrics s') =
    MetricsCollector.jobs_processed (ValkeyWorker.metrics s) + n /\
  (exists samples,
     MetricsCollector.latencies (ValkeyWorker.metrics s') =
       MetricsCollector.latencies (ValkeyWorker.metrics s) ++ samples /\
     len samples = n) /\
  Valkey.trace (ValkeyWorker.valkey s') =
    Valkey.trace (ValkeyWorker.valkey s) ++ new /\
  same_worker s s'.

Definition is_read (c : Valkey.command) : bool :=
  match c with Valkey.XReadGroup _ _ _ => true | _ => false end.

Definition is_scan (c : Valkey.command) : bool :=
  match c with Valkey.XPendingRange _ => true | _ => false end.

Definition how_many (f : Valkey.command -> bool) (l : list Valkey.command) : Z :=
  len (List.filter f l).

(** The commands that follow a fetch or a scan: the creation of the
    group, an acknowledgement of at least one entry, or a claim of one
    entry for the worker with the idle threshold of 5000 ms. *)
Definition follow_up (s : ValkeyWorker.t) (c : Valkey.command) : Prop :=
  match c with
  | Valkey.XGroupCreate => True
  | Valkey.XAck ids => ids <> []
  | Valkey.XClaim w min_idle ids =>
    w = ValkeyWorker.worker_id s /\ min_idle = 5000 /\ exists i, ids = [i]
  | _ => False
  end.

(** The commands that a worker sends. *)
Definition worker_command (s : ValkeyWorker.t) (c : Valkey.command) : Prop :=
  match c with
  | Valkey.XReadGroup w count block =>
    w = ValkeyWorker.worker_id s /\ count = ValkeyWorker.batch_size s /\
    block = ValkeyWorker.poll_interval s
  | Valkey.XPendingRange count => count = 10
  | Valkey.XAdd _ => False
  | _ => follow_up s c
  end.

(** The fields of a PostgreSQL worker that no method assigns. *)
Definition same_pg_worker (s s' : PgWorker.t) : Prop :=
  PgWorker.worker_id s' = PgWorker.worker_id s /\
  PgWorker.queue_type s' = PgWorker.queue_type s /\
  PgWorker.partitions s' = PgWorker.partitions s.

(** The seconds that the processing of one job takes. *)
Definition processing_time : Q :=
  inject_Z (Config.job_processing_time_ms Config.BENCHMARK) / 1000.

(** The seconds that a worker waits when it has found no job. *)
Definition polling_time : Q :=
  inject_Z (Config.worker_poll_interval_ms Config.BENCHMARK) / 1000.

(** What a stretch of a PostgreSQL worker's execution has done when it
    processed [n] jobs and sent the statements [new]: the worker's
    counter and the collector's counter have grown by [n], [n] samples
    have been appended to the collector, the database has logged [new],
    and at least [n] processing times have passed. *)
Definition pg_progress (n : Z) (new : list PgWorker.statement)
                       (s s' : PgWorker.t) : Prop :=
  PgWorker.jobs_processed s' = PgWorker.jobs_processed s + n /\
  MetricsCollector.jobs_processed (PgWorker.metrics s') =
    MetricsCollector.jobs_processed (PgWorker.metrics s) + n /\
  (exists samples,
     MetricsCollector.latencies (PgWorker.metrics s') =
       MetricsCollector.latencies (PgWorker.metrics s) ++ samples /\
     len samples = n) /\
  PgWorker.log (PgWorker.conn s') = PgWorker.log (PgWorker.conn s) ++ new /\
  same_pg_worker s s' /\
  (PgWorker.clock s + inject_Z n * processing_time <= PgWorker.clock s')%Q.

(** The statements of a worker, by the function they call. *)
Definition get_job (s : PgWorker.t) : PgWorker.statement :=
  {| PgWorker.function :=
       PgWorker.get_function (PgWorker.QUEUE_TYPES (PgWorker.queue_type s));
     PgWorker.parameters := [PgWorker.VStr (PgWorker.worker_id s)] |}.

Definition get_job_from (s : PgWorker.t) (partition_key : Z)
  : PgWorker.statement :=
  {| PgWorker.function :=
       PgWorker.get_function (PgWorker.QUEUE_TYPES (PgWorker.queue_type s));
     PgWorker.parameters := [PgWorker.VInt partition_key;
                             PgWorker.VStr (PgWorker.worker_id s)] |}.

Definition calls_function (f : string) (st : PgWorker.statement) : bool :=
  String.eqb (PgWorker.function st) f.

Definition is_get (s : PgWorker.t) : PgWorker.statement -> bool :=
  calls_function
    (PgWorker.get_function (PgWorker.QUEUE_TYPES (PgWorker.queue_type s))).

Definition is_complete (s : PgWorker.t) : PgWorker.statement -> bool :=
  calls_function
    (PgWorker.complete_function (PgWorker.QUEUE_TYPES (PgWorker.queue_type s))).

Definition is_fail (s : PgWorker.t) : PgWorker.statement -> bool :=
  calls_function
    (PgWorker.fail_function (PgWorker.QUEUE_TYPES (PgWorker.queue_type s))).

Definition calls (f : PgWorker.statement -> bool)
                 (l : list PgWorker.statement) : Z :=
  len (List.filter f l).

(** A statement of the worker [s]: a fetch for the worker, from one of
    its partitions when it has partitions, or the completion of a
    job. *)
Definition own_statement (s : PgWorker.t) (st : PgWorker.statement) : Prop :=
  st = get_job s \/
  (exists keys k, PgWorker.partitions s = Some keys /\ In k keys /\
                  st = get_job_from s k) \/
  (is_complete s st = true /\ is_get s st = false).

(** A worker on a connection with the replies [replies] to come. *)
Definition pg_worker (queue_type : PgWorker.queue_type_t)
                     (partitions : option (list Z))
                     (replies : list PgWorker.reply) : PgWorker.t :=
  PgWorker.mk "worker_3" queue_type partitions 0
    (MetricsCollector.init "metrics_pg.jsonl" 0)
    {| PgWorker.script := replies; PgWorker.log := [] |} 2 [].

Definition complete_job (s : PgWorker.t) (parameters : list PgWorker.value)
  : PgWorker.statement :=
  {| PgWorker.function :=
       PgWorker.complete_function (PgWorker.QUEUE_TYPES (PgWorker.queue_type s));
     PgWorker.parameters := parameters |}.

(** The statements [new] of a stretch in which [n] jobs were counted
    are the worker's own, none of them calls the queue's fail function,
    every counted job was marked as completed and every completion
    follows a fetch. *)
Definition disciplined (s : PgWorker.t) (n : Z)
                       (new : list PgWorker.statement) : Prop :=
  Forall (own_statement s) new /\
  calls (is_fail s) new = 0 /\
  n <= calls (is_complete s) new <= calls (is_get s) new.

(** The first parameter of the statement is one of the partition keys
    [keys]. *)
Definition names_partition (keys : list Z) (st : PgWorker.statement) : Prop :=
  exists k rest, In k keys /\ PgWorker.parameters st = PgWorker.VInt k :: rest.

(** What [process_job_partitioned] has done when it leaves its loop
    over [keys] with result [r]: it has fetched from the first [k] keys,
    in their order; when it found no job these are all the keys and it
    has waited for the polling time; when it found one, its last two
    statements are the fetch from the [k]-th key and the completion of
    the job in that partition.  Every statement names one of the
    keys. *)
Definition polled (keys : list Z) (s : PgWorker.t) (r : bool * PgWorker.t)
  : Prop :=
  exists new k,
    pg_progress (if fst r then 1 else 0) new s (snd r) /\
    disciplined s (if fst r then 1 else 0) new /\
    Forall (names_partition keys) new /\
    (k <= List.length keys)%nat /\
    List.filter (is_get s) new = List.map (get_job_from s) (firstn k keys) /\
    (fst r = false ->
     k = List.length keys /\
     (PgWorker.clock s + polling_time <= PgWorker.clock (snd r))%Q) /\
    (fst r = true ->
     (0 < k)%nat /\
     exists pre key job,
       new = pre ++ [get_job_from s key;
                     complete_job s [PgWorker.VInt key;
                                     PgWorker.VInt (PgWorker.job_id job)]] /\
       nth_error keys (pred k) = Some key).

(** The statements of one turn of a worker that finds its queue
    empty: one fetch, or one fetch from each of its partitions. *)
Definition idle_turn (s : PgWorker.t) : list PgWorker.statement :=
  match PgWorker.queue_type s with
  | PgWorker.partitioned =>
    match PgWorker.partitions s with
    | Some keys => List.map (get_job_from s) keys
    | None => []
    end
  | _ => [get_job s]
  end.

(** Between the states [s] and [s'] of a Valkey worker at least one
    processing time has passed for every entry counted. *)
Definition paced (s s' : ValkeyWorker.t) : Prop :=
  (ValkeyWorker.clock s +
   inject_Z (ValkeyWorker.jobs_processed s' - ValkeyWorker.jobs_processed s)
   * processing_time
   <= ValkeyWorker.clock s')%Q.

(** The entry carries no [created_at] field (or an empty one). *)
Definition undated (m : Valkey.message) : Prop :=
  Valkey.created_at m = Valkey.NoCreatedAt.

(** A worker in front of a stream of two entries without [created_at],
    added at instant 0 and seen at instant 90. *)
Definition undated_entries : ValkeyWorker.t :=
  ValkeyWorker.mk "worker_0" 0 50 100
    (MetricsCollector.init "metrics_valkey.jsonl" 0)
    {| Valkey.stream :=
         [ {| Valkey.message_id := 1; Valkey.created_at := Valkey.NoCreatedAt |};
           {| Valkey.message_id := 2; Valkey.created_at := Valkey.NoCreatedAt |} ];
       Valkey.group := Some {| Valkey.delivered := 0; Valkey.pel := [] |};
       Valkey.faults := [];
       Valkey.trace := [] |}
    90 [].

(* ================================================================== *)
(** * Properties *)

(* ------------------------------------------------------------------ *)
(** ** Facts about [range] *)

Section Range.

Lemma range_length (n : Z) : List.length (range n) = Z.to_nat n.
Proof. unfold range. now rewrite length_map, length_seq. Qed.

Lemma range_len (n : Z) : 0 <= n -> len (range n) = n.
Proof. intros H. unfold len. rewrite range_length. lia. Qed.

Lemma range_In (n x : Z) : In x (range n) <-> 0 <= x < n.
Proof.
  unfold range. rewrite in_map_iff. split.
  - intros [k [<- Hk]]. apply in_seq in Hk. lia.
  - intros H. exists (Z.to_nat x). split; [lia|]. apply in_seq. lia.
Qed.

Lemma range_nth_error (n i : Z) :
  0 <= i < n -> nth_error (range n) (Z.to_nat i) = Some i.
Proof.
  intros H. unfold range. rewrite nth_error_map, nth_error_seq.
  destruct (Nat.ltb_spec (Z.to_nat i) (Z.to_nat n)); [|lia].
  simpl. f_equal. lia.
Qed.

Lemma range_NoDup (n : Z) : NoDup (range n).
Proof.
  unfold range. apply Finite.Injective_map_NoDup; [|apply seq_NoDup].
  intros a b. apply Nat2Z.inj.
Qed.

End Range.

(* ------------------------------------------------------------------ *)
(** ** Partition assignment of the PostgreSQL workers *)

Section PartitionAssignment.

Import PostgreSQLWorker.

Lemma partitions_ok (w W P : Z) :
  W <> 0 -> P <> 0 ->
  partitions w W P =
    Ok (List.map (fun i => (w mod P + i) mod P)
                 (range (Z.max 1 (P / W)))).
Proof.
  intros HW HP. unfold partitions, partitions_per_worker, start_partition.
  destruct (Z.eqb_spec W 0); [contradiction|].
  destruct (Z.eqb_spec P 0); [contradiction|]. reflexivity.
Qed.

(** Shifting by less than [P] cannot be undone modulo [P]. *)
Lemma shift_mod_inj (s P i j : Z) :
  0 < P -> 0 <= i < P -> 0 <= j < P ->
  (s + i) mod P = (s + j) mod P -> i = j.
Proof.
  intros HP Hi Hj H.
  pose proof (Z.div_mod (s + i) P ltac:(lia)) as Ei.
  pose proof (Z.div_mod (s + j) P ltac:(lia)) as Ej.
  rewrite H in Ei.
  assert (E : i - j = P * ((s + i) / P - (s + j) / P)) by lia.
  assert ((s + i) / P - (s + j) / P = 0) by nia.
  lia.
Qed.

(** The share of a worker never exceeds the number of partitions. *)
Lemma share_le (W P : Z) : 1 <= W -> 1 <= P -> Z.max 1 (P / W) <= P.
Proof.
  intros HW HP. apply Z.max_lub; [lia|].
  apply Z.div_le_upper_bound; nia.
Qed.

(** C1 as stated fails at the configuration of [config.py], 10 workers
    and 16 partitions: a worker owns one partition where the claim says
    two, and no worker owns partition 10. *)
Lemma partition_assignment_gap :
  1 <= Config.num_workers Config.BENCHMARK <= Config.partitioned_partitions /\
  ~ owns_ceil_share (Config.num_workers Config.BENCHMARK)
                    Config.partitioned_partitions /\
  ~ covers_all (Config.num_workers Config.BENCHMARK)
               Config.partitioned_partitions.
Proof.
  cbv [Config.num_workers Config.BENCHMARK Config.partitioned_partitions].
  split; [lia|]. split.
  - intros H. specialize (H 0 ltac:(lia)). vm_compute in H. discriminate.
  - intros H. destruct (H 10 ltac:(lia)) as [w [Hw Hin]].
    unfold owns, owned in Hin.
    rewrite partitions_ok in Hin by lia.
    change (Z.max 1 (16 / 10)) with 1 in Hin. cbn in Hin.
    destruct Hin as [Hin|[]].
    rewrite Z.add_0_r, Z.mod_mod, Z.mod_small in Hin by lia. lia.
Qed.

(** C1 (amended): for every pool size [W >= 1] and partition count
    [P >= 1], the worker with identifier [w] is constructed with exactly
    [max(1, P // W)] partitions, the [i]-th of which is
    [(w mod P + i) mod P]; they are indices of [0 .. P-1] and pairwise
    distinct. *)
Theorem partition_assignment_block (W P w : Z) :
  1 <= W -> 1 <= P ->
  exists l,
    partitions w W P = Ok l /\
    len l = Z.max 1 (P / W) /\
    (forall i, 0 <= i < Z.max 1 (P / W) ->
       nth_error l (Z.to_nat i) = Some ((w mod P + i) mod P)) /\
    Forall (fun p => 0 <= p < P) l /\
    NoDup l.
Proof.
  intros HW HP. eexists. split; [apply partitions_ok; lia|].
  pose proof (share_le W P HW HP) as Hk.
  repeat split.
  - unfold len. rewrite length_map, range_length. lia.
  - intros i Hi. rewrite nth_error_map, range_nth_error by lia. reflexivity.
  - apply Forall_forall. intros p Hp. apply in_map_iff in Hp.
    destruct Hp as [i [<- _]]. apply Z.mod_pos_bound. lia.
  - apply Finite.Injective_map_NoDup_in; [|apply range_NoDup].
    intros i j Hi Hj. apply range_In in Hi, Hj.
    apply shift_mod_inj; lia.
Qed.

Lemma partition_assignment_block_witness :
  exists l,
    partitions 7 3 16 = Ok l /\
    len l = Z.max 1 (16 / 3) /\
    (forall i, 0 <= i < Z.max 1 (16 / 3) ->
       nth_error l (Z.to_nat i) = Some ((7 mod 16 + i) mod 16)) /\
    Forall (fun p => 0 <= p < 16) l /\
    NoDup l.
Proof. apply (partition_assignment_block 3 16 7); lia. Defined.


End PartitionAssignment.

(* ------------------------------------------------------------------ *)
(** ** [sorted], [sum] and indexing *)

Section SortedFacts.

Lemma insert_sorted_perm (x : Q) (l : list Q) :
  Permutation (insert_sorted x l) (x :: l).
Proof.
  induction l as [|y l IH]; simpl; [reflexivity|].
  destruct (Qle_bool x y); [reflexivity|].
  rewrite IH. apply perm_swap.
Qed.

Lemma sorted_perm (l : list Q) : Permutation (sorted l) l.
Proof.
  induction l as [|x l IH]; simpl; [reflexivity|].
  unfold sorted in *. simpl. rewrite insert_sorted_perm. now constructor.
Qed.

Lemma Qle_bool_false (x y : Q) : Qle_bool x y = false -> (y <= x)%Q.
Proof.
  intros H. destruct (Qlt_le_dec x y) as [Hlt|Hle]; [|exact Hle].
  apply Qlt_le_weak, Qle_bool_iff in Hlt. congruence.
Qed.

Lemma insert_sorted_sorted (x : Q) (l : list Q) :
  StronglySorted Qle l -> StronglySorted Qle (insert_sorted x l).
Proof.
  induction 1 as [|y l Hs IH Hall]; simpl.
  - constructor; constructor.
  - destruct (Qle_bool x y) eqn:E.
    + apply Qle_bool_iff in E. constructor; [now constructor|].
      constructor; [exact E|].
      eapply Forall_impl; [|exact Hall]. intros z Hz.
      eapply Qle_trans; eassumption.
    + apply Qle_bool_false in E. constructor; [exact IH|].
      eapply Permutation_Forall;
        [symmetry; apply insert_sorted_perm|].
      now constructor.
Qed.

Lemma sorted_sorted (l : list Q) : StronglySorted Qle (sorted l).
Proof.
  induction l as [|x l IH]; [constructor|].
  unfold sorted in *. simpl. now apply insert_sorted_sorted.
Qed.

Lemma sorted_length (l : list Q) : List.length (sorted l) = List.length l.
Proof. apply Permutation_length, sorted_perm. Qed.

Lemma count_perm (p : Q -> bool) (l l' : list Q) :
  Permutation l l' -> count p l = count p l'.
Proof.
  intros H. unfold count. apply Permutation_length.
  induction H; simpl; repeat destruct (p _); eauto using Permutation.
Qed.

Lemma count_none (p : Q -> bool) (l : list Q) :
  Forall (fun x => p x = false) l -> count p l = 0%nat.
Proof.
  unfold count. induction 1 as [|x l Hx _ IH]; simpl; [reflexivity|].
  now rewrite Hx.
Qed.

Lemma count_cons (p : Q -> bool) (x : Q) (l : list Q) :
  count p (x :: l) = ((if p x then 1 else 0) + count p l)%nat.
Proof. unfold count. simpl. now destruct (p x). Qed.

Lemma Qlt_bool_false_of_le (x v : Q) : (v <= x)%Q -> Qlt_bool x v = false.
Proof.
  intros H. unfold Qlt_bool. apply Qle_bool_iff in H. now rewrite H.
Qed.

(** In an ascending list, the element at position [k] has at most [k]
    elements strictly below it and more than [k] below or equal. *)
Lemma sorted_nth_counts (s : list Q) :
  StronglySorted Qle s ->
  forall k, (k < List.length s)%nat ->
    (count (fun x => Qlt_bool x (nth k s 0%Q)) s <= k
     < count (fun x => Qle_bool x (nth k s 0%Q)) s)%nat.
Proof.
  induction 1 as [|a s Hs IH Hall]; intros k Hk; simpl in Hk; [lia|].
  rewrite !count_cons. destruct k as [|k]; simpl nth.
  - rewrite (Qlt_bool_false_of_le a a) by apply Qle_refl.
    rewrite count_none.
    + assert (E : Qle_bool a a = true) by (apply Qle_bool_iff, Qle_refl).
      rewrite E. lia.
    + eapply Forall_impl; [|exact Hall].
      intros x Hx. now apply Qlt_bool_false_of_le.
  - specialize (IH k ltac:(lia)).
    assert (Ha : Qle_bool a (nth k s 0%Q) = true).
    { apply Qle_bool_iff. rewrite Forall_forall in Hall.
      apply Hall, nth_In. lia. }
    rewrite Ha. destruct (Qlt_bool a (nth k s 0%Q)); lia.
Qed.

Lemma sorted_has_rank (l : list Q) (k : Z) :
  0 <= k < len l -> has_rank l k (nth (Z.to_nat k) (sorted l) 0%Q).
Proof.
  intros Hk. unfold len in Hk.
  assert (Hlt : (Z.to_nat k < List.length (sorted l))%nat)
    by (rewrite sorted_length; lia).
  split.
  - eapply Permutation_in; [apply sorted_perm|]. now apply nth_In.
  - pose proof (sorted_nth_counts (sorted l) (sorted_sorted l) _ Hlt) as H.
    rewrite !(count_perm _ _ _ (sorted_perm l)) in H. lia.
Qed.

Lemma getitem_nth {A : Type} (l : list A) (i : Z) (d : A) :
  0 <= i < len l -> getitem l i = Ok (nth (Z.to_nat i) l d).
Proof.
  intros H. unfold getitem, len in *.
  destruct (Z.ltb_spec i 0); [lia|].
  destruct (Z.ltb_spec i 0); [lia|].
  destruct (nth_error l (Z.to_nat i)) eqn:E.
  - now rewrite (nth_error_nth _ _ d E).
  - apply nth_error_None in E. lia.
Qed.

Lemma getitem_last {A : Type} (l : list A) (d : A) :
  l <> [] -> getitem l (-1) = Ok (last l d).
Proof.
  intros H. unfold getitem.
  assert (Hl : 0 < len l).
  { unfold len. destruct l; [contradiction|simpl; lia]. }
  change (-1 <? 0) with true. cbv iota.
  destruct (Z.ltb_spec (-1 + len l) 0); [lia|].
  destruct (exists_last H) as [l' [x ->]].
  rewrite last_last. unfold len. rewrite length_app. simpl List.length.
  replace (Z.to_nat (-1 + Z.of_nat (List.length l' + 1))) with (List.length l')
    by lia.
  now rewrite nth_error_app2, Nat.sub_diag by lia.
Qed.

Lemma sorted_last_max (s : list Q) :
  StronglySorted Qle s ->
  Forall (fun x => (x <= last s 0)%Q) s.
Proof.
  induction 1 as [|a s Hs IH Hall]; [constructor|].
  destruct s as [|b s]; [repeat constructor; apply Qle_refl|].
  change (last (a :: b :: s) 0%Q) with (last (b :: s) 0%Q).
  constructor; [|exact IH].
  rewrite Forall_forall in Hall, IH.
  eapply Qle_trans; [apply (Hall b); now left|apply IH; now left].
Qed.

Lemma sum_fold_right (l : list Q) : (sum l == fold_right Qplus 0 l)%Q.
Proof.
  unfold sum.
  assert (G : forall a, (fold_left Qplus l a == a + fold_right Qplus 0 l)%Q).
  { induction l as [|x l IH]; intros a; simpl.
    - now rewrite Qplus_0_r.
    - rewrite IH. now rewrite Qplus_assoc. }
  rewrite G. apply Qplus_0_l.
Qed.

Lemma fold_right_Qplus_perm (l l' : list Q) :
  Permutation l l' ->
  (fold_right Qplus 0 l == fold_right Qplus 0 l')%Q.
Proof.
  induction 1; simpl.
  - reflexivity.
  - now rewrite IHPermutation.
  - rewrite !Qplus_assoc. now rewrite (Qplus_comm y x).
  - etransitivity; eassumption.
Qed.

(** In binary64 arithmetic [int(n * 0.50)], [int(n * 0.95)] and
    [int(n * 0.99)] are the indices that exact arithmetic gives, for every
    sample count up to 10000. *)
Lemma float_index_agrees :
  forallb (fun n => float_index_is n 50 (int (inject_Z n * 0.50)) &&
                    float_index_is n 95 (int (inject_Z n * 0.95)) &&
                    float_index_is n 99 (int (inject_Z n * 0.99)))
          (List.map (Z.add 1) (range 10000)) = true.
Proof. vm_compute. reflexivity. Qed.

(** [int(n * pct)] is the floor of the specification. *)
Lemma int_index (n : Z) (pct : Q) :
  0 <= n -> (0 <= pct)%Q ->
  int (inject_Z n * pct) = nearest_rank_index pct n.
Proof.
  intros Hn Hp. unfold int, nearest_rank_index.
  assert (H : (0 <= inject_Z n * pct)%Q).
  { apply Qmult_le_0_compat; [|exact Hp].
    change 0%Q with (inject_Z 0). now rewrite <- Zle_Qle. }
  apply Qle_bool_iff in H. rewrite H.
  apply Qfloor_comp, Qmult_comm.
Qed.

Lemma nearest_rank_index_bounds (n : Z) (pct : Q) :
  0 < n -> (0 <= pct)%Q -> (pct < 1)%Q ->
  0 <= nearest_rank_index pct n < n.
Proof.
  intros Hn H0 H1. unfold nearest_rank_index.
  assert (Hn' : (0 < inject_Z n)%Q).
  { change 0%Q with (inject_Z 0). now rewrite <- Zlt_Qlt. }
  split.
  - rewrite <- (Qfloor_Z 0). apply Qfloor_resp_le.
    apply Qmult_le_0_compat; [exact H0|now apply Qlt_le_weak].
  - rewrite Zlt_Qlt. eapply Qle_lt_trans; [apply Qfloor_le|].
    rewrite <- (Qmult_1_l (inject_Z n)) at 2.
    apply Qmult_lt_compat_r; assumption.
Qed.

End SortedFacts.

(* ------------------------------------------------------------------ *)
(** ** [MetricsCollector.get_metrics] and [save_metrics] *)

Section Metrics.

Import MetricsCollector.

Lemma len_pos_of_nonempty {A : Type} (l : list A) : l <> [] -> 0 < len l.
Proof. unfold len. destruct l; [contradiction|simpl; lia]. Qed.

Lemma len_sorted (l : list Q) : len (sorted l) = len l.
Proof. unfold len. now rewrite sorted_length. Qed.

Lemma percentile_value (l : list Q) (pct : Q) :
  l <> [] -> (0 <= pct)%Q -> (pct < 1)%Q ->
  percentile (sorted l) (len (sorted l)) pct =
    Ok (nth (Z.to_nat (nearest_rank_index pct (len l))) (sorted l) 0%Q).
Proof.
  intros Hl H0 H1. pose proof (len_pos_of_nonempty l Hl) as Hn.
  unfold percentile. rewrite len_sorted.
  destruct (Z.ltb_spec 0 (len l)); [|lia].
  rewrite int_index by (assumption || lia).
  apply getitem_nth. rewrite len_sorted.
  now apply nearest_rank_index_bounds.
Qed.

(** The dictionary returned for a collector that holds samples. *)
Lemma get_metrics_value (now : Q) (c : t) :
  latencies c <> [] -> ~ (now == start_time c)%Q ->
  let s := sorted (latencies c) in
  let n := len (latencies c) in
  get_metrics now c =
    Ok (Some {| timestamp := now;
                elapsed := (now - start_time c)%Q;
                m_jobs_processed := jobs_processed c;
                throughput := (inject_Z (jobs_processed c) / (now - start_time c))%Q;
                latency_p50 := nth (Z.to_nat (nearest_rank_index 0.50 n)) s 0%Q;
                latency_p95 := nth (Z.to_nat (nearest_rank_index 0.95 n)) s 0%Q;
                latency_p99 := nth (Z.to_nat (nearest_rank_index 0.99 n)) s 0%Q;
                latency_min := nth 0 s 0%Q;
                latency_max := last s 0%Q;
                latency_avg := (sum s / inject_Z n)%Q |}).
Proof.
  intros Hl Hnow s n. unfold get_metrics.
  destruct (latencies c) as [|x l] eqn:E; [contradiction|]. fold s.
  destruct (Qeq_bool (now - start_time c) 0) eqn:Eel.
  { exfalso. apply Hnow. apply Qeq_bool_eq in Eel.
    rewrite <- (Qplus_0_l (start_time c)), <- Eel. ring. }
  assert (Hne : x :: l <> []) by discriminate.
  pose proof (len_pos_of_nonempty _ Hne) as Hn. fold n in Hn.
  unfold s. rewrite !percentile_value by (assumption || discriminate || reflexivity).
  rewrite len_sorted. fold n. fold s.
  destruct (Z.ltb_spec 0 n); [|lia].
  rewrite (getitem_nth s 0 0%Q) by (unfold s; rewrite len_sorted; fold n; lia).
  rewrite (getitem_last s 0%Q).
  - reflexivity.
  - intros Hs. pose proof (len_sorted (x :: l)) as Hls. fold s in Hls.
    rewrite Hs in Hls. fold n in Hls. unfold len in Hls at 1. simpl in Hls. lia.
Qed.

Lemma Qsame_eq (x y : Q) : Qsame x y = true -> x = y.
Proof.
  destruct x as [a b], y as [c d]. unfold Qsame. simpl.
  intros H. apply andb_prop in H. destruct H as [H1 H2].
  apply Z.eqb_eq in H1. apply Pos.eqb_eq in H2. now subst.
Qed.

Lemma rankb_of_has_rank (l : list Q) (k : Z) (v : Q) :
  has_rank l k v -> rankb l k v = true.
Proof.
  intros [_ [H1 H2]]. unfold rankb.
  apply andb_true_intro. split; [now apply Z.leb_le|now apply Z.ltb_lt].
Qed.

(** Among the samples [1 .. 100], the rank determines the sample. *)
Lemma rank_in_samples_1_100 (l : list Q) (k target : Z) (v : Q) :
  Permutation l samples_1_100 ->
  forallb (fun x => implb (rankb samples_1_100 k x) (Qsame x (inject_Z target)))
          samples_1_100 = true ->
  has_rank l k v -> v = inject_Z target.
Proof.
  intros Hp Hall Hr. apply Qsame_eq.
  rewrite forallb_forall in Hall.
  assert (Hin : In v samples_1_100).
  { eapply Permutation_in; [exact Hp|apply Hr]. }
  specialize (Hall v Hin).
  apply rankb_of_has_rank in Hr. unfold rankb in *.
  rewrite !(count_perm _ _ _ Hp) in Hr. rewrite Hr in Hall. exact Hall.
Qed.

(** C2: for a collector holding [n >= 1] samples, [get_metrics] returns
    a dictionary whose [latency_p50], [latency_p95] and [latency_p99] are
    the entries of the ascending copy of the samples at the indices
    [floor(0.50 n)], [floor(0.95 n)] and [floor(0.99 n)], that is the
    samples of these ranks; [latency_min] and [latency_max] are the
    smallest and the largest sample, [latency_avg] is their arithmetic
    mean; and when the samples are [1, 2, ..., 100] in any order,
    p50 = 51, p95 = 96 and p99 = 100. *)
Theorem get_metrics_nearest_rank (now : Q) (c : t) :
  latencies c <> [] -> ~ (now == start_time c)%Q ->
  exists m,
    get_metrics now c = Ok (Some m) /\
    let l := latencies c in
    let n := len l in
    let s := sorted l in
    (StronglySorted Qle s /\ Permutation s l) /\
    (getitem s (nearest_rank_index 0.50 n) = Ok (latency_p50 m) /\
     getitem s (nearest_rank_index 0.95 n) = Ok (latency_p95 m) /\
     getitem s (nearest_rank_index 0.99 n) = Ok (latency_p99 m)) /\
    (has_rank l (nearest_rank_index 0.50 n) (latency_p50 m) /\
     has_rank l (nearest_rank_index 0.95 n) (latency_p95 m) /\
     has_rank l (nearest_rank_index 0.99 n) (latency_p99 m)) /\
    (In (latency_min m) l /\ Forall (fun x => (latency_min m <= x)%Q) l) /\
    (In (latency_max m) l /\ Forall (fun x => (x <= latency_max m)%Q) l) /\
    (latency_avg m == mean l)%Q /\
    (Permutation l samples_1_100 ->
       latency_p50 m = inject_Z 51 /\
       latency_p95 m = inject_Z 96 /\
       latency_p99 m = inject_Z 100).
Proof.
  intros Hl Hnow. eexists. split; [apply get_metrics_value; assumption|].
  cbv zeta. cbn [latency_p50 latency_p95 latency_p99 latency_min
                 latency_max latency_avg].
  set (l := latencies c) in *. set (n := len l). set (s := sorted l).
  pose proof (len_pos_of_nonempty l Hl) as Hn. fold n in Hn.
  pose proof (sorted_sorted l) as Hs. fold s in Hs.
  pose proof (sorted_perm l) as Hp. fold s in Hp.
  assert (Hb : forall pct, (0 <= pct)%Q -> (pct < 1)%Q ->
               0 <= nearest_rank_index pct n < len l).
  { intros. now apply nearest_rank_index_bounds. }
  assert (Hg : forall pct, (0 <= pct)%Q -> (pct < 1)%Q ->
               getitem s (nearest_rank_index pct n) =
               Ok (nth (Z.to_nat (nearest_rank_index pct n)) s 0%Q)).
  { intros. apply getitem_nth. unfold s. rewrite len_sorted. now apply Hb. }
  assert (Hr : forall pct, (0 <= pct)%Q -> (pct < 1)%Q ->
               has_rank l (nearest_rank_index pct n)
                        (nth (Z.to_nat (nearest_rank_index pct n)) s 0%Q)).
  { intros. apply sorted_has_rank. now apply Hb. }
  assert (Hs0 : s <> []).
  { intros E. apply Permutation_length in Hp. rewrite E in Hp.
    unfold n, len in Hn. simpl in Hp. lia. }
  split; [now split|].
  split; [repeat split; apply Hg; reflexivity || discriminate|].
  split; [repeat split; apply Hr; reflexivity || discriminate|].
  split; [|split; [|split]].
  - split.
    + eapply Permutation_in; [exact Hp|]. destruct s; [contradiction|now left].
    + eapply Permutation_Forall; [exact Hp|].
      destruct s as [|a s']; [contradiction|]. simpl.
      apply StronglySorted_inv in Hs. destruct Hs as [_ Hall].
      constructor; [apply Qle_refl|exact Hall].
  - split.
    + eapply Permutation_in; [exact Hp|].
      destruct (exists_last Hs0) as [s' [x E]]. rewrite E, last_last.
      apply in_or_app. right. now left.
    + eapply Permutation_Forall; [exact Hp|]. now apply sorted_last_max.
  - unfold mean. fold n. rewrite sum_fold_right.
    now rewrite (fold_right_Qplus_perm _ _ Hp).
  - intros H100.
    assert (En : n = 100).
    { unfold n, len. rewrite (Permutation_length H100). reflexivity. }
    rewrite En in Hr.
    repeat split.
    + apply (rank_in_samples_1_100 l 50 51); [exact H100|now vm_compute|].
      rewrite En. apply (Hr 0.50%Q); reflexivity || discriminate.
    + apply (rank_in_samples_1_100 l 95 96); [exact H100|now vm_compute|].
      rewrite En. apply (Hr 0.95%Q); reflexivity || discriminate.
    + apply (rank_in_samples_1_100 l 99 100); [exact H100|now vm_compute|].
      rewrite En. apply (Hr 0.99%Q); reflexivity || discriminate.
Qed.

Lemma get_metrics_nearest_rank_witness :
  let c := {| output_file := "metrics_pg.jsonl"; jobs_processed := 3;
              latencies := [inject_Z 30; inject_Z 10; inject_Z 20];
              start_time := 0 |} in
  latencies c <> [] /\ ~ (1 == start_time c)%Q /\
  exists m,
    get_metrics 1 c = Ok (Some m) /\
    has_rank (latencies c) (nearest_rank_index 0.50 (len (latencies c)))
             (latency_p50 m) /\
    (latency_avg m == mean (latencies c))%Q.
Proof.
  intros c.
  assert (H1 : latencies c <> []) by discriminate.
  assert (H2 : ~ (1 == start_time c)%Q) by discriminate.
  split; [exact H1|]. split; [exact H2|].
  destruct (get_metrics_nearest_rank 1 c H1 H2)
    as [m [Hm [_ [_ [[Hr _] [_ [_ [Ha _]]]]]]]].
  exists m. split; [exact Hm|]. split; [exact Hr|exact Ha].
Defined.

(** The run of the specification's example, as recorded in order. *)
Example get_metrics_1_to_100 :
  match get_metrics 1 {| output_file := "metrics_pg.jsonl";
                         jobs_processed := 100;
                         latencies := samples_1_100;
                         start_time := 0 |} with
  | Ok (Some m) =>
    (latency_p50 m, latency_p95 m, latency_p99 m, latency_min m, latency_max m)
    = (inject_Z 51, inject_Z 96, inject_Z 100, inject_Z 1, inject_Z 100)
    /\ Qred (latency_avg m) = (101 # 2)%Q
  | _ => False
  end.
Proof. vm_compute. split; reflexivity. Qed.

(** C10: a collector without samples yields [None] from [get_metrics]
    and leaves the output file as it is on [save_metrics]; whenever
    [save_metrics] changes the file, the collector holds at least one
    sample, and exactly one line was appended. *)
Theorem no_samples_no_metrics_line (now : Q) (c : t) (f : file) :
  (latencies c = [] ->
     get_metrics now c = Ok None /\ save_metrics now c f = Ok f) /\
  (forall f', save_metrics now c f = Ok f' -> f' <> f ->
     latencies c <> [] /\
     exists m, get_metrics now c = Ok (Some m) /\ f' = f ++ [m]).
Proof.
  split.
  - intros E. unfold save_metrics, get_metrics. rewrite E. now split.
  - intros f' Hs Hne. unfold save_metrics in Hs.
    destruct (get_metrics now c) as [[m|]|e] eqn:Eg; try discriminate.
    + injection Hs as <-. split; [|now exists m].
      intros E. unfold get_metrics in Eg. rewrite E in Eg. discriminate.
    + injection Hs as <-. contradiction.
Qed.

Lemma no_samples_no_metrics_line_witness :
  let c := init "metrics_valkey.jsonl" 0 in
  latencies c = [] /\
  get_metrics 5 c = Ok None /\ save_metrics 5 c [] = Ok [].
Proof.
  intros c. split; [reflexivity|].
  apply (proj1 (no_samples_no_metrics_line 5 c [])). reflexivity.
Defined.

End Metrics.

(* ------------------------------------------------------------------ *)
(** ** The collector's counter, its samples and its lock *)

Section CollectorInvariant.

Import MetricsCollector.

Lemma len_nonneg {A : Type} (l : list A) : 0 <= len l.
Proof. unfold len. lia. Qed.

Lemma len_app {A : Type} (l l' : list A) : len (l ++ l') = len l + len l'.
Proof. unfold len. rewrite length_app. lia. Qed.

(** The counter and the samples after one call. *)
Lemma do_call_counts (k : call) (c : t) :
  jobs_processed (do_call k c) = jobs_processed c + len (samples_of k) /\
  latencies (do_call k c) = latencies c ++ samples_of k.
Proof. destruct k; split; reflexivity. Qed.

Lemma do_calls_balanced (ks : list call) (c : t) :
  jobs_processed c = len (latencies c) ->
  jobs_processed (do_calls ks c) = len (latencies (do_calls ks c)).
Proof.
  revert c. induction ks as [|k ks IH]; intros c Hc; [exact Hc|].
  apply IH. destruct (do_call_counts k c) as [-> ->].
  rewrite len_app. lia.
Qed.

Lemma do_calls_snoc (ks : list call) (k : call) (c : t) :
  do_calls (ks ++ [k]) c = do_call k (do_calls ks c).
Proof. unfold do_calls. now rewrite fold_left_app. Qed.

Lemma set_pc_same (th : nat) (p : pc) (f : nat -> pc) : set_pc th p f th = p.
Proof. unfold set_pc. now rewrite Nat.eqb_refl. Qed.

Lemma set_pc_other (th th' : nat) (p : pc) (f : nat -> pc) :
  th' <> th -> set_pc th p f th' = f th'.
Proof. intros H. unfold set_pc. now destruct (Nat.eqb_spec th' th). Qed.

(** In a consistent system the thread inside the body holds the lock. *)
Lemma body_holds_lock (s : sys) (th : nat) :
  consistent s -> ~ outside_body (pcs s th) -> lock s = Some th.
Proof.
  unfold consistent. intros Hc Hb. destruct (lock s) as [h|].
  - destruct (Nat.eq_dec th h) as [->|Hne]; [reflexivity|].
    exfalso. apply Hb. now apply Hc.
  - exfalso. apply Hb. apply Hc.
Qed.

Lemma step_consistent (e : event) (s s' : sys) :
  consistent s -> step e s = Some s' -> consistent s'.
Proof.
  intros Hc Hs. destruct e as [th k|th]; simpl in Hs.
  - (* a call is made: the thread starts waiting for the lock *)
    destruct (pcs s th) eqn:Epc; try discriminate.
    injection Hs as <-. unfold consistent in *. simpl.
    destruct (lock s) as [h|].
    + destruct Hc as [Hothers Hh]. split.
      * intros th' Hne. destruct (Nat.eq_dec th' th) as [->|Hne'].
        -- now rewrite set_pc_same.
        -- rewrite set_pc_other by assumption. now apply Hothers.
      * destruct (Nat.eq_dec h th) as [->|Hne].
        -- now rewrite Epc in Hh.
        -- now rewrite set_pc_other by assumption.
    + destruct Hc as [Hbal Hall]. split; [exact Hbal|].
      intros th'. destruct (Nat.eq_dec th' th) as [->|Hne'].
      * now rewrite set_pc_same.
      * rewrite set_pc_other by assumption. apply Hall.
  - destruct (pcs s th) as [|l|l|l|] eqn:Epc; try discriminate.
    + (* the lock is acquired *)
      destruct (lock s) as [h|] eqn:El; [discriminate|].
      injection Hs as <-. unfold consistent in *. rewrite El in Hc. simpl.
      destruct Hc as [Hbal Hall]. split.
      * intros th' Hne. rewrite set_pc_other by assumption. apply Hall.
      * now rewrite set_pc_same.
    + (* the counter is updated *)
      pose proof (body_holds_lock s th Hc) as Hl.
      rewrite Epc in Hl. specialize (Hl (fun x => x)).
      injection Hs as <-. unfold consistent in *. rewrite Hl in *. simpl.
      destruct Hc as [Hothers Hh]. rewrite Epc in Hh. split.
      * intros th' Hne. rewrite set_pc_other by assumption. now apply Hothers.
      * rewrite set_pc_same. lia.
    + (* the samples are stored *)
      pose proof (body_holds_lock s th Hc) as Hl.
      rewrite Epc in Hl. specialize (Hl (fun x => x)).
      injection Hs as <-. unfold consistent in *. rewrite Hl in *. simpl.
      destruct Hc as [Hothers Hh]. rewrite Epc in Hh. split.
      * intros th' Hne. rewrite set_pc_other by assumption. now apply Hothers.
      * rewrite set_pc_same, len_app. lia.
    + (* the lock is released *)
      pose proof (body_holds_lock s th Hc) as Hl.
      rewrite Epc in Hl. specialize (Hl (fun x => x)).
      injection Hs as <-. unfold consistent in *. rewrite Hl in *. simpl.
      destruct Hc as [Hothers Hh]. rewrite Epc in Hh. split; [exact Hh|].
      intros th'. destruct (Nat.eq_dec th' th) as [->|Hne'].
      * now rewrite set_pc_same.
      * rewrite set_pc_other by assumption. now apply Hothers.
Qed.

Lemma fresh_consistent (output_file : string) (now : Q) :
  consistent (fresh output_file now).
Proof. split; [reflexivity|intros th; exact I]. Qed.

Lemma exec_snoc (es : list event) (e : event) (s : sys) :
  exec (es ++ [e]) s =
    match step e (exec es s) with Some s' => s' | None => exec es s end.
Proof. unfold exec. now rewrite fold_left_app. Qed.

Lemma exec_consistent (es : list event) (s : sys) :
  consistent s -> consistent (exec es s).
Proof.
  revert s. induction es as [|e es IH]; intros s Hc; [exact Hc|].
  simpl. apply IH. destruct (step e s) eqn:E; [|exact Hc].
  eapply step_consistent; eassumption.
Qed.

(** A statement changes the collector only when executed by the thread
    that holds the lock, and never lowers the counter. *)
Lemma step_under_lock (e : event) (s s' : sys) :
  consistent s -> step e s = Some s' ->
  jobs_processed (coll s) <= jobs_processed (coll s') /\
  (coll s' <> coll s -> lock s = Some (actor e) /\ lock s' = Some (actor e)).
Proof.
  intros Hc Hs. destruct e as [th k|th]; simpl in Hs |- *.
  - destruct (pcs s th); try discriminate. injection Hs as <-. simpl.
    split; [lia|]. intros H. now contradiction H.
  - pose proof (body_holds_lock s th Hc) as Hl.
    destruct (pcs s th) as [|l|l|l|] eqn:Epc; try discriminate.
    + destruct (lock s); [discriminate|]. injection Hs as <-. simpl.
      split; [lia|]. intros H. now contradiction H.
    + specialize (Hl (fun x => x)). injection Hs as <-. simpl.
      pose proof (len_nonneg l). split; [lia|]. intros _. now split.
    + specialize (Hl (fun x => x)). injection Hs as <-. simpl.
      split; [lia|]. intros _. now split.
    + injection Hs as <-. simpl. split; [lia|]. intros H. now contradiction H.
Qed.

(** The four statements of a record call, run by a thread that finds the
    lock free, amount to the call's body executed at once. *)
Lemma exec_cons (e : event) (es : list event) (s : sys) :
  exec (e :: es) s =
    exec es (match step e s with Some s' => s' | None => s end).
Proof. reflexivity. Qed.

Lemma record_call_atomic (s : sys) (th : nat) (k : call) :
  lock s = None -> pcs s th = Outside ->
  let s' := exec [Invoke th k; Step th; Step th; Step th; Step th] s in
  coll s' = do_call k (coll s) /\ lock s' = None /\ pcs s' th = Outside.
Proof.
  intros Hl Hp s'.
  assert (E : exists p, s' = {| coll := do_call k (coll s); lock := None;
                                pcs := set_pc th Outside p |}).
  { eexists. unfold s'.
    rewrite exec_cons. unfold step at 1. rewrite Hp.
    rewrite exec_cons. unfold step at 1. cbn [pcs lock coll].
    rewrite set_pc_same, Hl.
    rewrite exec_cons. unfold step at 1. cbn [pcs lock coll].
    rewrite set_pc_same.
    rewrite exec_cons. unfold step at 1. cbn [pcs lock coll].
    rewrite set_pc_same.
    rewrite exec_cons. unfold step at 1. cbn [pcs lock coll].
    rewrite set_pc_same.
    unfold exec. cbn [fold_left pcs lock coll
                      output_file jobs_processed latencies start_time].
    destruct k; reflexivity. }
  destruct E as [p ->]. cbn [coll lock pcs].
  rewrite set_pc_same. repeat split.
Qed.

(** C3: starting from a new collector, after any sequence of
    [record_job] and [record_jobs] calls [jobs_processed] equals the
    number of stored samples and no call lowers it; and when threads
    execute these calls statement by statement under the lock, the
    equality holds whenever the lock is free, no statement lowers the
    counter, and the counter or the samples change only in a statement
    of the thread that holds the lock before and after it. *)
Theorem count_equals_samples (output_file : string) (now : Q) :
  (forall ks,
     let c := do_calls ks (init output_file now) in
     jobs_processed c = len (latencies c)) /\
  (forall ks k,
     jobs_processed (do_calls ks (init output_file now))
     <= jobs_processed (do_calls (ks ++ [k]) (init output_file now))) /\
  (forall es,
     let s := exec es (fresh output_file now) in
     (lock s = None -> jobs_processed (coll s) = len (latencies (coll s))) /\
     (forall e s', step e s = Some s' ->
        jobs_processed (coll s) <= jobs_processed (coll s') /\
        (coll s' <> coll s ->
           lock s = Some (actor e) /\ lock s' = Some (actor e)))).
Proof.
  split; [|split].
  - intros ks. apply do_calls_balanced. reflexivity.
  - intros ks k. rewrite do_calls_snoc.
    destruct (do_call_counts k (do_calls ks (init output_file now))) as [-> _].
    pose proof (len_nonneg (samples_of k)). lia.
  - intros es s.
    assert (Hc : consistent s) by apply exec_consistent, fresh_consistent.
    split.
    + intros Hl. unfold consistent in Hc. rewrite Hl in Hc. apply Hc.
    + intros e s' Hs. now apply step_under_lock.
Qed.

End CollectorInvariant.

(* ------------------------------------------------------------------ *)
(** ** The producer *)

Section ProducerRun.

Import Producer.

Lemma same_but_random_refl (s : t) : same_but_random s s.
Proof. repeat split. Qed.

Lemma same_but_random_trans (s1 s2 s3 : t) :
  same_but_random s1 s2 -> same_but_random s2 s3 -> same_but_random s1 s3.
Proof.
  unfold same_but_random. intros H1 H2.
  decompose [and] H1. decompose [and] H2. repeat split; congruence.
Qed.

Lemma randint_frame (a b : Z) (s : t) :
  same_but_random s (snd (randint a b s)).
Proof. unfold randint. destruct (random s); repeat split. Qed.

Lemma make_jobs_frame (n : nat) (jobs : list job) (s : t) :
  same_but_random s (snd (make_jobs n jobs s)).
Proof.
  revert jobs s. induction n as [|n IH]; intros jobs s; simpl.
  - apply same_but_random_refl.
  - pose proof (randint_frame 0 10 s) as H1.
    destruct (randint 0 10 s) as [priority s1]. simpl in H1.
    destruct (queue_type s1).
    + eapply same_but_random_trans; [exact H1|apply IH].
    + eapply same_but_random_trans; [exact H1|apply IH].
    + pose proof (randint_frame 0 15 s1) as H2.
      destruct (randint 0 15 s1) as [pk s2]. simpl in H2.
      eapply same_but_random_trans; [exact H1|].
      eapply same_but_random_trans; [exact H2|apply IH].
Qed.

Lemma draw_priorities_frame (n : nat) (s : t) :
  same_but_random s (draw_priorities n s).
Proof.
  revert s. induction n as [|n IH]; intros s; simpl.
  - apply same_but_random_refl.
  - eapply same_but_random_trans; [apply randint_frame|apply IH].
Qed.

Lemma no_fault_cases (fs : list (option exn)) :
  Forall (fun f => f = None) fs ->
  fs = [] \/ exists fs', fs = None :: fs' /\ Forall (fun f => f = None) fs'.
Proof.
  intros H. destruct H as [|f fs Hf Hfs]; [now left|].
  right. exists fs. now subst.
Qed.

Lemma pg_issue_ok (c : connection) :
  Forall (fun f => f = None) (pg_faults c) ->
  exists c', pg_issue c = (None, c') /\
             table c' = table c /\ in_transaction c' = in_transaction c /\
             Forall (fun f => f = None) (pg_faults c').
Proof.
  intros H. unfold pg_issue.
  destruct (no_fault_cases _ H) as [E|[fs [E Hfs]]]; rewrite E.
  - exists c. rewrite E. repeat split; constructor.
  - eexists. repeat split. exact Hfs.
Qed.

Lemma produce_pg_batch_ok (batch_size : Z) (s : t) :
  writes_succeed s ->
  fst (produce_pg_batch batch_size s) = Ok batch_size /\
  batch_written batch_size s (snd (produce_pg_batch batch_size s)).
Proof.
  intros [Hpg Hvk]. unfold produce_pg_batch, cursor.
  destruct (pg_issue_ok _ Hpg) as (c0 & -> & _ & _ & H0).
  pose proof (make_jobs_frame (Z.to_nat batch_size) [] (set_conn c0 s)) as Hf.
  destruct (make_jobs (Z.to_nat batch_size) [] (set_conn c0 s)) as [jobs s1].
  simpl in Hf.
  destruct Hf as (Hb & _ & Hr & _ & Ht & Hj & _ & Hc & Hv & _).
  cbn [conn set_conn backend rate total_jobs jobs_produced valkey] in *.
  unfold execute_values.
  rewrite <- Hc in H0. destruct (pg_issue_ok _ H0) as (c1 & -> & _ & _ & H1).
  unfold commit. cbn [pg_faults].
  match goal with |- context [pg_issue ?c] =>
    destruct (pg_issue_ok c H1) as (c2 & -> & _ & _ & H2) end.
  simpl. split; [reflexivity|].
  repeat split; simpl; congruence.
Qed.

Lemma produce_valkey_batch_ok (batch_size : Z) (s : t) :
  writes_succeed s ->
  fst (produce_valkey_batch batch_size s) = batch_size /\
  batch_written batch_size s (snd (produce_valkey_batch batch_size s)).
Proof.
  intros [Hpg Hvk]. unfold produce_valkey_batch.
  pose proof (draw_priorities_frame (Z.to_nat batch_size) s) as Hf.
  destruct Hf as (Hb & _ & Hr & _ & Ht & Hj & _ & Hc & Hv & _).
  set (s1 := draw_priorities (Z.to_nat batch_size) s) in *.
  unfold Valkey.xadd_pipeline, Valkey.issue. rewrite Hv.
  destruct (no_fault_cases _ Hvk) as [E|[fs [E Hfs]]]; rewrite E; simpl.
  - split; [reflexivity|].
    repeat split; simpl; try congruence; try constructor.
  - split; [reflexivity|].
    repeat split; simpl; try congruence; try assumption.
Qed.

Lemma iteration_ok (batch_size : Z) (interval start next : Q) (s : t) :
  writes_succeed s ->
  exists next',
    fst (iteration batch_size interval start next s) = Ok next' /\
    batch_written batch_size s (snd (iteration batch_size interval start next s)).
Proof.
  intros Hw. unfold iteration.
  assert (Hp : let r := match backend s with
                        | Pg => produce_pg_batch batch_size s
                        | ValkeyStreams =>
                          let (n, s') := produce_valkey_batch batch_size s in
                          (Ok n, s')
                        end in
               fst r = Ok batch_size /\ batch_written batch_size s (snd r)).
  { destruct (backend s); cbv zeta.
    - apply produce_pg_batch_ok; exact Hw.
    - pose proof (produce_valkey_batch_ok batch_size s Hw) as H.
      destruct (produce_valkey_batch batch_size s) as [n s'].
      cbn [fst snd] in *. destruct H as [-> H]. now split. }
  destruct (match backend s with
            | Pg => produce_pg_batch batch_size s
            | ValkeyStreams =>
              let (n, s') := produce_valkey_batch batch_size s in (Ok n, s')
            end) as [produced s1].
  cbv zeta in Hp. cbn [fst snd] in Hp. destruct Hp as (-> & Hj & Hw1 & Hb & Hr & Ht).
  eexists. split; [reflexivity|].
  destruct (Qlt_bool 0 (Qred (Qred (next + interval) - clock s1)));
    match goal with |- context [if ?b then _ else _] => destruct b end;
    simpl; repeat split; simpl; try assumption; apply Hw1.
Qed.

(** With writes that succeed the loop ends within as many turns as
    there are batches missing, on the first multiple of the batch size
    that reaches the total. *)
Lemma run_loop_ends (batch_size : Z) (interval start : Q) :
  1 <= batch_size ->
  forall (fuel k : nat) (next : Q) (s : t),
    writes_succeed s -> (k <= fuel)%nat ->
    total_jobs s - jobs_produced s <= Z.of_nat k * batch_size ->
    exists s',
      run_loop fuel batch_size interval start next s = Some (None, s') /\
      (total_jobs s <= jobs_produced s -> s' = s) /\
      total_jobs s <= jobs_produced s' /\
      (jobs_produced s < total_jobs s ->
         jobs_produced s' < total_jobs s + batch_size) /\
      exists m, jobs_produced s' = jobs_produced s + Z.of_nat m * batch_size.
Proof.
  intros Hbs. induction fuel as [|fuel IH]; intros k next s Hw Hk Hleft.
  - assert (k = 0%nat) by lia. subst k. simpl in *.
    destruct (Z.ltb_spec (jobs_produced s) (total_jobs s)); [lia|].
    exists s. repeat split; try lia. exists 0%nat. lia.
  - simpl. destruct (Z.ltb_spec (jobs_produced s) (total_jobs s)) as [Hlt|Hge].
    + destruct (iteration_ok batch_size interval start next s Hw)
        as (next1 & Hn & Hi).
      destruct (iteration batch_size interval start next s) as [r1 s1].
      simpl in Hn, Hi. subst r1. destruct Hi as (Hj & Hw1 & _ & _ & Ht).
      destruct k as [|k]; [simpl in Hleft; lia|].
      destruct (IH k next1 s1 Hw1 ltac:(lia) ltac:(lia))
        as (s' & Hrun & Hsame & Hreach & Hbound & m & Hm).
      exists s'. split; [exact Hrun|].
      split; [lia|]. split; [lia|]. split.
      * intros _. destruct (Z_lt_ge_dec (jobs_produced s1) (total_jobs s1)).
        -- lia.
        -- rewrite Hsame by lia. lia.
      * exists (S m). lia.
    + exists s. repeat split; try lia. exists 0%nat. lia.
Qed.

End ProducerRun.

(* ------------------------------------------------------------------ *)
(** ** What a producer run delivers *)

Section ProducerTotals.

Import Producer.

(** The first multiple of [b] that reaches [t]. *)
Lemma ceil_div_bounds (t b : Z) :
  1 <= b -> t <= b * ceil_div t b < t + b.
Proof.
  intros Hb. unfold ceil_div.
  pose proof (Z.div_mod (t + b - 1) b ltac:(lia)) as E.
  pose proof (Z.mod_pos_bound (t + b - 1) b ltac:(lia)) as Hr.
  lia.
Qed.

Lemma multiple_in_window (t b x y : Z) :
  1 <= b -> t <= b * x < t + b -> t <= b * y < t + b -> x = y.
Proof. intros Hb Hx Hy. nia. Qed.

(** C4 as stated fails: at 350 jobs per second for one second, with
    every write succeeding, batches of 3 are written until 351 jobs
    have been produced. *)
Lemma producer_overshoots :
  let s0 := init Pg SkipLocked 350 1 empty_connection empty_server 0 [] in
  1 <= rate s0 /\ 1 <= duration s0 /\ writes_succeed s0 /\
  batch_size_of (rate s0) = 3 /\
  exists s, run 200 s0 = Finished s /\
            jobs_produced s = 351 /\
            jobs_produced s <> rate s0 * duration s0.
Proof.
  intros s0. split; [simpl; lia|]. split; [simpl; lia|].
  split; [split; constructor|]. split; [reflexivity|].
  eexists. split; [vm_compute; reflexivity|].
  split; [reflexivity|]. simpl. lia.
Qed.

Lemma init_fields (b : backend_t) (q : queue_type_t) (rate_ duration_ : Z)
      (c : connection) (v : Valkey.server) (now : Q) (draws : list Z) :
  let s0 := init b q rate_ duration_ c v now draws in
  rate s0 = rate_ /\ duration s0 = duration_ /\
  total_jobs s0 = rate_ * duration_ /\ jobs_produced s0 = 0.
Proof.
  unfold init. destruct b; [repeat split|].
  destruct (Valkey.xgroup_create v) as [[u|e] v1].
  - repeat split.
  - destruct (negb (contains "BUSYGROUP" (exn_msg e))); repeat split.
Qed.

(** A run that starts with nothing produced and whose writes succeed. *)
Lemma run_total_from (s0 : t) (fuel : nat) :
  let bs := batch_size_of (rate s0) in
  1 <= rate s0 -> 1 <= total_jobs s0 -> jobs_produced s0 = 0 ->
  writes_succeed s0 ->
  (Z.to_nat (ceil_div (total_jobs s0) bs) <= fuel)%nat ->
  exists s,
    run fuel s0 = Finished s /\
    jobs_produced s = bs * ceil_div (total_jobs s0) bs /\
    total_jobs s0 <= jobs_produced s < total_jobs s0 + bs /\
    (jobs_produced s = total_jobs s0 <-> total_jobs s0 mod bs = 0).
Proof.
  intros bs Hr Htot Hj0 Hw Hfuel.
  assert (Hbs : 1 <= bs) by (unfold bs, batch_size_of; lia).
  pose proof (ceil_div_bounds (total_jobs s0) bs Hbs) as Hc.
  unfold run. cbn [rate print set_start_time].
  destruct (Z.eqb_spec (rate s0) 0) as [|_]; [lia|].
  fold bs.
  match goal with |- context [run_loop fuel bs ?i ?st ?nx ?s1] =>
    destruct (run_loop_ends bs i st Hbs fuel
                (Z.to_nat (ceil_div (total_jobs s0) bs)) nx s1)
      as (s' & Hrun & _ & Hreach & Hbound & m & Hm);
    [ exact Hw | exact Hfuel
    | cbn [total_jobs jobs_produced print set_start_time]; rewrite Hj0; nia
    | rewrite Hrun ]
  end.
  cbn [total_jobs jobs_produced print set_start_time] in Hreach, Hbound, Hm.
  rewrite Hj0 in Hbound, Hm. specialize (Hbound ltac:(lia)).
  eexists. split; [reflexivity|]. cbn [jobs_produced print].
  assert (Em : Z.of_nat m = ceil_div (total_jobs s0) bs).
  { apply (multiple_in_window (total_jobs s0) bs); lia. }
  split; [lia|]. split; [lia|]. split.
  - intros E. rewrite <- E, Hm. apply Z.mod_mul. lia.
  - intros E. apply Z.mod_divide in E; [|lia]. destruct E as [t Et].
    assert (Z.of_nat m = t)
      by (apply (multiple_in_window (total_jobs s0) bs); lia).
    lia.
Qed.

(** C4 (amended): for every rate >= 1 and duration >= 1, a run in which
    every batch write succeeds terminates, and its [jobs_produced] is
    the first multiple of the batch size [max(1, rate // 100)] that
    reaches [rate * duration]: at least the total, less than one batch
    above it, and equal to it exactly when the batch size divides the
    total. *)
Theorem producer_run_total
    (b : backend_t) (q : queue_type_t) (rate_ duration_ : Z)
    (c : connection) (v : Valkey.server) (now : Q) (draws : list Z)
    (fuel : nat) :
  let s0 := init b q rate_ duration_ c v now draws in
  let bs := batch_size_of rate_ in
  let total := rate_ * duration_ in
  1 <= rate_ -> 1 <= duration_ -> writes_succeed s0 ->
  (Z.to_nat (ceil_div total bs) <= fuel)%nat ->
  exists s,
    run fuel s0 = Finished s /\
    jobs_produced s = bs * ceil_div total bs /\
    total <= jobs_produced s < total + bs /\
    (jobs_produced s = total <-> total mod bs = 0).
Proof.
  intros s0 bs total Hr Hd Hw Hfuel.
  destruct (init_fields b q rate_ duration_ c v now draws)
    as (Er & _ & Et & Ej).
  fold s0 in Er, Et, Ej.
  pose proof (run_total_from s0 fuel) as H. cbv zeta in H.
  rewrite Er, Et in H. apply H; try assumption; try lia.
Qed.

Lemma producer_run_total_witness :
  exists s,
    run 300 (init ValkeyStreams SkipLocked 250 2 empty_connection
                  empty_server 0 [4; 7]) = Finished s /\
    jobs_produced s = batch_size_of 250 * ceil_div (250 * 2) (batch_size_of 250) /\
    250 * 2 <= jobs_produced s < 250 * 2 + batch_size_of 250 /\
    (jobs_produced s = 250 * 2 <-> (250 * 2) mod batch_size_of 250 = 0).
Proof.
  apply (producer_run_total ValkeyStreams SkipLocked 250 2 empty_connection
           empty_server 0 [4; 7] 300).
  - lia.
  - lia.
  - split; constructor.
  - apply Nat.leb_le. vm_compute. reflexivity.
Defined.

End ProducerTotals.

(* ------------------------------------------------------------------ *)
(** ** A PostgreSQL batch that fails *)

Section ProducerFailure.

Import Producer.

(** C5 as stated fails when the connection is lost: the insert raises,
    the [rollback] of the handler raises in its turn, and that exception
    leaves [produce_pg_batch], which returns nothing and prints nothing,
    and then [run], which has no handler for it. *)
Lemma lost_connection_aborts_run :
  let lost := Exn "server closed the connection unexpectedly" in
  let closed := Exn "connection already closed" in
  let c := {| table := [{| partition_key := None; payload_id := 0; priority := 3 |}];
              in_transaction := [];
              pg_faults := [None; Some lost; Some closed] |} in
  let s := init Pg SkipLocked 200 1 c empty_server 0 [1; 2] in
  insert_raises lost [Some closed] s /\
  fst (produce_pg_batch 2 s) = Raise closed /\
  fst (produce_pg_batch 2 s) <> Ok 0 /\
  stdout (snd (produce_pg_batch 2 s)) = stdout s /\
  exists s', run 100 s = Crashed closed s' /\ jobs_produced s' = 0.
Proof.
  intros lost closed c s.
  split; [left; reflexivity|]. split; [reflexivity|].
  split; [discriminate|]. split; [reflexivity|].
  eexists. split; [vm_compute; reflexivity|reflexivity].
Qed.

Lemma produce_pg_batch_fails (batch_size : Z) (e : exn)
      (rest : list (option exn)) (s : t) :
  insert_raises e rest s -> next_fault rest = None ->
  let r := produce_pg_batch batch_size s in
  fst r = Ok 0 /\
  jobs_produced (snd r) = jobs_produced s /\
  total_jobs (snd r) = total_jobs s /\
  table (conn (snd r)) = table (conn s) /\
  in_transaction (conn (snd r)) = [] /\
  stdout (snd r) = stdout s ++ [ErrorProducingBatch e].
Proof.
  intros Hf Hr. cbv zeta.
  assert (E0 : exists fs, pg_faults (conn s) = None :: fs /\
                          (fs = Some e :: rest \/ fs = None :: Some e :: rest)).
  { destruct Hf as [E|E]; rewrite E; eauto. }
  destruct E0 as (fs & E0 & Hfs).
  destruct (produce_pg_batch batch_size s) as [r s'] eqn:Ep. cbn [fst snd].
  unfold produce_pg_batch, cursor, pg_issue in Ep. rewrite E0 in Ep.
  match type of Ep with context [make_jobs ?n [] ?s0] =>
    pose proof (make_jobs_frame n [] s0) as Hs;
    destruct (make_jobs n [] s0) as [jobs s1]
  end.
  cbn [fst snd] in Hs.
  destruct Hs as (_ & _ & _ & _ & Ht & Hj & _ & Hc & _ & _ & Ho).
  cbn [conn set_conn total_jobs jobs_produced stdout] in Ht, Hj, Hc, Ho.
  unfold execute_values, commit, on_exception, rollback, pg_issue in Ep.
  rewrite Hc in Ep. cbn [pg_faults table in_transaction] in Ep.
  destruct Hfs as [->| ->]; cbn [pg_faults table in_transaction] in Ep;
    destruct rest as [|[e'|] rest']; try discriminate Hr;
    cbn [pg_faults table in_transaction] in Ep;
    injection Ep as <- <-;
    cbn [fst snd conn set_conn print jobs_produced total_jobs stdout table
         in_transaction];
    rewrite Ho; repeat split; assumption.
Qed.

(** C5 (amended): when the insert of a PostgreSQL batch raises, either
    in [execute_values] or in [commit], and the [rollback] of the
    handler does not raise, [produce_pg_batch] returns 0 with the
    transaction discarded as a whole (the table is as before and no row
    is left in the transaction), [jobs_produced] unchanged and the error
    printed; the turn of the loop in which this happens ends without an
    exception, with [jobs_produced] and the total unchanged, and hands
    over to the next turn. *)
Theorem failed_pg_batch_rolled_back
    (batch_size : Z) (e : exn) (rest : list (option exn)) (s : t) :
  insert_raises e rest s -> next_fault rest = None ->
  (let r := produce_pg_batch batch_size s in
   fst r = Ok 0 /\
   jobs_produced (snd r) = jobs_produced s /\
   table (conn (snd r)) = table (conn s) /\
   in_transaction (conn (snd r)) = [] /\
   stdout (snd r) = stdout s ++ [ErrorProducingBatch e]) /\
  (backend s = Pg ->
   forall interval start next,
     let r := iteration batch_size interval start next s in
     exists next',
       fst r = Ok next' /\
       jobs_produced (snd r) = jobs_produced s /\
       total_jobs (snd r) = total_jobs s /\
       In (ErrorProducingBatch e) (stdout (snd r)) /\
       (jobs_produced s < total_jobs s ->
        forall fuel,
          run_loop (S fuel) batch_size interval start next s =
          run_loop fuel batch_size interval start next' (snd r))).
Proof.
  intros Hf Hr.
  pose proof (produce_pg_batch_fails batch_size e rest s Hf Hr) as Hp.
  cbv zeta in Hp. destruct Hp as (H0 & Hj & Ht & Htab & Htx & Hout).
  split.
  - cbv zeta. repeat split; assumption.
  - intros Hb interval start next. cbv zeta.
    assert (Hi : exists next',
               fst (iteration batch_size interval start next s) = Ok next' /\
               jobs_produced (snd (iteration batch_size interval start next s))
                 = jobs_produced s /\
               total_jobs (snd (iteration batch_size interval start next s))
                 = total_jobs s /\
               In (ErrorProducingBatch e)
                  (stdout (snd (iteration batch_size interval start next s)))).
    { unfold iteration. rewrite Hb.
      destruct (produce_pg_batch batch_size s) as [produced s1].
      cbn [fst snd] in *. subst produced.
      eexists. split; [reflexivity|].
      repeat match goal with |- context [if ?b then _ else _] =>
               destruct b end;
        cbn [fst snd jobs_produced total_jobs stdout print set_clock sleep];
        (split; [assumption|]); (split; [assumption|]);
        rewrite ?in_app_iff, Hout, in_app_iff; simpl; tauto. }
    destruct Hi as (next' & Hn & Hj' & Ht' & Hin).
    exists next'. split; [exact Hn|]. split; [exact Hj'|].
    split; [exact Ht'|]. split; [exact Hin|].
    intros Hlt fuel. cbn [run_loop].
    destruct (Z.ltb_spec (jobs_produced s) (total_jobs s)); [|lia].
    destruct (iteration batch_size interval start next s) as [r1 s1].
    cbn [fst snd] in *. now subst r1.
Qed.

Lemma failed_pg_batch_rolled_back_witness :
  let boom := Exn "deadlock detected" in
  let c := {| table := [{| partition_key := None; payload_id := 0; priority := 3 |}];
              in_transaction := [];
              pg_faults := [None; None; Some boom] |} in
  let s := init Pg SkipLocked 200 1 c empty_server 0 [1; 2] in
  insert_raises boom [] s /\
  fst (produce_pg_batch 2 s) = Ok 0 /\
  jobs_produced (snd (produce_pg_batch 2 s)) = jobs_produced s /\
  table (conn (snd (produce_pg_batch 2 s))) = table (conn s) /\
  in_transaction (conn (snd (produce_pg_batch 2 s))) = [] /\
  stdout (snd (produce_pg_batch 2 s)) = stdout s ++ [ErrorProducingBatch boom].
Proof.
  intros boom c s.
  assert (H : insert_raises boom [] s) by (right; reflexivity).
  split; [exact H|].
  exact (proj1 (failed_pg_batch_rolled_back 2 boom [] s H eq_refl)).
Defined.

End ProducerFailure.

(* ------------------------------------------------------------------ *)
(** ** The processing loop of the Valkey worker *)

(** Projections of a worker state after the setters. *)
Ltac wsimpl :=
  cbn [ValkeyWorker.worker_id ValkeyWorker.jobs_processed
       ValkeyWorker.batch_size ValkeyWorker.poll_interval
       ValkeyWorker.metrics ValkeyWorker.valkey ValkeyWorker.clock
       ValkeyWorker.stdout ValkeyWorker.set_jobs_processed
       ValkeyWorker.print ValkeyWorker.set_valkey ValkeyWorker.set_clock
       ValkeyWorker.set_metrics ValkeyWorker.ids_to_ack
       ValkeyWorker.batch_latencies fst snd] in *.

Section ValkeyBatch.

Import ValkeyWorker.

Lemma Qred_le_add (x d : Q) : (0 <= d)%Q -> (x <= Qred (x + d))%Q.
Proof.
  intros H. rewrite Qred_correct.
  rewrite <- (Qplus_0_r x) at 1. now apply Qplus_le_r.
Qed.

Lemma simulate_processing_frame (s : t) :
  let s' := simulate_processing s in
  jobs_processed s' = jobs_processed s /\ valkey s' = valkey s /\
  metrics s' = metrics s /\ stdout s' = stdout s /\ same_worker s s' /\
  (clock s <= clock s')%Q.
Proof.
  unfold simulate_processing, sleep, set_clock, same_worker.
  cbn [jobs_processed valkey metrics stdout worker_id batch_size
       poll_interval clock].
  repeat split. apply Qred_le_add. vm_compute. discriminate.
Qed.

(** [measure] either raises, at once or after the processing time, or
    lets the processing time pass. *)
Lemma measure_cases (m : Valkey.message) (s : t) :
  (exists e s1, thrown m = Some e /\ throws m = true /\
             measure m s = (Raise e, s1) /\
             (s1 = s \/ s1 = simulate_processing s)) \/
  (exists latency_ms, throws m = false /\
             measure m s = (Ok latency_ms, simulate_processing s)).
Proof.
  unfold measure, throws, thrown.
  destruct (Valkey.created_at m) as [|at_time| |e].
  - right. eexists. split; reflexivity.
  - right. eexists. split; reflexivity.
  - left. eexists _, _. repeat split. now right.
  - left. exists e, s. repeat split. now left.
Qed.

(** What an entry that throws leaves of the worker. *)
Lemma raised_frame (s s1 : t) :
  s1 = s \/ s1 = simulate_processing s ->
  jobs_processed s1 = jobs_processed s /\ valkey s1 = valkey s /\
  metrics s1 = metrics s /\ stdout s1 = stdout s /\ same_worker s s1 /\
  (clock s <= clock s1)%Q.
Proof.
  intros [->| ->]; [|apply simulate_processing_frame].
  unfold same_worker. repeat split. apply Qle_refl.
Qed.

Lemma process_stream_messages_effect (msgs : list Valkey.message) :
  forall (b : batch) (s : t),
    loop_effect msgs b (fst (process_stream_messages msgs b s))
                s (snd (process_stream_messages msgs b s)).
Proof.
  induction msgs as [|m rest IH]; intros b s.
  - unfold loop_effect, same_worker. cbn.
    rewrite !app_nil_r. repeat split; try lia; try apply Qle_refl.
    exists []. now rewrite app_nil_r.
  - cbn [process_stream_messages].
    destruct (measure_cases m s)
      as [(e & s1 & Ec & Ht & -> & Hs1)|(lat & Ht & ->)].
    + cbn [collect].
      destruct (raised_frame s s1 Hs1) as (Rj & Rv & Rm & Ro & Rw & Rc).
      match goal with |- context [process_stream_messages rest b ?s2] =>
        specialize (IH b s2);
        destruct (process_stream_messages rest b s2) as [b' s'] end.
      cbn [fst snd] in *. unfold loop_effect, processed, error_lines in *.
      cbn [filter flat_map]. rewrite Ht, Ec. cbn [negb].
      destruct IH as (Hi & Hl & Hj & Hv & Hm & Ho & Hw & Hc).
      destruct Rw as (Rw1 & Rw2 & Rw3). destruct Hw as (Hw1 & Hw2 & Hw3).
      wsimpl.
      split; [exact Hi|]. split; [exact Hl|].
      split; [congruence|]. split; [congruence|]. split; [congruence|].
      split; [rewrite Ho, Ro, Rw1, <- app_assoc; reflexivity|].
      split; [unfold same_worker; repeat split; congruence|].
      eapply Qle_trans; eassumption.
    + cbn [collect].
      pose proof (simulate_processing_frame s) as Hf. cbv zeta in Hf.
      destruct Hf as (Fj & Fv & Fm & Fo & Fw & Fc).
      match goal with |- context [process_stream_messages rest ?b1 ?s1] =>
        specialize (IH b1 s1);
        destruct (process_stream_messages rest b1 s1) as [b' s'] end.
      cbn [fst snd] in *. unfold loop_effect, processed, error_lines in *.
      cbn [filter flat_map]. rewrite Ht. cbn [negb].
      assert (Ec : match thrown m with
                   | Some e =>
                     [ErrorProcessingMessage (worker_id s) (Valkey.message_id m) e]
                   | None => []
                   end = []).
      { unfold throws in Ht. now destruct (thrown m). }
      rewrite Ec. cbn [app].
      destruct IH as (Hi & (new & Hl & Hn) & Hj & Hv & Hm & Ho & Hw & Hc).
      wsimpl.
      destruct Fw as (Fw1 & Fw2 & Fw3). destruct Hw as (Hw1 & Hw2 & Hw3).
      wsimpl.
      split; [rewrite Hi, <- app_assoc; reflexivity|].
      split; [exists (lat :: new); split;
              [rewrite Hl, <- app_assoc; reflexivity|cbn; now rewrite Hn]|].
      split; [rewrite Hj, Fj; unfold len; cbn [List.length]; lia|].
      split; [congruence|]. split; [congruence|].
      split; [rewrite Ho, Fo, Fw1; reflexivity|].
      split; [unfold same_worker; repeat split; congruence|].
      eapply Qle_trans; eassumption.
Qed.

Lemma processed_app (l l' : list Valkey.message) :
  processed (l ++ l') = processed l ++ processed l'.
Proof. apply filter_app. Qed.

Lemma error_lines_app (w : string) (l l' : list Valkey.message) :
  error_lines w (l ++ l') = error_lines w l ++ error_lines w l'.
Proof. apply flat_map_app. Qed.

Lemma process_reply_effect (messages : list (string * list Valkey.message)) :
  forall (b : batch) (s : t),
    loop_effect (reply_messages messages) b
                (fst (process_reply messages b s))
                s (snd (process_reply messages b s)).
Proof.
  induction messages as [|[name msgs] rest IH]; intros b s.
  - unfold loop_effect, same_worker. cbn.
    rewrite !app_nil_r. repeat split; try lia; try apply Qle_refl.
    exists []. now rewrite app_nil_r.
  - cbn [process_reply].
    pose proof (process_stream_messages_effect msgs b s) as H1.
    destruct (process_stream_messages msgs b s) as [b1 s1].
    specialize (IH b1 s1).
    destruct (process_reply rest b1 s1) as [b' s'].
    cbn [fst snd] in *. unfold reply_messages in *. cbn [flat_map snd].
    unfold loop_effect in *.
    rewrite processed_app, error_lines_app, map_app, length_app.
    destruct H1 as (Hi1 & (n1 & Hl1 & Hn1) & Hj1 & Hv1 & Hm1 & Ho1 & Hw1 & Hc1).
    destruct IH as (Hi & (n2 & Hl & Hn2) & Hj & Hv & Hm & Ho & Hw & Hc).
    destruct Hw1 as (A1 & A2 & A3). destruct Hw as (B1 & B2 & B3).
    split; [rewrite Hi, Hi1, <- app_assoc; reflexivity|].
    split; [exists (n1 ++ n2); split;
            [rewrite Hl, Hl1, <- app_assoc; reflexivity
            |rewrite length_app; congruence]|].
    split; [rewrite Hj, Hj1; unfold len; rewrite length_app; lia|].
    split; [congruence|]. split; [congruence|].
    split; [rewrite Ho, Ho1, A1, <- app_assoc; reflexivity|].
    split; [unfold same_worker; repeat split; congruence|].
    eapply Qle_trans; eassumption.
Qed.

End ValkeyBatch.

(* ------------------------------------------------------------------ *)
(** ** Replies and effects of the server calls *)

Section ValkeyServer.

Import Valkey.

Lemma mem_In (i : entry_id) (ids : list entry_id) :
  mem i ids = true <-> In i ids.
Proof.
  unfold mem. rewrite existsb_exists. split.
  - intros [x [Hx E]]. apply Z.eqb_eq in E. now subst.
  - intros H. exists i. split; [exact H|apply Z.eqb_refl].
Qed.

(** Issuing a call logs it and consumes one entry of the fault schedule. *)
Lemma issue_effect (c : command) (v : server) :
  let r := issue c v in
  stream (snd r) = stream v /\ group (snd r) = group v /\
  trace (snd r) = trace v ++ [c] /\
  faults (snd r) = tl (faults v) /\
  fst r = match faults v with [] => None | f :: _ => f end.
Proof. unfold issue. destruct (faults v); cbn; repeat split. Qed.

Lemma no_faults_tl (v v' : server) :
  no_faults v -> faults v' = tl (faults v) -> no_faults v'.
Proof.
  unfold no_faults. intros H E. rewrite E.
  destruct H; [constructor|assumption].
Qed.

Lemma no_faults_head (v : server) :
  no_faults v -> match faults v with [] => None | f :: _ => f end = None.
Proof. unfold no_faults. intros H. destruct H; [reflexivity|assumption]. Qed.

(** Every entry of a reply of [xreadgroup] is pending afterwards. *)
Lemma xreadgroup_delivers (consumername : string) (count block : Z) (now : Q)
      (v v' : server) (messages : list (string * list message)) :
  xreadgroup consumername count block now v = (Ok messages, v') ->
  forall m, In m (reply_messages messages) -> is_pending (message_id m) v'.
Proof.
  unfold xreadgroup. intros H m Hm.
  destruct (issue _ v) as [[e|] v1]; [discriminate|].
  destruct (group v1) as [g|]; [|discriminate].
  destruct (firstn _ _) as [|m0 msgs] eqn:E.
  - injection H as <- <-. contradiction.
  - injection H as <- <-. unfold reply_messages in Hm.
    cbn [flat_map snd] in Hm. rewrite app_nil_r in Hm.
    eexists. exists (deliver consumername now m). split; [reflexivity|].
    split; [|reflexivity]. cbn [pel].
    apply in_or_app. right.
    exact (in_map (deliver consumername now) (m0 :: msgs) m Hm).
Qed.

(** [xack] logs one command; whatever its outcome, an entry that is not
    listed stays pending. *)
Lemma xack_trace (ids : list entry_id) (v : server) :
  trace (snd (xack ids v)) = trace v ++ [XAck ids].
Proof.
  unfold xack. pose proof (issue_effect (XAck ids) v) as H. cbv zeta in H.
  destruct (issue (XAck ids) v) as [[e|] v1]; cbn [fst snd] in *.
  - apply H.
  - destruct (group v1); cbn; apply H.
Qed.

Lemma xack_keeps (ids : list entry_id) (v : server) (i : entry_id) :
  is_pending i v -> ~ In i ids -> is_pending i (snd (xack ids v)).
Proof.
  intros (g & p & Hg & Hp & Hi) Hn. unfold xack.
  pose proof (issue_effect (XAck ids) v) as H. cbv zeta in H.
  destruct (issue (XAck ids) v) as [[e|] v1]; cbn [fst snd] in *;
    destruct H as (_ & Hg1 & _).
  - exists g, p. repeat split; congruence.
  - rewrite Hg1, Hg. cbn. eexists. exists p. split; [reflexivity|].
    split; [|exact Hi]. cbn. apply filter_In. split; [exact Hp|].
    fold (pid p). rewrite Hi.
    destruct (mem i ids) eqn:E; [|reflexivity].
    apply mem_In in E. contradiction.
Qed.

(** An [xack] that does not raise removes the listed entries. *)
Lemma xack_removes (ids : list entry_id) (v : server) (i : entry_id) :
  match faults v with [] => None | f :: _ => f end = None ->
  In i ids -> ~ is_pending i (snd (xack ids v)).
Proof.
  intros Hf Hin. unfold xack.
  pose proof (issue_effect (XAck ids) v) as H. cbv zeta in H.
  destruct (issue (XAck ids) v) as [[e|] v1]; cbn [fst snd] in *;
    destruct H as (_ & Hg1 & _ & _ & Hfst).
  - congruence.
  - intros (g' & p & Hg' & Hp & Hi).
    destruct (group v1) as [g|] eqn:Eg; cbn in Hg'; [|congruence].
    injection Hg' as <-. cbn in Hp. apply filter_In in Hp.
    destruct Hp as [_ Hp]. fold (pid p) in Hp. rewrite Hi in Hp.
    apply mem_In in Hin. rewrite Hin in Hp. discriminate.
Qed.


Lemma xack_ok (ids : list entry_id) (v : server) :
  match faults v with [] => None | f :: _ => f end = None ->
  exists n, fst (xack ids v) = Ok n.
Proof.
  intros Hf. unfold xack.
  pose proof (issue_effect (XAck ids) v) as H. cbv zeta in H.
  destruct (issue (XAck ids) v) as [[e|] v1]; cbn [fst snd] in *.
  - destruct H as (_ & _ & _ & _ & Hfst). congruence.
  - destruct (group v1); cbn; eauto.
Qed.

End ValkeyServer.

(* ------------------------------------------------------------------ *)
(** ** [process_messages]: partial failures and failed acknowledgements *)

Section ProcessMessages.

Import ValkeyWorker.

Lemma xreadgroup_frame (s s1 : t) (r : result (list (string * list Valkey.message))) :
  xreadgroup s = (r, s1) ->
  jobs_processed s1 = jobs_processed s /\ metrics s1 = metrics s /\
  stdout s1 = stdout s /\ same_worker s s1.
Proof.
  unfold xreadgroup, same_worker.
  destruct (Valkey.xreadgroup _ _ _ _ _) as [r0 v].
  destruct r0 as [[|x l]|e]; intros H; injection H as <- <-;
    repeat split.
Qed.

(** The end of both [process_messages] and [claim_pending_messages]. *)
Lemma ack_and_record_effect (on_error : string -> exn -> line) (b : batch) (s : t) :
  let r := ack_and_record on_error b s in
  fst r = len (ids_to_ack b) /\
  jobs_processed (snd r) = jobs_processed s /\
  same_worker s (snd r) /\
  MetricsCollector.latencies (metrics (snd r)) =
    MetricsCollector.latencies (metrics s) ++ batch_latencies b /\
  MetricsCollector.jobs_processed (metrics (snd r)) =
    MetricsCollector.jobs_processed (metrics s) + len (batch_latencies b) /\
  valkey (snd r) =
    match ids_to_ack b with
    | [] => valkey s
    | _ :: _ => snd (Valkey.xack (ids_to_ack b) (valkey s))
    end /\
  stdout (snd r) =
    stdout s ++
    match ids_to_ack b with
    | [] => []
    | _ :: _ =>
      match fst (Valkey.xack (ids_to_ack b) (valkey s)) with
      | Raise e => [on_error (worker_id s) e]
      | Ok _ => []
      end
    end.
Proof.
  unfold ack_and_record, same_worker, xack. cbv zeta.
  destruct (ids_to_ack b) as [|i ids].
  - destruct (batch_latencies b) as [|x l]; wsimpl;
      rewrite ?app_nil_r; repeat split;
      unfold len; cbn [List.length MetricsCollector.record_jobs
                       MetricsCollector.latencies
                       MetricsCollector.jobs_processed]; lia.
  - destruct (Valkey.xack (i :: ids) (valkey s)) as [[n|e] v];
      destruct (batch_latencies b) as [|x l]; wsimpl;
      rewrite ?app_nil_r; repeat split;
      unfold len; cbn [List.length MetricsCollector.record_jobs
                       MetricsCollector.latencies
                       MetricsCollector.jobs_processed]; lia.
Qed.

Lemma processed_all (msgs : list Valkey.message) :
  forallb (fun m => negb (throws m)) msgs = true -> processed msgs = msgs.
Proof.
  unfold processed. induction msgs as [|m l IH]; [reflexivity|].
  cbn. intros H. apply andb_prop in H. destruct H as [-> H].
  now rewrite IH.
Qed.

Lemma processed_one_bad (pre post : list Valkey.message) (bad : Valkey.message) :
  throws bad = true ->
  forallb (fun m => negb (throws m)) (pre ++ post) = true ->
  processed (pre ++ bad :: post) = pre ++ post.
Proof.
  intros Hb Ho. rewrite processed_app.
  assert (E : processed (bad :: post) = processed post).
  { unfold processed. cbn [filter]. now rewrite Hb. }
  rewrite E, <- processed_app. now apply processed_all.
Qed.

(** [process_messages] on a reply that holds entries. *)
Lemma process_messages_on_reply (s s1 : t)
      (messages : list (string * list Valkey.message)) :
  xreadgroup s = (Ok messages, s1) -> messages <> [] ->
  process_messages s =
    ack_and_record ErrorAcknowledgingBatch
      (fst (process_reply messages empty_batch s1))
      (snd (process_reply messages empty_batch s1)).
Proof.
  intros Hx Hne. unfold process_messages. rewrite Hx.
  destruct messages as [|m ms]; [contradiction|].
  now destruct (process_reply (m :: ms) empty_batch s1).
Qed.

(** C6: when exactly one entry of a fetched batch throws, the call
    acknowledges the rest of the batch in a single [xack] that lists all
    the other entry IDs (and issues no [xack] when there is no other
    entry), the failed entry is in no acknowledge call and stays pending,
    and the others stop being pending when the [xack] does not raise. *)
Theorem one_failure_excluded_from_ack
    (s s1 : t) (name : string) (pre post : list Valkey.message)
    (bad : Valkey.message) :
  xreadgroup s = (Ok [(name, pre ++ bad :: post)], s1) ->
  throws bad = true ->
  forallb (fun m => negb (throws m)) (pre ++ post) = true ->
  ~ In (Valkey.message_id bad) (List.map Valkey.message_id (pre ++ post)) ->
  let r := process_messages s in
  let others := List.map Valkey.message_id (pre ++ post) in
  fst r = len others /\
  Valkey.trace (valkey (snd r)) =
    Valkey.trace (valkey s1) ++
    match others with [] => [] | _ :: _ => [Valkey.XAck others] end /\
  is_pending (Valkey.message_id bad) (valkey (snd r)) /\
  (match Valkey.faults (valkey s1) with [] => None | f :: _ => f end = None ->
   forall i, In i others -> ~ is_pending i (valkey (snd r))).
Proof.
  intros Hx Hbad Hok Hid r others. subst r.
  rewrite (process_messages_on_reply s s1 _ Hx) by discriminate.
  pose proof (process_reply_effect [(name, pre ++ bad :: post)] empty_batch s1) as He.
  destruct (process_reply _ empty_batch s1) as [b s2]. cbn [fst snd] in *.
  unfold loop_effect, reply_messages in He. cbn [flat_map snd] in He.
  rewrite app_nil_r, (processed_one_bad _ _ _ Hbad Hok) in He.
  destruct He as (Hi & _ & _ & Hv & _). cbn [empty_batch ids_to_ack app] in Hi.
  fold others in Hi.
  pose proof (ack_and_record_effect ErrorAcknowledgingBatch b s2) as Ha.
  cbv zeta in Ha. destruct Ha as (Hn & _ & _ & _ & _ & Hv2 & _).
  rewrite Hi in Hn, Hv2. rewrite Hv in Hv2.
  assert (Hp : is_pending (Valkey.message_id bad) (valkey s1)).
  { unfold xreadgroup in Hx.
    destruct (Valkey.xreadgroup _ _ _ _ _) as [r0 v] eqn:Er.
    assert (r0 = Ok [(name, pre ++ bad :: post)] /\ valkey s1 = v) as [-> <-].
    { destruct r0 as [[|x l]|e]; inversion Hx; subst; now split. }
    eapply xreadgroup_delivers; [exact Er|].
    unfold reply_messages. cbn [flat_map snd]. rewrite app_nil_r.
    apply in_or_app. right. now left. }
  split; [exact Hn|]. rewrite Hv2.
  destruct others as [|i ids] eqn:Eo.
  - split; [now rewrite app_nil_r|]. split; [exact Hp|]. intros _ j [].
  - rewrite <- Eo in *. split; [apply xack_trace|].
    split; [now apply xack_keeps|].
    intros Hf j Hj. now apply xack_removes.
Qed.


Lemma one_failure_excluded_from_ack_witness :
  let s := three_entries [] in
  let r := process_messages s in
  fst r = 2 /\
  Valkey.trace (valkey (snd r)) =
    [Valkey.XReadGroup "worker_0" 50 100; Valkey.XAck [1; 3]] /\
  is_pending 2 (valkey (snd r)) /\
  ~ is_pending 1 (valkey (snd r)) /\ ~ is_pending 3 (valkey (snd r)).
Proof.
  intros s r.
  pose (m1 := {| Valkey.message_id := 1; Valkey.created_at := Valkey.IsoCreatedAt 0 |}).
  pose (m2 := {| Valkey.message_id := 2;
                 Valkey.created_at := Valkey.BadCreatedAt (Exn "Invalid isoformat string") |}).
  pose (m3 := {| Valkey.message_id := 3; Valkey.created_at := Valkey.NoCreatedAt |}).
  assert (Hid : ~ In (Valkey.message_id m2)
                     (List.map Valkey.message_id ([m1] ++ [m3]))).
  { cbn. intros [H|[H|[]]]; discriminate. }
  destruct (one_failure_excluded_from_ack s (snd (xreadgroup s)) "bench_queue"
              [m1] [m3] m2 eq_refl eq_refl eq_refl Hid)
    as (H1 & H2 & H3 & H4).
  split; [exact H1|]. split; [exact H2|]. split; [exact H3|].
  split; apply (H4 eq_refl); cbn; auto.
Defined.


End ProcessMessages.

(* ------------------------------------------------------------------ *)
(** ** A consumer group that has gone missing *)

Section MissingGroup.

Import ValkeyWorker.

Lemma NOGROUP_recognised : contains "NOGROUP" (exn_msg Valkey.NOGROUP) = true.
Proof. reflexivity. Qed.

Lemma BUSYGROUP_recognised : contains "BUSYGROUP" (exn_msg Valkey.BUSYGROUP) = true.
Proof. reflexivity. Qed.

(** The turn of [run]'s loop, whatever [process_messages] met. *)
Lemma run_loop_turn (n : nat) (claim_counter : Z) (s : t) :
  run_loop (S n) claim_counter s =
    if 10 <=? claim_counter + 1
    then run_loop n 0 (snd (claim_pending_messages (snd (process_messages s))))
    else run_loop n (claim_counter + 1) (snd (process_messages s)).
Proof. cbn [run_loop]. now destruct (process_messages s). Qed.

(** [process_messages] when the fetch raises an error naming NOGROUP. *)
Lemma process_messages_nogroup (s s1 : t) (e : exn) :
  xreadgroup s = (Raise e, s1) ->
  contains "NOGROUP" (exn_msg e) = true ->
  process_messages s =
    (0, snd (xgroup_create (print (GroupNotFoundRecreating (worker_id s1)) s1))).
Proof.
  intros Hx Hc. unfold process_messages. now rewrite Hx, Hc.
Qed.

(** The fetch on a server without the group. *)
Lemma xreadgroup_without_group (s : t) :
  Valkey.group (valkey s) = None ->
  match Valkey.faults (valkey s) with [] => None | f :: _ => f end = None ->
  xreadgroup s =
    (Raise Valkey.NOGROUP,
     set_valkey
       (snd (Valkey.issue (Valkey.XReadGroup (worker_id s) (batch_size s)
                                            (poll_interval s))
                          (valkey s)))
       s).
Proof.
  intros Hg Hf. unfold xreadgroup, Valkey.xreadgroup.
  pose proof (issue_effect (Valkey.XReadGroup (worker_id s) (batch_size s)
                                              (poll_interval s)) (valkey s)) as H.
  cbv zeta in H.
  destruct (Valkey.issue _ (valkey s)) as [f v1]. cbn [fst snd] in *.
  destruct H as (_ & Hg1 & _ & _ & Hfst). rewrite Hf in Hfst. subst f.
  rewrite Hg1, Hg. reflexivity.
Qed.

(** C8: when the fetch finds no consumer group, [process_messages]
    reports zero progress, records nothing, prints that the group is
    being recreated and issues one [xgroup_create]: the group exists
    afterwards when that call goes through, and an exception of that call
    is swallowed without a further line; the loop of [run] goes on to its
    next turn and the next fetch is answered.  In [__init__] the creation
    on a server whose group exists raises BUSYGROUP, which is ignored: the
    group is left as it is and nothing is printed. *)
Theorem missing_group_recreated (s : t) :
  Valkey.group (valkey s) = None ->
  match Valkey.faults (valkey s) with [] => None | f :: _ => f end = None ->
  let r := process_messages s in
  fst r = 0 /\
  jobs_processed (snd r) = jobs_processed s /\
  metrics (snd r) = metrics s /\
  stdout (snd r) = stdout s ++ [GroupNotFoundRecreating (worker_id s)] /\
  Valkey.trace (valkey (snd r)) =
    Valkey.trace (valkey s) ++
    [Valkey.XReadGroup (worker_id s) (batch_size s) (poll_interval s);
     Valkey.XGroupCreate] /\
  (match tl (Valkey.faults (valkey s)) with [] => None | f :: _ => f end = None ->
   Valkey.group (valkey (snd r)) =
     Some {| Valkey.delivered := 0; Valkey.pel := [] |}) /\
  (forall e fs, tl (Valkey.faults (valkey s)) = Some e :: fs ->
   Valkey.group (valkey (snd r)) = None) /\
  (forall n claim_counter,
     run_loop (S n) claim_counter s =
       if 10 <=? claim_counter + 1
       then run_loop n 0 (snd (claim_pending_messages (snd r)))
       else run_loop n (claim_counter + 1) (snd r)) /\
  (no_faults (valkey s) ->
   exists reply s2, xreadgroup (snd r) = (Ok reply, s2)) /\
  (forall worker_id metrics_collector server now out g,
     Valkey.group server = Some g ->
     match Valkey.faults server with [] => None | f :: _ => f end = None ->
     let w := init worker_id metrics_collector server now out in
     Valkey.group (valkey w) = Some g /\ stdout w = out).
Proof.
  intros Hg Hf r.
  assert (Er : r = (0, snd (xgroup_create
                 (print (GroupNotFoundRecreating (worker_id s))
                    (set_valkey
                       (snd (Valkey.issue
                               (Valkey.XReadGroup (worker_id s) (batch_size s)
                                                  (poll_interval s))
                               (valkey s))) s))))).
  { unfold r.
    rewrite (process_messages_nogroup s _ _ (xreadgroup_without_group s Hg Hf)
                                      NOGROUP_recognised).
    reflexivity. }
  split; [|split; [|split; [|split; [|split; [|split; [|split; [|split; [|split]]]]]]]].
  10: { intros wid mc server now out g Hsg Hsf w. subst w.
        unfold init, xgroup_create, Valkey.xgroup_create.
        pose proof (issue_effect Valkey.XGroupCreate server) as H. cbv zeta in H.
        cbn [valkey].
        destruct (Valkey.issue Valkey.XGroupCreate server) as [f v1].
        cbn [fst snd] in H. destruct H as (_ & Hg1 & _ & _ & Hfst).
        rewrite Hsf in Hfst. subst f. rewrite Hg1, Hsg.
        rewrite BUSYGROUP_recognised. cbn [negb valkey set_valkey stdout].
        split; [congruence|reflexivity]. }
  9: { intros Hnf. rewrite Er. cbn [snd].
       unfold xgroup_create, Valkey.xgroup_create, print.
       cbn [valkey set_valkey].
       unfold no_faults in Hnf.
       destruct s as [wid jp bs pi mc v ck out]. cbn [valkey] in *.
       destruct v as [st gr fs tr]. cbn [Valkey.group Valkey.faults] in *.
       subst gr. unfold xreadgroup, Valkey.xreadgroup, Valkey.issue.
       destruct Hnf as [|f1 fs1 Hf1 Hfs1].
       - cbn. destruct (firstn (Z.to_nat bs) st); eauto.
       - subst f1. destruct Hfs1 as [|f2 fs2 Hf2 Hfs2].
         + cbn. destruct (firstn (Z.to_nat bs) st); eauto.
         + subst f2. destruct Hfs2 as [|f3 fs3 Hf3 Hfs3].
           * cbn. destruct (firstn (Z.to_nat bs) st); eauto.
           * subst f3. cbn. destruct (firstn (Z.to_nat bs) st); eauto. }
  8: { intros n cc. rewrite run_loop_turn. reflexivity. }
  all: rewrite Er; cbn [fst snd];
    unfold xgroup_create, Valkey.xgroup_create, print, Valkey.issue;
    destruct s as [wid jp bs pi mc v ck out]; cbn [valkey worker_id batch_size
      poll_interval set_valkey jobs_processed metrics stdout] in *;
    destruct v as [st gr fs tr]; cbn [Valkey.group Valkey.faults Valkey.trace
      Valkey.stream] in *; subst gr.
  - reflexivity.
  - destruct fs as [|f1 [|[e2|] fs]]; cbn; reflexivity.
  - destruct fs as [|f1 [|[e2|] fs]]; cbn; reflexivity.
  - destruct fs as [|f1 [|[e2|] fs]]; cbn; reflexivity.
  - destruct fs as [|f1 [|[e2|] fs]]; cbn; rewrite <- app_assoc; reflexivity.
  - destruct fs as [|f1 [|[e2|] fs]]; cbn; intros H; reflexivity || discriminate.
  - intros e fs' H. destruct fs as [|f1 [|[e2|] fs]]; cbn in H |- *;
      reflexivity || discriminate.
Qed.

Lemma missing_group_recreated_witness :
  let s := mk "worker_0" 0 50 100 (MetricsCollector.init "metrics_valkey.jsonl" 0)
              empty_server 1 [] in
  let r := process_messages s in
  fst r = 0 /\
  stdout (snd r) = [GroupNotFoundRecreating "worker_0"] /\
  Valkey.trace (valkey (snd r)) =
    [Valkey.XReadGroup "worker_0" 50 100; Valkey.XGroupCreate] /\
  Valkey.group (valkey (snd r)) =
    Some {| Valkey.delivered := 0; Valkey.pel := [] |}.
Proof.
  intros s r.
  destruct (missing_group_recreated s eq_refl eq_refl)
    as (H1 & _ & _ & H4 & H5 & H6 & _).
  split; [exact H1|]. split; [exact H4|]. split; [exact H5|].
  exact (H6 eq_refl).
Defined.

End MissingGroup.

(* ------------------------------------------------------------------ *)
(** ** Reclaiming pending entries *)

Section Reclaim.

Import ValkeyWorker.

(** C7 as stated fails on its last part: an entry idle for 6000 ms whose
    [created_at] does not parse is claimed by the sweeping worker, which
    then neither records a latency for it nor acknowledges it. *)
Lemma claimed_entry_left_unacknowledged :
  let s := stalled_entry (Valkey.BadCreatedAt (Exn "Invalid isoformat string")) in
  let r := claim_pending_messages s in
  (exists p, pending_as p (valkey s) /\ pid p = 7 /\
             Valkey.idle (clock s) p = 6000 /\
             Valkey.consumer p = "worker_9"%string) /\
  Valkey.trace (valkey (snd r)) =
    [Valkey.XPendingRange 10; Valkey.XClaim "worker_0" 5000 [7]] /\
  (exists p', pending_as p' (valkey (snd r)) /\ pid p' = 7 /\
              Valkey.consumer p' = "worker_0"%string) /\
  MetricsCollector.latencies (metrics (snd r)) = [] /\
  jobs_processed (snd r) = 0 /\
  fst r = 0.
Proof.
  intros s r. split; [|split; [|split]].
  - eexists. split; [eexists; split; [reflexivity|left; reflexivity]|].
    repeat split.
  - reflexivity.
  - eexists. split; [eexists; split; [reflexivity|left; reflexivity]|].
    repeat split.
  - repeat split.
Qed.

Lemma idle_mono (now0 now1 : Q) (p : Valkey.pending) :
  (now0 <= now1)%Q -> Valkey.idle now0 p <= Valkey.idle now1 p.
Proof.
  intros H. unfold Valkey.idle. apply Qfloor_resp_le.
  apply Qmult_le_compat_r; [|discriminate].
  unfold Qminus. now apply Qplus_le_l.
Qed.

Lemma NoDup_map_eq {A : Type} (f : A -> Z) (l : list A) (x y : A) :
  NoDup (List.map f l) -> In x l -> In y l -> f x = f y -> x = y.
Proof.
  induction l as [|a l IH]; cbn; intros Hnd Hx Hy E; [contradiction|].
  inversion Hnd as [|? ? Hna Hnd']; subst.
  destruct Hx as [->|Hx], Hy as [->|Hy].
  - reflexivity.
  - exfalso. apply Hna. rewrite E. now apply in_map.
  - exfalso. apply Hna. rewrite <- E. now apply in_map.
  - now apply IH.
Qed.

Lemma filter_unique {A : Type} (f : A -> Z) (test : A -> bool)
      (l : list A) (p : A) :
  NoDup (List.map f l) -> In p l -> test p = true ->
  (forall q, In q l -> test q = true -> f q = f p) ->
  List.filter test l = [p].
Proof.
  intros Hnd Hp Ht Hall.
  induction l as [|a l IH]; [contradiction|].
  inversion Hnd as [|? ? Hna Hnd']; subst. cbn.
  destruct Hp as [->|Hp].
  - rewrite Ht. f_equal.
    destruct (List.filter test l) as [|q l'] eqn:E; [reflexivity|].
    exfalso. assert (Hq : In q (List.filter test l)) by (rewrite E; now left).
    apply filter_In in Hq. destruct Hq as [Hq Hqt].
    apply Hna. rewrite <- (Hall q (or_intror Hq) Hqt). now apply in_map.
  - destruct (test a) eqn:Ea.
    + exfalso. apply Hna. rewrite (Hall a (or_introl eq_refl) Ea).
      now apply in_map.
    + apply IH; [assumption|assumption|].
      intros q Hq. apply Hall. now right.
Qed.

Lemma claimable_pid (i : Valkey.entry_id) (now : Q) (q : Valkey.pending) :
  Valkey.claimable 5000 [i] now q = true -> pid q = i.
Proof.
  unfold Valkey.claimable, Valkey.mem. cbn. fold (pid q).
  rewrite orb_false_r. intros H. apply andb_prop in H. destruct H as [H _].
  now apply Z.eqb_eq in H.
Qed.

Lemma claimable_self (now : Q) (p : Valkey.pending) :
  5000 <= Valkey.idle now p ->
  Valkey.claimable 5000 [pid p] now p = true.
Proof.
  intros H. unfold Valkey.claimable, Valkey.mem. cbn. fold (pid p).
  rewrite Z.eqb_refl. cbn. now apply Z.leb_le.
Qed.

Lemma claim_in_pids (w : string) (i : Valkey.entry_id) (now : Q)
      (l : list Valkey.pending) :
  List.map pid (claim_in w i now l) = List.map pid l.
Proof.
  unfold claim_in. rewrite map_map. apply map_ext.
  intros q. now destruct (Valkey.claimable 5000 [i] now q).
Qed.

Lemma claim_in_other (w : string) (i : Valkey.entry_id) (now : Q)
      (l : list Valkey.pending) (q : Valkey.pending) :
  In q l -> pid q <> i -> In q (claim_in w i now l).
Proof.
  intros Hq Hne. unfold claim_in. apply in_map_iff. exists q.
  split; [|exact Hq].
  destruct (Valkey.claimable 5000 [i] now q) eqn:E; [|reflexivity].
  apply claimable_pid in E. contradiction.
Qed.

Lemma claim_in_self (w : string) (now : Q) (l : list Valkey.pending)
      (p : Valkey.pending) :
  In p l -> 5000 <= Valkey.idle now p ->
  In (Valkey.claim w now p) (claim_in w (pid p) now l).
Proof.
  intros Hp Hi. unfold claim_in. apply in_map_iff. exists p.
  split; [|exact Hp]. now rewrite claimable_self.
Qed.

(** The reply and the effect of the [xclaim] issued for one scanned
    entry, according to whether the call raises. *)
Lemma xclaim_one (s : t) (g : Valkey.group_state) (p : Valkey.pending) :
  Valkey.group (valkey s) = Some g ->
  NoDup (List.map pid (Valkey.pel g)) -> In p (Valkey.pel g) ->
  5000 <= Valkey.idle (clock s) p ->
  (exists e s1,
     xclaim 5000 [pid p] s = (Raise e, s1) /\
     Valkey.group (valkey s1) = Some g /\
     jobs_processed s1 = jobs_processed s /\ metrics s1 = metrics s /\
     clock s1 = clock s /\ same_worker s s1) \/
  (exists s1,
     xclaim 5000 [pid p] s = (Ok [Valkey.p_message p], s1) /\
     Valkey.group (valkey s1) =
       Some {| Valkey.delivered := Valkey.delivered g;
               Valkey.pel := claim_in (worker_id s) (pid p) (clock s) (Valkey.pel g) |} /\
     jobs_processed s1 = jobs_processed s /\ metrics s1 = metrics s /\
     clock s1 = clock s /\ same_worker s s1).
Proof.
  intros Hg Hnd Hp Hi. unfold xclaim, Valkey.xclaim.
  pose proof (issue_effect (Valkey.XClaim (worker_id s) 5000 [pid p]) (valkey s)) as H.
  cbv zeta in H.
  destruct (Valkey.issue _ (valkey s)) as [[e|] v1]; cbn [fst snd] in H;
    destruct H as (_ & Hg1 & _).
  - left. exists e. eexists. split; [reflexivity|].
    unfold same_worker. wsimpl. repeat split. congruence.
  - right. rewrite Hg1, Hg. eexists. split.
    + rewrite (filter_unique pid _ _ p Hnd Hp (claimable_self _ _ Hi)).
      * reflexivity.
      * intros q _ Hq. now apply claimable_pid in Hq.
    + unfold same_worker. wsimpl. repeat split.
Qed.

Lemma same_worker_trans (s1 s2 s3 : t) :
  same_worker s1 s2 -> same_worker s2 s3 -> same_worker s1 s3.
Proof.
  unfold same_worker. intros (A & B & C) (D & E & F).
  repeat split; congruence.
Qed.

(** The sweep goes on from a state that differs from [s] in neither the
    pending list nor the worker: the head entry was skipped, or its
    [xclaim] raised. *)
Lemma sweep_skip (now0 : Q) (p : Valkey.pending) (rest : list Valkey.pending)
      (g : Valkey.group_state) (b b' : batch) (s s1 s' : t) :
  jobs_processed s1 = jobs_processed s -> metrics s1 = metrics s ->
  same_worker s s1 ->
  sweep_effect now0 rest g b s1 b' s' ->
  sweep_effect now0 (p :: rest) g b s b' s'.
Proof.
  intros Fj Fm Fw (g' & extra & new & Hg & Hp & Hi & Hl & Hn & Hj & Hm & Hw & Hq).
  exists g', extra, new.
  repeat (split; [first [assumption | congruence
                        | eapply same_worker_trans; eassumption]|]).
  intros q Hin. destruct (Hq q Hin) as [H|(H1 & H2 & H3)]; [now left|].
  right. split; [now right|]. split; [exact H2|].
  destruct Fw as (<- & _). exact H3.
Qed.

(** The sweep goes on after the head entry was claimed, with [extra0]
    the IDs collected for it. *)
Lemma sweep_claimed (now0 now : Q) (p : Valkey.pending)
      (rest : list Valkey.pending) (g g1 : Valkey.group_state)
      (b b1 b' : batch) (s s1 s' : t)
      (extra0 : list Valkey.entry_id) (new0 : list Q) :
  NoDup (List.map pid (Valkey.pel g)) -> In p (Valkey.pel g) ->
  ~ In (pid p) (List.map pid rest) ->
  stale now0 p = true -> 5000 <= Valkey.idle now p ->
  Valkey.pel g1 = claim_in (worker_id s) (pid p) now (Valkey.pel g) ->
  ids_to_ack b1 = ids_to_ack b ++ extra0 ->
  batch_latencies b1 = batch_latencies b ++ new0 ->
  List.length new0 = List.length extra0 ->
  jobs_processed s1 = jobs_processed s + len extra0 ->
  metrics s1 = metrics s -> same_worker s s1 ->
  (throws (Valkey.p_message p) = true -> extra0 = []) ->
  (throws (Valkey.p_message p) = false -> extra0 = [pid p]) ->
  sweep_effect now0 rest g1 b1 s1 b' s' ->
  sweep_effect now0 (p :: rest) g b s b' s'.
Proof.
  intros Hnd Hp Hfresh Hst Hidle Hg1 Ei El En Fj Fm Fw Hthrow Hgood
         (g' & extra & new & Hg & Hpid & Hi & Hl & Hn & Hj & Hm & Hw & Hq).
  exists g', (extra0 ++ extra), (new0 ++ new).
  split; [exact Hg|].
  split; [rewrite Hpid, Hg1; apply claim_in_pids|].
  split; [rewrite Hi, Ei, <- app_assoc; reflexivity|].
  split; [rewrite Hl, El, <- app_assoc; reflexivity|].
  split; [rewrite !length_app; congruence|].
  split; [rewrite Hj, Fj; unfold len; rewrite length_app; lia|].
  split; [congruence|].
  split; [eapply same_worker_trans; eassumption|].
  assert (Ew : worker_id s1 = worker_id s) by apply Fw.
  assert (Hsub : forall i, In i extra0 -> i = pid p).
  { intros i Hi0. destruct (throws (Valkey.p_message p)) eqn:Et.
    - rewrite (Hthrow eq_refl) in Hi0. contradiction.
    - rewrite (Hgood eq_refl) in Hi0. destruct Hi0 as [<-|[]]. reflexivity. }
  intros q Hin. destruct (Z.eq_dec (pid q) (pid p)) as [E|Hne].
  - assert (q = p) by (eapply (NoDup_map_eq pid); eassumption). subst q.
    right. split; [now left|]. split; [exact Hst|].
    assert (Hc : In (Valkey.claim (worker_id s) now p) (Valkey.pel g1)).
    { rewrite Hg1. now apply claim_in_self. }
    destruct (Hq _ Hc) as [[Hin' Hno]|(Hr & _)].
    + split; [exists (Valkey.claim (worker_id s) now p); repeat split; assumption|].
      split.
      * intros Et. apply in_or_app. left. rewrite (Hgood Et). now left.
      * intros Et. rewrite (Hthrow Et). exact Hno.
    + exfalso. apply Hfresh.
      apply (in_map pid) in Hr. exact Hr.
  - assert (Hin1 : In q (Valkey.pel g1)).
    { rewrite Hg1. now apply claim_in_other. }
    destruct (Hq _ Hin1) as [[Hin' Hno]|(Hr & Hs & (Hex & Hf & Ht))].
    + left. split; [exact Hin'|].
      intros Hx. apply in_app_or in Hx. destruct Hx as [Hx|Hx].
      * apply Hne. now apply Hsub.
      * contradiction.
    + right. split; [now right|]. split; [exact Hs|]. rewrite <- Ew.
      split; [exact Hex|]. split.
      * intros Et. apply in_or_app. right. now apply Hf.
      * intros Et Hx. apply in_app_or in Hx. destruct Hx as [Hx|Hx].
        -- apply Hne. now apply Hsub.
        -- now apply Ht.
Qed.

Lemma claim_each_effect (now0 : Q) (ps : list Valkey.pending) :
  forall (b : batch) (s : t) (g : Valkey.group_state),
    Valkey.group (valkey s) = Some g ->
    NoDup (List.map pid (Valkey.pel g)) ->
    NoDup (List.map pid ps) -> incl ps (Valkey.pel g) ->
    (now0 <= clock s)%Q ->
    sweep_effect now0 ps g b s
      (fst (claim_each (List.map (Valkey.info now0) ps) b s))
      (snd (claim_each (List.map (Valkey.info now0) ps) b s)).
Proof.
  induction ps as [|p rest IH]; intros b s g Hg Hnd Hps Hincl Hnow.
  - cbn. exists g, [], []. rewrite !app_nil_r.
    unfold same_worker, len. cbn.
    repeat (split; [first [exact Hg | reflexivity | lia
                          | repeat split; reflexivity]|]).
    intros q Hq. left. split; [exact Hq|intros []].
  - inversion Hps as [|? ? Hfresh Hrest]; subst.
    assert (Hp : In p (Valkey.pel g)) by (apply Hincl; now left).
    assert (Hincl' : incl rest (Valkey.pel g)).
    { intros q Hq. apply Hincl. now right. }
    cbn [List.map claim_each].
    cbn [Valkey.info Valkey.time_since_delivered Valkey.pi_message_id].
    fold (pid p). fold (stale now0 p).
    destruct (stale now0 p) eqn:Est.
    + assert (Hidle : 5000 <= Valkey.idle (clock s) p).
      { unfold stale in Est. apply Z.ltb_lt in Est.
        pose proof (idle_mono now0 (clock s) p Hnow). lia. }
      destruct (xclaim_one s g p Hg Hnd Hp Hidle)
        as [(e & s1 & -> & Hg1 & Fj & Fm & Fc & Fw)
           |(s1 & -> & Hg1 & Fj & Fm & Fc & Fw)].
      * (* the claim raised *)
        eapply sweep_skip; [| | |apply IH with (g := g)]; wsimpl;
          try assumption.
        rewrite Fc. exact Hnow.
      * cbn [process_claimed].
        assert (Hnd1 : NoDup (List.map pid
                  (claim_in (worker_id s) (pid p) (clock s) (Valkey.pel g)))).
        { now rewrite claim_in_pids. }
        assert (Hincl1 : incl rest
                  (claim_in (worker_id s) (pid p) (clock s) (Valkey.pel g))).
        { intros q Hq. apply claim_in_other; [now apply Hincl'|].
          intros E. apply Hfresh. rewrite <- E. now apply in_map. }
        set (g1 := {| Valkey.delivered := Valkey.delivered g;
                      Valkey.pel := claim_in (worker_id s) (pid p) (clock s)
                                             (Valkey.pel g) |}) in *.
        destruct (measure_cases (Valkey.p_message p) s1)
          as [(e & s2 & Ec & Ht & -> & Hs2)|(lat & Ht & ->)].
        -- (* reprocessing throws *)
           destruct (raised_frame s1 s2 Hs2) as (Rj & Rv & Rm & Ro & Rw & Rc).
           eapply (sweep_claimed now0 (clock s) p rest g g1 b b _ s _ _ [] []);
             [exact Hnd|exact Hp|exact Hfresh|exact Est|exact Hidle
             |reflexivity| | | | | | | |
             |apply IH; [wsimpl; rewrite Rv; exact Hg1|exact Hnd1|exact Hrest
                        |exact Hincl1|]];
             wsimpl; rewrite ?app_nil_r; try reflexivity; try assumption.
           ++ unfold len; cbn; lia.
           ++ congruence.
           ++ eapply same_worker_trans; [exact Fw|].
              unfold same_worker in *. wsimpl. exact Rw.
           ++ congruence.
           ++ eapply Qle_trans; [exact Hnow|]. rewrite <- Fc. exact Rc.
        -- (* reprocessing succeeds *)
           cbn [collect].
           pose proof (simulate_processing_frame s1) as Hf. cbv zeta in Hf.
           destruct Hf as (Sj & Sv & Sm & So & Sw & Sc).
           eapply (sweep_claimed now0 (clock s) p rest g g1 b _ _ s _ _
                                 [pid p] [lat]);
             [exact Hnd|exact Hp|exact Hfresh|exact Est|exact Hidle
             |reflexivity| | | | | | | |
             |apply IH; [wsimpl; rewrite Sv; exact Hg1|exact Hnd1|exact Hrest
                        |exact Hincl1|]];
             wsimpl; try reflexivity.
           ++ rewrite Sj, Fj. unfold len. cbn. lia.
           ++ congruence.
           ++ eapply same_worker_trans; [exact Fw|].
              unfold same_worker in *. wsimpl. exact Sw.
           ++ congruence.
           ++ eapply Qle_trans; [exact Hnow|]. rewrite <- Fc. exact Sc.
    + eapply sweep_skip; [| | |apply IH with (g := g)];
        try reflexivity; try assumption.
      unfold same_worker. repeat split.
Qed.

Lemma xack_keeps_as (ids : list Valkey.entry_id) (v : Valkey.server)
      (q : Valkey.pending) :
  pending_as q v -> ~ In (pid q) ids ->
  pending_as q (snd (Valkey.xack ids v)).
Proof.
  intros (g & Hg & Hq) Hn. unfold Valkey.xack.
  pose proof (issue_effect (Valkey.XAck ids) v) as H. cbv zeta in H.
  destruct (Valkey.issue (Valkey.XAck ids) v) as [[e|] v1]; cbn [fst snd] in *;
    destruct H as (_ & Hg1 & _).
  - exists g. split; [congruence|exact Hq].
  - rewrite Hg1, Hg. cbn. eexists. split; [reflexivity|]. cbn.
    apply filter_In. split; [exact Hq|]. fold (pid q).
    destruct (Valkey.mem (pid q) ids) eqn:E; [|reflexivity].
    apply mem_In in E. contradiction.
Qed.

Lemma pending_as_is_pending (q : Valkey.pending) (v : Valkey.server) :
  pending_as q v -> is_pending (pid q) v.
Proof. intros (g & Hg & Hq). now exists g, q. Qed.

Lemma xack_ok_removes (ids : list Valkey.entry_id) (v : Valkey.server)
      (n : Z) (i : Valkey.entry_id) :
  fst (Valkey.xack ids v) = Ok n -> In i ids ->
  ~ is_pending i (snd (Valkey.xack ids v)).
Proof.
  unfold Valkey.xack.
  destruct (Valkey.issue (Valkey.XAck ids) v) as [[e|] v1]; cbn [fst snd];
    [discriminate|].
  intros _ Hin (g' & p & Hg' & Hp & Hi).
  destruct (Valkey.group v1) as [g|] eqn:Eg; cbn in Hg'; [|congruence].
  injection Hg' as <-. cbn in Hp. apply filter_In in Hp.
  destruct Hp as [_ Hp]. fold (pid p) in Hp. rewrite Hi in Hp.
  apply mem_In in Hin. rewrite Hin in Hp. discriminate.
Qed.

Lemma process_claimed_frame (l : list Valkey.message) :
  forall (b : batch) (s : t),
    valkey (snd (snd (process_claimed l b s))) = valkey s /\
    worker_id (snd (snd (process_claimed l b s))) = worker_id s.
Proof.
  induction l as [|m l IH]; intros b s; [now split|].
  cbn [process_claimed].
  destruct (measure_cases m s) as [(e & s1 & _ & _ & -> & Hs1)|(lat & _ & ->)].
  - destruct (raised_frame s s1 Hs1) as (_ & Rv & _ & _ & (Rw & _) & _).
    now split.
  - cbn [collect].
    match goal with |- context [process_claimed l ?b1 ?s1] =>
      destruct (IH b1 s1) as [-> ->] end.
    now split.
Qed.

Lemma xclaim_trace (min_idle_time : Z) (ids : list Valkey.entry_id) (s : t) :
  Valkey.trace (valkey (snd (xclaim min_idle_time ids s))) =
    Valkey.trace (valkey s) ++ [Valkey.XClaim (worker_id s) min_idle_time ids] /\
  worker_id (snd (xclaim min_idle_time ids s)) = worker_id s.
Proof.
  unfold xclaim, Valkey.xclaim.
  pose proof (issue_effect (Valkey.XClaim (worker_id s) min_idle_time ids)
                           (valkey s)) as H.
  cbv zeta in H.
  destruct (Valkey.issue _ (valkey s)) as [[e|] v1]; cbn [fst snd] in *;
    destruct H as (_ & _ & Ht & _).
  - now split.
  - destruct (Valkey.group v1); now split.
Qed.

(** Whatever the server answers, the sweep issues claims only for
    scanned entries reported idle for more than 5000 ms. *)
Lemma claim_each_claims (infos : list Valkey.pending_info) :
  forall (b : batch) (s : t),
    worker_id (snd (claim_each infos b s)) = worker_id s /\
    exists new,
      Valkey.trace (valkey (snd (claim_each infos b s))) =
        Valkey.trace (valkey s) ++ new /\
      Forall (fun cmd =>
                exists msg, In msg infos /\
                            5000 < Valkey.time_since_delivered msg /\
                            cmd = Valkey.XClaim (worker_id s) 5000
                                                [Valkey.pi_message_id msg])
             new.
Proof.
  induction infos as [|msg rest IH]; intros b s.
  - split; [reflexivity|]. exists []. now rewrite app_nil_r.
  - cbn [claim_each].
    assert (Hweak : forall s1 new1,
              worker_id s1 = worker_id s ->
              Forall (fun cmd =>
                exists msg0, In msg0 rest /\
                             5000 < Valkey.time_since_delivered msg0 /\
                             cmd = Valkey.XClaim (worker_id s1) 5000
                                                 [Valkey.pi_message_id msg0]) new1 ->
              Forall (fun cmd =>
                exists msg0, In msg0 (msg :: rest) /\
                             5000 < Valkey.time_since_delivered msg0 /\
                             cmd = Valkey.XClaim (worker_id s) 5000
                                                 [Valkey.pi_message_id msg0]) new1).
    { intros s1 new1 Ew H. eapply Forall_impl; [|exact H].
      intros cmd (m0 & Hin & Hlt & ->). exists m0. rewrite Ew.
      repeat split; [now right|exact Hlt]. }
    destruct (Z.ltb_spec 5000 (Valkey.time_since_delivered msg)) as [Hlt|Hge].
    + destruct (xclaim_trace 5000 [Valkey.pi_message_id msg] s) as [Ht Hw].
      assert (Hhead : Forall (fun cmd =>
                exists msg0, In msg0 (msg :: rest) /\
                             5000 < Valkey.time_since_delivered msg0 /\
                             cmd = Valkey.XClaim (worker_id s) 5000
                                                 [Valkey.pi_message_id msg0])
              [Valkey.XClaim (worker_id s) 5000 [Valkey.pi_message_id msg]]).
      { constructor; [|constructor]. exists msg. repeat split; [now left|exact Hlt]. }
      destruct (xclaim 5000 [Valkey.pi_message_id msg] s) as [[reply|e] s1];
        cbn [fst snd] in Ht, Hw.
      * destruct (process_claimed_frame reply b s1) as [Pv Pw].
        destruct (process_claimed reply b s1) as [[e|] [b1 s2]];
          cbn [fst snd] in Pv, Pw.
        -- match goal with |- context [claim_each rest b1 ?s3] =>
             destruct (IH b1 s3) as (Iw & new & It & If) end.
           wsimpl. split; [congruence|].
           exists (Valkey.XClaim (worker_id s) 5000 [Valkey.pi_message_id msg] :: new).
           split; [rewrite It, Pv, Ht, <- app_assoc; reflexivity|].
           apply Forall_app with (l1 := [_]). split; [exact Hhead|].
           apply (Hweak (print (ErrorClaimingMessage (worker_id s2)
                                  (Valkey.pi_message_id msg) e) s2));
             [wsimpl; congruence|exact If].
        -- destruct (IH b1 s2) as (Iw & new & It & If).
           split; [congruence|].
           exists (Valkey.XClaim (worker_id s) 5000 [Valkey.pi_message_id msg] :: new).
           split; [rewrite It, Pv, Ht, <- app_assoc; reflexivity|].
           apply Forall_app with (l1 := [_]). split; [exact Hhead|].
           apply (Hweak s2); [congruence|exact If].
      * match goal with |- context [claim_each rest b ?s3] =>
          destruct (IH b s3) as (Iw & new & It & If) end.
        wsimpl. split; [congruence|].
        exists (Valkey.XClaim (worker_id s) 5000 [Valkey.pi_message_id msg] :: new).
        split; [rewrite It, Ht, <- app_assoc; reflexivity|].
        apply Forall_app with (l1 := [_]). split; [exact Hhead|].
        apply (Hweak (print (ErrorClaimingMessage (worker_id s1)
                               (Valkey.pi_message_id msg) e) s1));
          [wsimpl; congruence|exact If].
    + destruct (IH b s) as (Iw & new & It & If).
      split; [exact Iw|]. exists new. split; [exact It|].
      now apply (Hweak s).
Qed.

(** The scan that opens the sweep. *)
Lemma xpending_range_cases (s : t) :
  (exists e s1,
     xpending_range 10 s = (Raise e, s1) /\
     Valkey.group (valkey s1) = Valkey.group (valkey s) /\
     Valkey.trace (valkey s1) =
       Valkey.trace (valkey s) ++ [Valkey.XPendingRange 10]) \/
  (exists g s1,
     Valkey.group (valkey s) = Some g /\
     xpending_range 10 s =
       (Ok (List.map (Valkey.info (clock s)) (firstn 10 (Valkey.pel g))), s1) /\
     Valkey.group (valkey s1) = Some g /\
     Valkey.trace (valkey s1) =
       Valkey.trace (valkey s) ++ [Valkey.XPendingRange 10] /\
     jobs_processed s1 = jobs_processed s /\ metrics s1 = metrics s /\
     stdout s1 = stdout s /\ clock s1 = clock s /\ same_worker s s1).
Proof.
  unfold xpending_range, Valkey.xpending_range.
  pose proof (issue_effect (Valkey.XPendingRange 10) (valkey s)) as H.
  cbv zeta in H.
  destruct (Valkey.issue _ (valkey s)) as [[e|] v1]; cbn [fst snd] in H;
    destruct H as (_ & Hg1 & Ht & _).
  - left. exists e. eexists. split; [reflexivity|]. now split.
  - destruct (Valkey.group v1) as [g|] eqn:Eg.
    + right. exists g. eexists. split; [congruence|].
      split; [reflexivity|]. unfold same_worker. wsimpl. repeat split; assumption.
    + left. eexists. eexists. split; [reflexivity|]. wsimpl. split; congruence.
Qed.

Lemma ack_and_record_trace (on_error : string -> exn -> line) (b : batch) (s : t) :
  Valkey.trace (valkey (snd (ack_and_record on_error b s))) =
    Valkey.trace (valkey s) ++
    match ids_to_ack b with [] => [] | _ :: _ => [Valkey.XAck (ids_to_ack b)] end.
Proof.
  pose proof (ack_and_record_effect on_error b s) as H. cbv zeta in H.
  destruct H as (_ & _ & _ & _ & _ & -> & _).
  destruct (ids_to_ack b); [now rewrite app_nil_r|apply xack_trace].
Qed.

Lemma NoDup_firstn_map {A : Type} (f : A -> Z) (n : nat) (l : list A) :
  NoDup (List.map f l) -> NoDup (List.map f (firstn n l)).
Proof.
  intros H. rewrite <- (firstn_skipn n l), map_app in H.
  now apply NoDup_app_remove_r in H.
Qed.

Lemma incl_firstn {A : Type} (n : nat) (l : list A) : incl (firstn n l) l.
Proof.
  intros x Hx. rewrite <- (firstn_skipn n l). apply in_or_app. now left.
Qed.

(** C7 (amended): the sweep issues a claim only for a scanned entry that
    the scan reported idle for more than 5000 ms, so an entry idle for at
    most 5000 ms, or not among the 10 entries scanned, is left as it is;
    an entry whose reprocessing does not throw ends either as it was
    (not claimed) or listed in the single [xack] that closes the sweep,
    with one latency sample recorded per listed entry: it is then no longer
    pending unless that [xack] raised and the error was printed; and an
    entry whose reprocessing throws is still pending after the sweep. *)
Theorem reclaim_threshold (s : t) :
  let r := claim_pending_messages s in
  (forall c mi ids,
     In (Valkey.XClaim c mi ids) (Valkey.trace (valkey (snd r))) ->
     In (Valkey.XClaim c mi ids) (Valkey.trace (valkey s)) \/
     exists g p,
       Valkey.group (valkey s) = Some g /\
       In p (firstn 10 (Valkey.pel g)) /\
       5000 < Valkey.idle (clock s) p /\
       ids = [pid p] /\ c = worker_id s /\ mi = 5000) /\
  (forall g, Valkey.group (valkey s) = Some g ->
     NoDup (List.map pid (Valkey.pel g)) ->
     forall q, In q (Valkey.pel g) ->
       (Valkey.idle (clock s) q <= 5000 \/ ~ In q (firstn 10 (Valkey.pel g)) ->
        pending_as q (valkey (snd r))) /\
       (throws (Valkey.p_message q) = false ->
        pending_as q (valkey (snd r)) \/
        exists tr acked new,
          Valkey.trace (valkey (snd r)) = tr ++ [Valkey.XAck acked] /\
          In (pid q) acked /\
          fst r = len acked /\
          MetricsCollector.latencies (metrics (snd r)) =
            MetricsCollector.latencies (metrics s) ++ new /\
          len new = len acked /\
          (~ is_pending (pid q) (valkey (snd r)) \/
           exists out e,
             stdout (snd r) =
               out ++ [ErrorAcknowledgingClaimedBatch (worker_id s) e])) /\
       (throws (Valkey.p_message q) = true ->
        is_pending (pid q) (valkey (snd r)))).
Proof.
  intros r. split.
  - (* only stale entries are claimed *)
    intros c mi ids Hin. subst r. unfold claim_pending_messages in Hin.
    destruct (xpending_range_cases s)
      as [(e & s1 & Hx & Hg1 & Ht1)
         |(g & s1 & Hg & Hx & Hg1 & Ht1 & _ & _ & _ & Hc & Hw)];
      rewrite Hx in Hin.
    + wsimpl. rewrite Ht1 in Hin. apply in_app_or in Hin.
      destruct Hin as [Hin|[Hin|[]]]; [now left|discriminate].
    + assert (Hscan : In (Valkey.XClaim c mi ids) (Valkey.trace (valkey s1)) ->
                      In (Valkey.XClaim c mi ids) (Valkey.trace (valkey s))).
      { rewrite Ht1. intros H. apply in_app_or in H.
        destruct H as [H|[H|[]]]; [exact H|discriminate]. }
      destruct (List.map (Valkey.info (clock s)) (firstn 10 (Valkey.pel g)))
        as [|i0 infos] eqn:Ei; [left; now apply Hscan|].
      destruct (claim_each_claims (i0 :: infos) empty_batch s1)
        as (_ & new & Et & Hall).
      destruct (claim_each (i0 :: infos) empty_batch s1) as [b s2].
      cbn [fst snd] in Et.
      rewrite ack_and_record_trace, Et in Hin.
      apply in_app_or in Hin. destruct Hin as [Hin|Hin].
      * apply in_app_or in Hin. destruct Hin as [Hin|Hin];
          [left; now apply Hscan|].
        right. rewrite Forall_forall in Hall.
        destruct (Hall _ Hin) as (msg & Hmsg & Hlt & E).
        rewrite <- Ei in Hmsg. apply in_map_iff in Hmsg.
        destruct Hmsg as (p & <- & Hp). injection E as -> -> ->.
        exists g, p. destruct Hw as (Hw & _).
        repeat split; assumption.
      * destruct (ids_to_ack b); [contradiction|].
        destruct Hin as [Hin|[]]. discriminate.
  - (* what becomes of each pending entry *)
    intros g Hg Hnd q Hq. subst r. unfold claim_pending_messages.
    assert (Hq0 : pending_as q (valkey s)) by (exists g; now split).
    destruct (xpending_range_cases s)
      as [(e & s1 & Hx & Hg1 & Ht1)
         |(g0 & s1 & Hg0 & Hx & Hg1 & Ht1 & Fj & Fm & Fo & Fc & Fw)];
      rewrite Hx.
    + assert (pending_as q (valkey s1)).
      { exists g. split; [congruence|exact Hq]. }
      wsimpl. split; [intros _; assumption|].
      split; [intros _; now left|intros _; now apply pending_as_is_pending].
    + assert (g0 = g) by congruence. subst g0.
      assert (Hq1 : pending_as q (valkey s1)) by (exists g; now split).
      destruct (List.map (Valkey.info (clock s)) (firstn 10 (Valkey.pel g)))
        as [|i0 infos] eqn:Ei.
      { wsimpl. split; [intros _; assumption|].
        split; [intros _; now left|intros _; now apply pending_as_is_pending]. }
      rewrite <- Ei.
      pose proof (claim_each_effect (clock s) (firstn 10 (Valkey.pel g))
                    empty_batch s1 g Hg1 Hnd
                    (NoDup_firstn_map pid 10 _ Hnd) (incl_firstn 10 _)) as He.
      specialize (He ltac:(rewrite Fc; apply Qle_refl)).
      destruct (claim_each _ empty_batch s1) as [b s2]. cbn [fst snd] in He.
      destruct He as (g' & extra & new & Hg' & _ & Hi & Hl & Hn & Hj & Hm & Hw & Hcases).
      cbn [empty_batch ids_to_ack batch_latencies app] in Hi, Hl.
      pose proof (ack_and_record_effect ErrorAcknowledgingClaimedBatch b s2) as Ha.
      cbv zeta in Ha. destruct Ha as (An & _ & _ & Al & _ & Av & Ao).
      pose proof (ack_and_record_trace ErrorAcknowledgingClaimedBatch b s2) as At.
      rewrite Hi in An, Av, Ao, At. rewrite Hl in Al.
      assert (Hkeep : untouched q g' extra ->
                pending_as q (valkey (snd (ack_and_record
                                ErrorAcknowledgingClaimedBatch b s2)))).
      { intros [Hin Hno]. rewrite Av.
        assert (pending_as q (valkey s2)) by (exists g'; now split).
        destruct extra; [assumption|now apply xack_keeps_as]. }
      split; [|split].
      * intros Hcond. apply Hkeep.
        destruct (Hcases q Hq) as [H|(Hin & Hst & _)]; [exact H|].
        exfalso. destruct Hcond as [Hcond|Hcond]; [|contradiction].
        unfold stale in Hst. apply Z.ltb_lt in Hst. lia.
      * intros Hgood.
        destruct (Hcases q Hq) as [H|(_ & _ & (_ & Hacked & _))];
          [left; now apply Hkeep|].
        right. specialize (Hacked Hgood).
        destruct extra as [|i ids] eqn:Ee; [contradiction|]. rewrite <- Ee in *.
        exists (Valkey.trace (valkey s2)), extra, new.
        split; [exact At|].
        split; [exact Hacked|]. split; [exact An|].
        split; [rewrite Al, Hm, Fm; reflexivity|].
        split; [unfold len; now rewrite Hn|].
        rewrite Av, Ao.
        destruct (fst (Valkey.xack extra (valkey s2))) as [n|e] eqn:Er.
        -- left. eapply xack_ok_removes; eassumption.
        -- right. exists (stdout s2), e.
           destruct Hw as (-> & _). destruct Fw as (-> & _). reflexivity.
      * intros Hbad.
        destruct (Hcases q Hq)
          as [H|(_ & _ & ((q' & Hq' & Hmsg & _) & _ & Hno))];
          [now apply pending_as_is_pending, Hkeep|].
        specialize (Hno Hbad).
        assert (Epid : pid q' = pid q) by (unfold pid; now rewrite Hmsg).
        rewrite <- Epid. apply pending_as_is_pending. rewrite Av.
        assert (pending_as q' (valkey s2)) by (exists g'; now split).
        destruct extra; [assumption|].
        apply xack_keeps_as; [assumption|now rewrite Epid].
Qed.

Lemma reclaim_threshold_witness :
  let s := stalled_entry (Valkey.IsoCreatedAt 0) in
  let r := claim_pending_messages s in
  let q := {| Valkey.p_message :=
                {| Valkey.message_id := 7;
                   Valkey.created_at := Valkey.IsoCreatedAt 0 |};
              Valkey.consumer := "worker_9";
              Valkey.delivered_at := 0;
              Valkey.times_delivered := 1 |} in
  pending_as q (valkey s) /\ throws (Valkey.p_message q) = false /\
  (pending_as q (valkey (snd r)) \/
   exists tr acked new,
     Valkey.trace (valkey (snd r)) = tr ++ [Valkey.XAck acked] /\
     In (pid q) acked /\
     fst r = len acked /\
     MetricsCollector.latencies (metrics (snd r)) =
       MetricsCollector.latencies (metrics s) ++ new /\
     len new = len acked /\
     (~ is_pending (pid q) (valkey (snd r)) \/
      exists out e,
        stdout (snd r) = out ++ [ErrorAcknowledgingClaimedBatch (worker_id s) e])).
Proof.
  intros s r q.
  assert (Hnd : NoDup (List.map pid [q])).
  { cbn. constructor; [intros []|constructor]. }
  split; [eexists; split; [reflexivity|now left]|]. split; [reflexivity|].
  exact (proj1 (proj2 (proj2 (reclaim_threshold s) _ eq_refl Hnd q
                             (or_introl eq_refl))) eq_refl).
Defined.

(** The sweep over an entry idle for 6000 ms that parses: it is claimed,
    reprocessed and acknowledged. *)
Example stalled_entry_reclaimed :
  let r := claim_pending_messages (stalled_entry (Valkey.IsoCreatedAt 0)) in
  fst r = 1 /\
  Valkey.trace (valkey (snd r)) =
    [Valkey.XPendingRange 10; Valkey.XClaim "worker_0" 5000 [7];
     Valkey.XAck [7]] /\
  Valkey.group (valkey (snd r)) =
    Some {| Valkey.delivered := 1; Valkey.pel := [] |} /\
  List.length (MetricsCollector.latencies (metrics (snd r))) = 1%nat.
Proof. vm_compute. repeat split. Qed.

End Reclaim.


(* ================================================================== *)
(** * Further properties *)

(* ------------------------------------------------------------------ *)
(** ** Snapshots of the collector *)

Section Snapshots.

Import MetricsCollector.

Lemma sorted_nth_le (s : list Q) :
  StronglySorted Qle s ->
  forall i j, (i <= j < List.length s)%nat ->
    (nth i s 0 <= nth j s 0)%Q.
Proof.
  induction 1 as [|a s Hs IH Hall]; intros i j Hij; simpl in Hij; [lia|].
  destruct i as [|i], j as [|j]; try lia; simpl nth.
  - apply Qle_refl.
  - rewrite Forall_forall in Hall. apply Hall, nth_In. lia.
  - apply IH. lia.
Qed.

Lemma last_as_nth (s : list Q) :
  s <> [] -> last s 0%Q = nth (List.length s - 1) s 0%Q.
Proof.
  intros H. destruct (exists_last H) as [s' [x ->]].
  rewrite last_last, length_app. simpl.
  replace (List.length s' + 1 - 1)%nat with (List.length s') by lia.
  now rewrite nth_middle.
Qed.

Lemma count_le_count (p q : Q -> bool) (l : list Q) :
  (forall x, p x = true -> q x = true) -> (count p l <= count q l)%nat.
Proof.
  intros H. induction l as [|x l IH]; [reflexivity|].
  rewrite !count_cons. destruct (p x) eqn:E.
  - rewrite (H x E). lia.
  - destruct (q x); lia.
Qed.

(** Two samples of the same rank in the same multiset are equal. *)
Lemma rank_le (l l' : list Q) (k : Z) (v v' : Q) :
  Permutation l l' -> has_rank l k v -> has_rank l' k v' -> (v <= v')%Q.
Proof.
  intros Hp [_ [Hlt _]] [_ [_ Hle]].
  destruct (Qlt_le_dec v' v) as [Hc|Hc]; [|exact Hc]. exfalso.
  assert (H : (count (fun x => Qle_bool x v') l'
               <= count (fun x => Qlt_bool x v) l')%nat).
  { apply count_le_count. intros x Hx. apply Qle_bool_iff in Hx.
    unfold Qlt_bool. apply negb_true_iff.
    destruct (Qle_bool v x) eqn:E; [|reflexivity].
    apply Qle_bool_iff in E. exfalso.
    apply (Qlt_irrefl v'). eapply Qlt_le_trans; [exact Hc|].
    eapply Qle_trans; eassumption. }
  rewrite <- (count_perm (fun x => Qlt_bool x v) _ _ Hp) in H. lia.
Qed.

Lemma rank_unique (l l' : list Q) (k : Z) (v v' : Q) :
  Permutation l l' -> has_rank l k v -> has_rank l' k v' -> (v == v')%Q.
Proof.
  intros Hp H H'. apply Qle_antisym.
  - eapply rank_le; eassumption.
  - eapply rank_le; [symmetry; exact Hp|eassumption|eassumption].
Qed.

(** A dictionary is returned only for a collector that holds samples,
    queried after its creation instant. *)
Lemma get_metrics_returns (now : Q) (c : t) (m : metrics) :
  get_metrics now c = Ok (Some m) ->
  latencies c <> [] /\ ~ (now == start_time c)%Q.
Proof.
  unfold get_metrics. intros H.
  destruct (latencies c) as [|x l]; [discriminate|].
  split; [discriminate|].
  destruct (Qeq_bool (now - start_time c) 0) eqn:E; [discriminate|].
  intros Hn. apply Qeq_bool_neq in E. apply E. rewrite Hn. ring.
Qed.

(** X1: in every dictionary that [get_metrics] returns, the latency
    figures read off the sorted samples are in order:
    min <= p50 <= p95 <= p99 <= max. *)
Theorem snapshot_figures_ordered (now : Q) (c : t) (m : metrics) :
  get_metrics now c = Ok (Some m) ->
  (latency_min m <= latency_p50 m)%Q /\
  (latency_p50 m <= latency_p95 m)%Q /\
  (latency_p95 m <= latency_p99 m)%Q /\
  (latency_p99 m <= latency_max m)%Q.
Proof.
  intros Hm. destruct (get_metrics_returns now c m Hm) as [Hl Hnow].
  rewrite (get_metrics_value now c Hl Hnow) in Hm. cbv zeta in Hm.
  injection Hm as <-.
  cbn [latency_min latency_p50 latency_p95 latency_p99 latency_max latency_avg].
  set (l := latencies c) in *. set (n := len l). set (s := sorted l).
  pose proof (len_pos_of_nonempty l Hl) as Hn. fold n in Hn.
  pose proof (sorted_sorted l) as Hs. fold s in Hs.
  assert (Hlen : Z.of_nat (List.length s) = n).
  { unfold s, n, len. now rewrite sorted_length. }
  assert (Hs0 : s <> []).
  { intros E. rewrite E in Hlen. simpl in Hlen. lia. }
  assert (Hb : forall pct, (0 <= pct)%Q -> (pct < 1)%Q ->
               0 <= nearest_rank_index pct n < n).
  { intros. now apply nearest_rank_index_bounds. }
  assert (Hmono : forall p q, (p <= q)%Q ->
               nearest_rank_index p n <= nearest_rank_index q n).
  { intros p q Hpq. unfold nearest_rank_index. apply Qfloor_resp_le.
    apply Qmult_le_compat_r; [exact Hpq|].
    change 0%Q with (inject_Z 0). rewrite <- Zle_Qle. lia. }
  pose proof (Hb 0.50%Q ltac:(discriminate) ltac:(reflexivity)) as B50.
  pose proof (Hb 0.95%Q ltac:(discriminate) ltac:(reflexivity)) as B95.
  pose proof (Hb 0.99%Q ltac:(discriminate) ltac:(reflexivity)) as B99.
  pose proof (Hmono 0.50%Q 0.95%Q ltac:(discriminate)) as M1.
  pose proof (Hmono 0.95%Q 0.99%Q ltac:(discriminate)) as M2.
  rewrite (last_as_nth s Hs0).
  repeat split; apply sorted_nth_le; solve [exact Hs|lia].
Qed.

Lemma snapshot_figures_ordered_witness :
  exists m,
    get_metrics 1 {| output_file := "metrics_pg.jsonl"; jobs_processed := 3;
                     latencies := [inject_Z 30; inject_Z 10; inject_Z 20];
                     start_time := 0 |} = Ok (Some m) /\
    (latency_min m <= latency_p50 m)%Q /\
    (latency_p50 m <= latency_p95 m)%Q /\
    (latency_p95 m <= latency_p99 m)%Q /\
    (latency_p99 m <= latency_max m)%Q.
Proof.
  assert (H : exists m,
    get_metrics 1 {| output_file := "metrics_pg.jsonl"; jobs_processed := 3;
                     latencies := [inject_Z 30; inject_Z 10; inject_Z 20];
                     start_time := 0 |} = Ok (Some m))
    by (eexists; vm_compute; reflexivity).
  destruct H as [m H]. exists m. split; [exact H|].
  exact (snapshot_figures_ordered 1 _ m H).
Defined.

End Snapshots.

Section SnapshotInputs.

Import MetricsCollector.

(** X2: the latency figures of a snapshot depend only on which samples
    were recorded, not on the order in which the workers recorded them:
    two collectors holding the same samples in different orders return
    equal figures. *)
Theorem snapshot_order_independent (now : Q) (c c' : t) (m : metrics) :
  Permutation (latencies c) (latencies c') ->
  start_time c' = start_time c ->
  get_metrics now c = Ok (Some m) ->
  exists m',
    get_metrics now c' = Ok (Some m') /\
    (latency_p50 m' == latency_p50 m)%Q /\
    (latency_p95 m' == latency_p95 m)%Q /\
    (latency_p99 m' == latency_p99 m)%Q /\
    (latency_min m' == latency_min m)%Q /\
    (latency_max m' == latency_max m)%Q /\
    (latency_avg m' == latency_avg m)%Q.
Proof.
  intros Hp Hst Hm. destruct (get_metrics_returns now c m Hm) as [Hl Hnow].
  assert (Hl' : latencies c' <> []).
  { intros E. rewrite E in Hp. apply Permutation_sym, Permutation_nil in Hp.
    contradiction. }
  assert (Hnow' : ~ (now == start_time c')%Q) by (now rewrite Hst).
  rewrite (get_metrics_value now c Hl Hnow) in Hm. cbv zeta in Hm.
  injection Hm as <-.
  eexists. split; [apply (get_metrics_value now c' Hl' Hnow')|].
  cbn [latency_min latency_p50 latency_p95 latency_p99 latency_max latency_avg].
  set (l := latencies c) in *. set (l' := latencies c') in *.
  assert (En : len l' = len l).
  { unfold len. now rewrite (Permutation_length Hp). }
  rewrite En. set (n := len l) in *.
  pose proof (len_pos_of_nonempty l Hl) as Hn. fold n in Hn.
  assert (Hr : forall k, 0 <= k < n ->
            (nth (Z.to_nat k) (sorted l') 0 == nth (Z.to_nat k) (sorted l) 0)%Q).
  { intros k Hk. apply (rank_unique l' l k).
    - now symmetry.
    - apply sorted_has_rank. now rewrite En.
    - now apply sorted_has_rank. }
  assert (Hb : forall pct, (0 <= pct)%Q -> (pct < 1)%Q ->
               0 <= nearest_rank_index pct n < n).
  { intros. now apply nearest_rank_index_bounds. }
  assert (Hlen : forall x, len x = n -> List.length (sorted x) = Z.to_nat n).
  { intros x Hx. rewrite sorted_length. unfold len in Hx. lia. }
  assert (Hne : forall x, len x = n -> sorted x <> []).
  { intros x Hx E. apply (f_equal (@List.length Q)) in E.
    rewrite (Hlen x Hx) in E. simpl in E. lia. }
  split; [apply Hr, Hb; reflexivity || discriminate|].
  split; [apply Hr, Hb; reflexivity || discriminate|].
  split; [apply Hr, Hb; reflexivity || discriminate|].
  split; [apply (Hr 0); lia|].
  split.
  - rewrite (last_as_nth _ (Hne l' En)), (last_as_nth _ (Hne l eq_refl)).
    rewrite (Hlen l' En), (Hlen l eq_refl).
    replace (Z.to_nat n - 1)%nat with (Z.to_nat (n - 1)) by lia.
    apply Hr. lia.
  - rewrite !sum_fold_right.
    rewrite (fold_right_Qplus_perm _ _ (sorted_perm l')).
    rewrite (fold_right_Qplus_perm _ _ (sorted_perm l)).
    rewrite (fold_right_Qplus_perm _ _ Hp). reflexivity.
Qed.

Lemma snapshot_order_independent_witness :
  let c := {| output_file := "metrics_pg.jsonl"; jobs_processed := 3;
              latencies := [inject_Z 30; inject_Z 10; inject_Z 20];
              start_time := 0 |} in
  let c' := {| output_file := "metrics_pg.jsonl"; jobs_processed := 3;
               latencies := [inject_Z 10; inject_Z 30; inject_Z 20];
               start_time := 0 |} in
  exists m m',
    get_metrics 1 c = Ok (Some m) /\
    get_metrics 1 c' = Ok (Some m') /\
    (latency_p50 m' == latency_p50 m)%Q /\
    (latency_avg m' == latency_avg m)%Q.
Proof.
  intros c c'.
  assert (H : exists m, get_metrics 1 c = Ok (Some m))
    by (eexists; vm_compute; reflexivity).
  destruct H as [m H].
  assert (Hp : Permutation (latencies c) (latencies c')) by apply perm_swap.
  destruct (snapshot_order_independent 1 c c' m Hp eq_refl H)
    as (m' & H' & E50 & _ & _ & _ & _ & Eavg).
  exists m, m'. repeat split; assumption.
Defined.

(** X3: a snapshot taken after any sequence of record calls on a new
    collector reports as [jobs_processed] the number of samples its
    latency figures were computed from, its throughput is that number
    divided by the time since the collector was created, and a snapshot
    taken after further calls never reports fewer jobs: snapshots are
    cumulative. *)
Theorem snapshot_counts_cumulative
    (output_file : string) (t0 now now' : Q) (ks ks' : list call)
    (m m' : metrics) :
  get_metrics now (do_calls ks (init output_file t0)) = Ok (Some m) ->
  get_metrics now' (do_calls (ks ++ ks') (init output_file t0)) = Ok (Some m') ->
  m_jobs_processed m = len (latencies (do_calls ks (init output_file t0))) /\
  (elapsed m == now - t0)%Q /\
  (throughput m == inject_Z (m_jobs_processed m) / (now - t0))%Q /\
  m_jobs_processed m <= m_jobs_processed m'.
Proof.
  intros Hm Hm'.
  destruct (get_metrics_returns _ _ _ Hm) as [Hl Hnow].
  destruct (get_metrics_returns _ _ _ Hm') as [Hl' Hnow'].
  rewrite (get_metrics_value _ _ Hl Hnow) in Hm.
  rewrite (get_metrics_value _ _ Hl' Hnow') in Hm'.
  cbv zeta in Hm, Hm'. injection Hm as <-. injection Hm' as <-.
  cbn [m_jobs_processed elapsed throughput].
  assert (Est : forall l, start_time (do_calls l (init output_file t0)) = t0).
  { intros l. induction l as [|k l IH] using rev_ind; [reflexivity|].
    rewrite do_calls_snoc. now destruct k. }
  rewrite Est.
  split; [apply do_calls_balanced; reflexivity|].
  split; [reflexivity|]. split; [reflexivity|].
  clear Hl Hnow Hl' Hnow'.
  induction ks' as [|k ks' IH] using rev_ind.
  - rewrite app_nil_r. lia.
  - rewrite app_assoc, do_calls_snoc.
    destruct (do_call_counts k (do_calls (ks ++ ks') (init output_file t0)))
      as [-> _].
    pose proof (len_nonneg (samples_of k)). lia.
Qed.

Lemma snapshot_counts_cumulative_witness :
  exists m m',
    get_metrics 2 (do_calls [RecordJob (inject_Z 5)] (init "metrics_pg.jsonl" 0))
      = Ok (Some m) /\
    get_metrics 3 (do_calls ([RecordJob (inject_Z 5)] ++ [RecordJobs [inject_Z 7; inject_Z 9]])
                            (init "metrics_pg.jsonl" 0)) = Ok (Some m') /\
    m_jobs_processed m = 1 /\ m_jobs_processed m <= m_jobs_processed m'.
Proof.
  assert (H : exists m,
    get_metrics 2 (do_calls [RecordJob (inject_Z 5)] (init "metrics_pg.jsonl" 0))
      = Ok (Some m)) by (eexists; vm_compute; reflexivity).
  assert (H' : exists m',
    get_metrics 3 (do_calls ([RecordJob (inject_Z 5)] ++ [RecordJobs [inject_Z 7; inject_Z 9]])
                            (init "metrics_pg.jsonl" 0)) = Ok (Some m'))
    by (eexists; vm_compute; reflexivity).
  destruct H as [m H], H' as [m' H']. exists m, m'.
  destruct (snapshot_counts_cumulative _ _ _ _ _ _ m m' H H')
    as (E & _ & _ & Hle).
  repeat split; assumption.
Defined.

End SnapshotInputs.

(* ------------------------------------------------------------------ *)
(** ** Concurrent record calls: nothing lost, nobody stuck *)

Section ConcurrentRecords.

Import MetricsCollector.

Lemma unstored_set_pc_above (K th : nat) (p : pc) (f : nat -> pc) :
  (K <= th)%nat -> unstored_below K (set_pc th p f) = unstored_below K f.
Proof.
  induction K as [|K IH]; intros H; [reflexivity|].
  cbn [unstored_below]. rewrite set_pc_other by lia. rewrite IH by lia.
  reflexivity.
Qed.

Lemma unstored_set_pc (K th : nat) (p : pc) (f : nat -> pc) :
  (th < K)%nat ->
  unstored_below K (set_pc th p f) =
    unstored_below K f - unstored (f th) + unstored p.
Proof.
  induction K as [|K IH]; intros H; [lia|].
  cbn [unstored_below]. destruct (Nat.eq_dec th K) as [->|Hne].
  - rewrite set_pc_same, unstored_set_pc_above by lia. lia.
  - rewrite set_pc_other by lia. rewrite IH by lia. lia.
Qed.

(** What one statement does to the samples stored and in flight. *)
Lemma step_accounting (K : nat) (e : event) (s s' : sys) :
  (actor e < K)%nat -> step e s = Some s' ->
  len (latencies (coll s')) + unstored_below K (pcs s') =
    len (latencies (coll s)) + unstored_below K (pcs s) +
    match e with Invoke _ k => len (samples_of k) | Step _ => 0 end.
Proof.
  intros HK Hs. destruct e as [th k|th]; cbn [actor] in HK; simpl in Hs.
  - destruct (pcs s th) eqn:E; try discriminate. injection Hs as <-.
    cbn [coll pcs]. rewrite unstored_set_pc, E by assumption. cbn. lia.
  - destruct (pcs s th) as [|l|l|l|] eqn:E; try discriminate.
    + destruct (lock s); [discriminate|]. injection Hs as <-.
      cbn [coll pcs]. rewrite unstored_set_pc, E by assumption. cbn. lia.
    + injection Hs as <-. cbn [coll pcs latencies].
      rewrite unstored_set_pc, E by assumption. cbn. lia.
    + injection Hs as <-. cbn [coll pcs latencies].
      rewrite unstored_set_pc, E, len_app by assumption. cbn. lia.
    + injection Hs as <-. cbn [coll pcs].
      rewrite unstored_set_pc, E by assumption. cbn. lia.
Qed.

Lemma exec_accounting (K : nat) (es : list event) :
  forall s, Forall (fun e => (actor e < K)%nat) es ->
    len (latencies (coll (exec es s))) + unstored_below K (pcs (exec es s)) =
      len (latencies (coll s)) + unstored_below K (pcs s) + invoked es s.
Proof.
  induction es as [|e es IH]; intros s Hall; [cbn; lia|].
  inversion Hall as [|? ? He Hes]; subst.
  rewrite exec_cons. cbn [invoked].
  destruct (step e s) as [s'|] eqn:E.
  - rewrite (IH s' Hes), (step_accounting K e s s' He E).
    destruct e; lia.
  - apply IH. exact Hes.
Qed.

Lemma actors_bounded (es : list event) :
  exists K, Forall (fun e => (actor e < K)%nat) es.
Proof.
  induction es as [|e es [K HK]]; [exists 0%nat; constructor|].
  exists (S (Nat.max (actor e) K)). constructor; [lia|].
  eapply Forall_impl; [|exact HK]. cbn. intros; lia.
Qed.

Lemma unstored_below_outside (K : nat) (f : nat -> pc) :
  (forall th, f th = Outside) -> unstored_below K f = 0.
Proof.
  intros H. induction K as [|K IH]; [reflexivity|].
  cbn [unstored_below]. rewrite H, IH. reflexivity.
Qed.

Lemma pending_set_pc_above (K th : nat) (p : pc) (f : nat -> pc) :
  (K <= th)%nat -> pending_below K (set_pc th p f) = pending_below K f.
Proof.
  induction K as [|K IH]; intros H; [reflexivity|].
  cbn [pending_below]. rewrite set_pc_other by lia. rewrite IH by lia.
  reflexivity.
Qed.

Lemma pending_set_pc (K th : nat) (p : pc) (f : nat -> pc) :
  (th < K)%nat ->
  Permutation (pending (f th) ++ pending_below K (set_pc th p f))
              (pending p ++ pending_below K f).
Proof.
  induction K as [|K IH]; intros H; [lia|].
  cbn [pending_below]. destruct (Nat.eq_dec th K) as [->|Hne].
  - rewrite set_pc_same, pending_set_pc_above by lia.
    apply Permutation_app_swap_app.
  - rewrite set_pc_other by lia.
    rewrite Permutation_app_swap_app.
    rewrite (Permutation_app_swap_app (pending p)).
    apply Permutation_app_head. apply IH. lia.
Qed.

(** What one statement does to the samples stored and in flight. *)
Lemma step_samples (K : nat) (e : event) (s s' : sys) :
  (actor e < K)%nat -> step e s = Some s' ->
  Permutation
    (latencies (coll s') ++ pending_below K (pcs s'))
    (latencies (coll s) ++ pending_below K (pcs s) ++
     match e with Invoke _ k => samples_of k | Step _ => [] end).
Proof.
  intros HK Hs. destruct e as [th k|th]; cbn [actor] in HK; simpl in Hs.
  - destruct (pcs s th) eqn:E; try discriminate. injection Hs as <-.
    cbn [coll pcs].
    pose proof (pending_set_pc K th (Waiting (samples_of k)) (pcs s) HK) as H.
    rewrite E in H. cbn [pending app] in H.
    apply Permutation_app_head. rewrite H. apply Permutation_app_comm.
  - rewrite app_nil_r.
    destruct (pcs s th) as [|l|l|l|] eqn:E; try discriminate.
    + destruct (lock s); [discriminate|]. injection Hs as <-.
      cbn [coll pcs].
      pose proof (pending_set_pc K th (Entered l) (pcs s) HK) as H.
      rewrite E in H. cbn [pending] in H.
      apply Permutation_app_head. exact (Permutation_app_inv_l _ _ _ H).
    + injection Hs as <-. cbn [coll pcs latencies].
      pose proof (pending_set_pc K th (Counted l) (pcs s) HK) as H.
      rewrite E in H. cbn [pending] in H.
      apply Permutation_app_head. exact (Permutation_app_inv_l _ _ _ H).
    + injection Hs as <-. cbn [coll pcs latencies].
      pose proof (pending_set_pc K th Stored (pcs s) HK) as H.
      rewrite E in H. cbn [pending app] in H.
      rewrite <- app_assoc. apply Permutation_app_head. exact H.
    + injection Hs as <-. cbn [coll pcs].
      pose proof (pending_set_pc K th Outside (pcs s) HK) as H.
      rewrite E in H. cbn [pending app] in H.
      apply Permutation_app_head. exact H.
Qed.

Lemma exec_samples (K : nat) (es : list event) :
  forall s, Forall (fun e => (actor e < K)%nat) es ->
    Permutation
      (latencies (coll (exec es s)) ++ pending_below K (pcs (exec es s)))
      (latencies (coll s) ++ pending_below K (pcs s) ++ invoked_samples es s).
Proof.
  induction es as [|e es IH]; intros s Hall.
  - cbn. rewrite app_nil_r. reflexivity.
  - inversion Hall as [|? ? He Hes]; subst.
    rewrite exec_cons. cbn [invoked_samples].
    destruct (step e s) as [s'|] eqn:E.
    + rewrite (IH s' Hes). rewrite app_assoc.
      rewrite (step_samples K e s s' He E). rewrite <- !app_assoc.
      destruct e; [|rewrite app_nil_l]; reflexivity.
    + apply IH. exact Hes.
Qed.

Lemma pending_below_outside (K : nat) (f : nat -> pc) :
  (forall th, f th = Outside) -> pending_below K f = [].
Proof.
  intros H. induction K as [|K IH]; [reflexivity|].
  cbn [pending_below]. rewrite H, IH. reflexivity.
Qed.

(** X4: threads that call [record_job] and [record_jobs] concurrently on
    one new collector lose no update: whatever the interleaving of their
    statements, once every call has returned the latency list holds
    exactly the samples that the calls were given (each sample as often
    as it was given, in some order), [jobs_processed] is their number,
    and the lock is free. *)
Theorem concurrent_records_not_lost
    (output_file : string) (now : Q) (es : list event) :
  let s := exec es (fresh output_file now) in
  (forall th, pcs s th = Outside) ->
  Permutation (latencies (coll s))
              (invoked_samples es (fresh output_file now)) /\
  len (latencies (coll s)) = invoked es (fresh output_file now) /\
  jobs_processed (coll s) = invoked es (fresh output_file now) /\
  lock s = None.
Proof.
  intros s Hq.
  destruct (actors_bounded es) as [K HK].
  pose proof (exec_accounting K es (fresh output_file now) HK) as H.
  fold s in H. rewrite (unstored_below_outside K (pcs s) Hq) in H.
  rewrite (unstored_below_outside K) in H by reflexivity.
  cbn [fresh coll init latencies] in H. unfold len at 2 in H. simpl in H.
  pose proof (exec_samples K es (fresh output_file now) HK) as P.
  fold s in P. rewrite (pending_below_outside K (pcs s) Hq) in P.
  rewrite (pending_below_outside K) in P by reflexivity.
  cbn [fresh coll init latencies app] in P. rewrite app_nil_r in P.
  assert (Hc : consistent s) by apply exec_consistent, fresh_consistent.
  assert (Hl : lock s = None).
  { destruct (lock s) as [h|] eqn:El; [|reflexivity]. exfalso.
    unfold consistent in Hc. rewrite El in Hc. destruct Hc as [_ Hc].
    now rewrite Hq in Hc. }
  unfold consistent in Hc. rewrite Hl in Hc. destruct Hc as [Hb _].
  split; [exact P|]. repeat split; [lia|lia|exact Hl].
Qed.

Lemma concurrent_records_not_lost_witness :
  let es := [Invoke 0 (RecordJob (inject_Z 5));
             Invoke 1 (RecordJobs [inject_Z 7; inject_Z 9]);
             Step 1; Step 0; Step 1; Step 1; Step 1;
             Step 0; Step 0; Step 0; Step 0] in
  let s := exec es (fresh "metrics_valkey.jsonl" 0) in
  Permutation (latencies (coll s)) [inject_Z 5; inject_Z 7; inject_Z 9] /\
  len (latencies (coll s)) = 3 /\ jobs_processed (coll s) = 3 /\
  lock s = None.
Proof.
  intros es s.
  assert (Hq : forall th, pcs s th = Outside).
  { intros th. destruct th as [|[|th]]; reflexivity. }
  exact (concurrent_records_not_lost "metrics_valkey.jsonl" 0 es Hq).
Defined.

(** X5: the lock never leaves the threads stuck: in every state that
    concurrent record calls can reach, if some thread is inside a call
    then some thread can execute its next statement. *)
Theorem record_calls_never_stuck
    (output_file : string) (now : Q) (es : list event) (th : nat) :
  let s := exec es (fresh output_file now) in
  pcs s th <> Outside ->
  exists th', step (Step th') s <> None.
Proof.
  intros s Hth.
  assert (Hc : consistent s) by apply exec_consistent, fresh_consistent.
  unfold consistent in Hc. destruct (lock s) as [h|] eqn:El.
  - exists h. destruct Hc as [_ Hh]. cbn [step].
    destruct (pcs s h); try contradiction; discriminate.
  - exists th. destruct Hc as [_ Hall]. specialize (Hall th). cbn [step].
    destruct (pcs s th); try contradiction.
    + rewrite El. discriminate.
Qed.

Lemma record_calls_never_stuck_witness :
  let s := exec [Invoke 0 (RecordJob (inject_Z 5));
                 Invoke 1 (RecordJob (inject_Z 6)); Step 1; Step 0]
                (fresh "metrics_valkey.jsonl" 0) in
  pcs s 0%nat <> Outside /\ exists th', step (Step th') s <> None.
Proof.
  intros s.
  assert (H : pcs s 0%nat <> Outside) by discriminate.
  split; [exact H|].
  exact (record_calls_never_stuck "metrics_valkey.jsonl" 0 _ 0%nat H).
Defined.

End ConcurrentRecords.

(* ------------------------------------------------------------------ *)
(** ** The producer, whatever the backend answers *)

Section ProducerAnyOutcome.

Import Producer.

Lemma make_jobs_length (n : nat) :
  forall (jobs : list job) (s : t),
    List.length (fst (make_jobs n jobs s)) = (List.length jobs + n)%nat.
Proof.
  induction n as [|n IH]; intros jobs s; cbn [make_jobs]; [cbn; lia|].
  destruct (randint 0 10 s) as [priority s1].
  destruct (queue_type s1).
  - rewrite IH, length_app. cbn. lia.
  - rewrite IH, length_app. cbn. lia.
  - destruct (randint 0 15 s1) as [pk s2].
    rewrite IH, length_app. cbn. lia.
Qed.

Lemma randint_range (a b : Z) (s : t) :
  a <= b -> a <= fst (randint a b s) <= b.
Proof.
  intros H. unfold randint. destruct (random s) as [|x r]; cbn; [lia|].
  pose proof (Z.mod_pos_bound x (b - a + 1) ltac:(lia)). lia.
Qed.

Lemma make_jobs_rows (n : nat) :
  forall (jobs : list job) (s : t),
    Forall (well_formed_row (queue_type s) (jobs_produced s)) jobs ->
    Forall (well_formed_row (queue_type s) (jobs_produced s))
           (fst (make_jobs n jobs s)).
Proof.
  induction n as [|n IH]; intros jobs s Hj; cbn [make_jobs]; [exact Hj|].
  pose proof (randint_range 0 10 s ltac:(lia)) as Hp.
  pose proof (randint_frame 0 10 s) as F1.
  destruct (randint 0 10 s) as [priority s1]. cbn [fst snd] in Hp, F1.
  destruct F1 as (_ & Fq1 & _ & _ & _ & Fj1 & _).
  assert (IH1 : forall jobs',
             Forall (well_formed_row (queue_type s) (jobs_produced s)) jobs' ->
             Forall (well_formed_row (queue_type s) (jobs_produced s))
                    (fst (make_jobs n jobs' s1))).
  { rewrite <- Fq1, <- Fj1. intros jobs' H'. apply IH. exact H'. }
  pose proof (randint_range 0 15 s1 ltac:(lia)) as Hk.
  pose proof (randint_frame 0 15 s1) as F2.
  destruct (randint 0 15 s1) as [pk s2]. cbn [fst snd] in Hk, F2.
  destruct F2 as (_ & Fq2 & _ & _ & _ & Fj2 & _).
  assert (IH2 : forall jobs',
             Forall (well_formed_row (queue_type s) (jobs_produced s)) jobs' ->
             Forall (well_formed_row (queue_type s) (jobs_produced s))
                    (fst (make_jobs n jobs' s2))).
  { rewrite <- Fq1, <- Fj1, <- Fq2, <- Fj2. intros jobs' H'. apply IH. exact H'. }
  destruct (queue_type s1) eqn:Eq.
  - apply IH1, Forall_app. split; [exact Hj|]. constructor; [|constructor].
    rewrite <- Fq1. repeat split; cbn; lia.
  - apply IH1, Forall_app. split; [exact Hj|]. constructor; [|constructor].
    rewrite <- Fq1. repeat split; cbn; lia.
  - apply IH2, Forall_app. split; [exact Hj|]. constructor; [|constructor].
    rewrite <- Fq1. repeat split; cbn; try lia.
    exists pk. split; [reflexivity|lia].
Qed.

Lemma pg_issue_effect (c : connection) :
  table (snd (pg_issue c)) = table c /\
  in_transaction (snd (pg_issue c)) = in_transaction c.
Proof. unfold pg_issue. destruct (pg_faults c); split; reflexivity. Qed.

(** A batch that leaves [produce_pg_batch] by a [return], whatever the
    connection answered: it is stored and counted, or neither. *)
Lemma produce_pg_batch_any (batch_size : Z) (s s' : t) (n : Z) :
  0 <= batch_size ->
  produce_pg_batch batch_size s = (Ok n, s') ->
  ((n = 0 /\ jobs_produced s' = jobs_produced s /\
    table (conn s') = table (conn s) /\
    exists e, stdout s' = stdout s ++ [ErrorProducingBatch e]) \/
   (n = batch_size /\
    jobs_produced s' = jobs_produced s + batch_size /\
    stdout s' = stdout s /\
    exists jobs,
      table (conn s') = table (conn s) ++ in_transaction (conn s) ++ jobs /\
      len jobs = batch_size /\
      Forall (well_formed_row (queue_type s) (jobs_produced s)) jobs)) /\
  in_transaction (conn s') = [] /\
  same_settings s s' /\
  clock s' = clock s /\ valkey s' = valkey s /\
  start_time s' = start_time s.
Proof.
  intros Hbs. unfold produce_pg_batch, cursor.
  pose proof (pg_issue_effect (conn s)) as [T0 I0].
  destruct (pg_issue (conn s)) as [[e0|] c0]; [discriminate|].
  cbn [snd] in T0, I0.
  pose proof (make_jobs_frame (Z.to_nat batch_size) [] (set_conn c0 s)) as Hs.
  pose proof (make_jobs_length (Z.to_nat batch_size) [] (set_conn c0 s)) as Hl.
  pose proof (make_jobs_rows (Z.to_nat batch_size) [] (set_conn c0 s)
                (Forall_nil _)) as Hr.
  destruct (make_jobs (Z.to_nat batch_size) [] (set_conn c0 s)) as [jobs s1].
  cbn [fst snd] in Hs, Hl, Hr.
  destruct Hs as (Hb & Hq & Hra & Hd & Ht & Hj & Hst & Hc & Hv & Hck & Ho).
  cbn [backend queue_type rate duration total_jobs jobs_produced start_time
       conn valkey clock stdout set_conn] in *.
  assert (Hlen : len jobs = batch_size) by (unfold len; rewrite Hl; cbn; lia).
  assert (Hfail : forall (e : exn) (c : connection),
             table c = table (conn s) ->
             on_exception e c s1 = (Ok n, s') ->
             ((n = 0 /\ jobs_produced s' = jobs_produced s /\
               table (conn s') = table (conn s) /\
               exists e, stdout s' = stdout s ++ [ErrorProducingBatch e]) \/
              (n = batch_size /\
               jobs_produced s' = jobs_produced s + batch_size /\
               stdout s' = stdout s /\
               exists jobs,
                 table (conn s') =
                   table (conn s) ++ in_transaction (conn s) ++ jobs /\
                 len jobs = batch_size /\
                 Forall (well_formed_row (queue_type s) (jobs_produced s)) jobs)) /\
             in_transaction (conn s') = [] /\
             same_settings s s' /\
             clock s' = clock s /\ valkey s' = valkey s /\
             start_time s' = start_time s).
  { intros e c Tc. unfold on_exception, rollback.
    pose proof (pg_issue_effect c) as [T I].
    destruct (pg_issue c) as [[e'|] c']; [discriminate|].
    cbn [snd] in T, I. intros E. injection E as <- <-.
    cbn [conn set_conn print jobs_produced stdout table in_transaction
         clock valkey start_time].
    split; [left|unfold same_settings;
                 cbn [backend queue_type rate duration total_jobs print set_conn];
                 repeat split; assumption].
    split; [reflexivity|]. split; [exact Hj|]. split; [congruence|].
    exists e. now rewrite Ho. }
  unfold execute_values. rewrite Hc.
  pose proof (pg_issue_effect c0) as [T1 I1].
  destruct (pg_issue c0) as [[e1|] c1]; cbn [snd] in T1, I1.
  - apply Hfail. congruence.
  - unfold commit.
    match goal with |- context [pg_issue ?c] =>
      pose proof (pg_issue_effect c) as [T2 I2];
      destruct (pg_issue c) as [[e2|] c2]
    end; cbn [snd table in_transaction] in T2, I2.
    + apply Hfail. congruence.
    + intros E. injection E as <- <-.
      cbn [conn set_conn set_jobs_produced jobs_produced stdout table
           in_transaction clock valkey start_time].
      split; [right|unfold same_settings;
                    cbn [backend queue_type rate duration total_jobs
                         set_jobs_produced set_conn];
                    repeat split; assumption].
      split; [reflexivity|]. split; [now rewrite Hj|]. split; [exact Ho|].
      exists jobs. split; [|split; [exact Hlen|exact Hr]].
      rewrite T2, I2, T1, I1, T0, I0. reflexivity.
Qed.

Lemma produce_valkey_batch_any (batch_size : Z) (s : t) :
  0 <= batch_size ->
  let r := produce_valkey_batch batch_size s in
  ((fst r = 0 /\ jobs_produced (snd r) = jobs_produced s /\
    Valkey.stream (valkey (snd r)) = Valkey.stream (valkey s) /\
    exists e, stdout (snd r) = stdout s ++ [ErrorProducingBatch e]) \/
   (fst r = batch_size /\
    jobs_produced (snd r) = jobs_produced s + batch_size /\
    stdout (snd r) = stdout s /\
    exists entries,
      Valkey.stream (valkey (snd r)) = Valkey.stream (valkey s) ++ entries /\
      len entries = batch_size /\
      Forall (fun m => Valkey.created_at m = Valkey.IsoCreatedAt (clock s))
             entries)) /\
  Valkey.group (valkey (snd r)) = Valkey.group (valkey s) /\
  Valkey.trace (valkey (snd r)) =
    Valkey.trace (valkey s) ++ [Valkey.XAdd batch_size] /\
  same_settings s (snd r) /\
  clock (snd r) = clock s /\ conn (snd r) = conn s /\
  start_time (snd r) = start_time s.
Proof.
  intros Hbs. unfold produce_valkey_batch.
  pose proof (draw_priorities_frame (Z.to_nat batch_size) s) as Hs.
  set (s1 := draw_priorities (Z.to_nat batch_size) s) in *.
  destruct Hs as (Hb & Hq & Hra & Hd & Ht & Hj & Hst & Hc & Hv & Hck & Ho).
  unfold Valkey.xadd_pipeline, Valkey.issue. rewrite Hv, Hck.
  destruct (Valkey.faults (valkey s)) as [|[e|] fs];
    cbn [fst snd print set_valkey set_jobs_produced jobs_produced conn stdout
         clock valkey start_time Valkey.stream Valkey.group Valkey.trace
         Valkey.faults].
  all: split; [| repeat split; assumption].
  all: first
         [ left; split; [reflexivity|]; split; [assumption|];
           split; [reflexivity|]; eexists; rewrite Ho; reflexivity
         | right; split; [reflexivity|]; split; [now rewrite Hj|];
           split; [assumption|]; eexists; split; [reflexivity|]; split;
           [ unfold len; rewrite length_map, range_length; lia
           | apply Forall_forall; intros m Hm; apply in_map_iff in Hm;
             destruct Hm as (i & <- & _); reflexivity ] ].
Qed.

Lemma Qlt_bool_cases (x y : Q) :
  (Qlt_bool x y = true /\ (x < y)%Q) \/ (Qlt_bool x y = false /\ (y <= x)%Q).
Proof.
  unfold Qlt_bool. destruct (Qle_bool y x) eqn:E.
  - right. split; [reflexivity|]. now apply Qle_bool_iff.
  - left. split; [reflexivity|]. apply Qnot_le_lt. intros H.
    apply Qle_bool_iff in H. congruence.
Qed.

(** One turn of the loop that ends without an exception, whatever the
    backend answered: the batch is stored and counted, or neither. *)
Lemma iteration_any (batch_size : Z) (interval start next next' : Q)
      (s s' : t) :
  1 <= batch_size ->
  iteration batch_size interval start next s = (Ok next', s') ->
  (jobs_produced s' = jobs_produced s \/
   jobs_produced s' = jobs_produced s + batch_size) /\
  (in_transaction (conn s) = [] ->
   stored_jobs s' - stored_jobs s = jobs_produced s' - jobs_produced s) /\
  (backend s = Pg \/ in_transaction (conn s) = [] ->
   in_transaction (conn s') = []) /\
  same_settings s s'.
Proof.
  intros Hbs. unfold iteration.
  assert (Hp : forall n s1,
             match backend s with
             | Pg => produce_pg_batch batch_size s
             | ValkeyStreams =>
               let (n, s') := produce_valkey_batch batch_size s in (Ok n, s')
             end = (Ok n, s1) ->
             (jobs_produced s1 = jobs_produced s \/
              jobs_produced s1 = jobs_produced s + batch_size) /\
             (in_transaction (conn s) = [] ->
              stored_jobs s1 - stored_jobs s =
                jobs_produced s1 - jobs_produced s) /\
             (backend s = Pg \/ in_transaction (conn s) = [] ->
              in_transaction (conn s1) = []) /\
             same_settings s s1).
  { intros n s1. unfold stored_jobs. destruct (backend s) eqn:Eb.
    - intros E.
      destruct (produce_pg_batch_any batch_size s s1 n ltac:(lia) E)
        as (Hc & Htx' & Hset & _).
      pose proof Hset as (Eb' & _). rewrite Eb', Eb.
      split; [|split; [|split; [intros _; exact Htx'|exact Hset]]].
      + destruct Hc as [(_ & Ej & _)|(_ & Ej & _)]; [now left|now right].
      + intros Htx.
        destruct Hc as [(_ & Ej & Et & _)|(_ & Ej & _ & jobs & Et & El & _)];
          rewrite Ej, Et; [lia|].
        rewrite Htx. unfold len in *. rewrite length_app. cbn [app]. lia.
    - pose proof (produce_valkey_batch_any batch_size s ltac:(lia)) as H.
      cbv zeta in H.
      destruct (produce_valkey_batch batch_size s) as [n0 s0].
      cbn [fst snd] in H. intros E. injection E as _ <-.
      destruct H as (Hc & _ & _ & Hset & _ & Hcn & _).
      pose proof Hset as (Eb' & _). rewrite Eb', Eb.
      split; [|split; [|split; [|exact Hset]]].
      + destruct Hc as [(_ & Ej & _)|(_ & Ej & _)]; [now left|now right].
      + intros _.
        destruct Hc as [(_ & Ej & Et & _)|(_ & Ej & _ & es & Et & El & _)];
          rewrite Ej, Et; [lia|].
        unfold len in *. rewrite length_app. lia.
      + intros [H|H]; [discriminate|]. now rewrite Hcn. }
  destruct (match backend s with
            | Pg => produce_pg_batch batch_size s
            | ValkeyStreams =>
              let (n, s') := produce_valkey_batch batch_size s in (Ok n, s')
            end) as [[n|e] s1]; [|discriminate].
  destruct (Hp n s1 eq_refl) as (Hj & Hst & Htx1 & Hset).
  intros E. injection E as _ <-.
  repeat match goal with |- context [if ?b then _ else _] => destruct b end;
    unfold same_settings, stored_jobs in *;
    cbn [jobs_produced conn valkey backend queue_type rate duration total_jobs
         print sleep set_clock] in *;
    (split; [exact Hj|]); (split; [exact Hst|]); (split; [exact Htx1|]);
    exact Hset.
Qed.

(** A Valkey batch that fails uses up one of the failures in store. *)
Lemma produce_valkey_batch_progress (batch_size : Z) (s : t) :
  let r := produce_valkey_batch batch_size s in
  (jobs_produced (snd r) = jobs_produced s + batch_size /\
   (failures (Valkey.faults (valkey (snd r)))
    <= failures (Valkey.faults (valkey s)))%nat) \/
  (jobs_produced (snd r) = jobs_produced s /\
   (failures (Valkey.faults (valkey (snd r)))
    < failures (Valkey.faults (valkey s)))%nat).
Proof.
  unfold produce_valkey_batch.
  pose proof (draw_priorities_frame (Z.to_nat batch_size) s) as Hs.
  set (s1 := draw_priorities (Z.to_nat batch_size) s) in *.
  destruct Hs as (_ & _ & _ & _ & _ & Hj & _ & Hc & Hv & _).
  unfold Valkey.xadd_pipeline, Valkey.issue. rewrite Hv.
  destruct (Valkey.faults (valkey s)) as [|[e|] fs];
    cbn [fst snd print set_valkey set_jobs_produced jobs_produced conn
         valkey Valkey.faults failures];
    rewrite Hj; lia.
Qed.

(** On the Valkey backend no exception leaves a turn of the loop. *)
Lemma iteration_progress (batch_size : Z) (interval start next : Q) (s : t) :
  1 <= batch_size -> backend s = ValkeyStreams ->
  exists next' s',
    iteration batch_size interval start next s = (Ok next', s') /\
    backend s' = ValkeyStreams /\ total_jobs s' = total_jobs s /\
    ((jobs_produced s' = jobs_produced s + batch_size /\
      (failures (Valkey.faults (valkey s'))
       <= failures (Valkey.faults (valkey s)))%nat) \/
     (jobs_produced s' = jobs_produced s /\
      (failures (Valkey.faults (valkey s'))
       < failures (Valkey.faults (valkey s)))%nat)).
Proof.
  intros Hbs Hb. unfold iteration. rewrite Hb.
  pose proof (produce_valkey_batch_progress batch_size s) as Hp.
  pose proof (produce_valkey_batch_any batch_size s ltac:(lia)) as Ha.
  cbv zeta in Hp, Ha.
  destruct (produce_valkey_batch batch_size s) as [n s1].
  cbn [fst snd] in Hp, Ha.
  destruct Ha as (_ & _ & _ & (Eb & _ & _ & _ & Et) & _).
  eexists. eexists. split; [reflexivity|].
  repeat match goal with |- context [if ?b then _ else _] => destruct b end;
    cbn [jobs_produced valkey backend total_jobs print sleep set_clock];
    (split; [congruence|]); (split; [exact Et|]); exact Hp.
Qed.

(** What the loop of [run] has done when it ends without an exception,
    whatever the backend answered on the way. *)
Lemma run_loop_any (batch_size : Z) (interval start : Q) :
  1 <= batch_size ->
  forall (fuel : nat) (next : Q) (s s' : t),
    run_loop fuel batch_size interval start next s = Some (None, s') ->
    total_jobs s <= jobs_produced s' /\
    (exists m, jobs_produced s' = jobs_produced s + Z.of_nat m * batch_size) /\
    (jobs_produced s < total_jobs s + batch_size ->
     jobs_produced s' < total_jobs s + batch_size) /\
    same_settings s s' /\
    (in_transaction (conn s) = [] ->
     stored_jobs s' - stored_jobs s = jobs_produced s' - jobs_produced s /\
     in_transaction (conn s') = []).
Proof.
  intros Hbs. induction fuel as [|fuel IH]; intros next s s' Hrun;
    cbn [run_loop] in Hrun;
    destruct (Z.ltb_spec (jobs_produced s) (total_jobs s)) as [Hlt|Hge];
    try discriminate.
  - injection Hrun as <-. split; [lia|]. split; [exists 0%nat; lia|].
    split; [tauto|]. split; [repeat split|]. intros Htx. split; [lia|exact Htx].
  - destruct (iteration batch_size interval start next s) as [[next1|e] s1] eqn:Ei;
      [|discriminate].
    destruct (iteration_any batch_size interval start next next1 s s1 Hbs Ei)
      as (Hj & Hst & Htx1 & Hset).
    destruct (IH next1 s1 s' Hrun) as (Hex & [m Hm] & Hbound & Hset' & Hst').
    destruct Hset as (Eb & Eq & Er & Ed & Et).
    destruct Hset' as (Eb' & Eq' & Er' & Ed' & Et').
    rewrite Et in Hex, Hbound.
    split; [exact Hex|]. split.
    { destruct Hj as [E|E]; [exists m|exists (S m)]; lia. }
    split; [intros _; apply Hbound; lia|].
    split; [repeat split; congruence|].
    intros Htx. specialize (Hst Htx). specialize (Htx1 (or_intror Htx)).
    destruct (Hst' Htx1) as (Hs1 & Htx'). split; [|exact Htx'].
    unfold stored_jobs in Hst, Hs1 |- *. rewrite Eb' in Hs1 |- *.
    rewrite Eb in Hst, Hs1 |- *. lia.
  - injection Hrun as <-. split; [lia|]. split; [exists 0%nat; lia|].
    split; [tauto|]. split; [repeat split|]. intros Htx. split; [lia|exact Htx].
Qed.

(** On the Valkey backend the loop ends as soon as the failures in
    store are used up and the missing batches are written. *)
Lemma run_loop_ends_any (batch_size : Z) (interval start : Q) :
  1 <= batch_size ->
  forall (fuel k : nat) (next : Q) (s : t),
    backend s = ValkeyStreams ->
    (failures (Valkey.faults (valkey s)) + k <= fuel)%nat ->
    total_jobs s - jobs_produced s <= Z.of_nat k * batch_size ->
    exists s', run_loop fuel batch_size interval start next s = Some (None, s').
Proof.
  intros Hbs. induction fuel as [|fuel IH]; intros k next s Hb Hfuel Hleft;
    cbn [run_loop];
    destruct (Z.ltb_spec (jobs_produced s) (total_jobs s)) as [Hlt|Hge];
    try (eexists; reflexivity).
  - assert (k = 0%nat) by lia. subst k. lia.
  - destruct (iteration_progress batch_size interval start next s Hbs Hb)
      as (next1 & s1 & -> & Hb1 & Et & Hp).
    destruct Hp as [[Hj Hf]|[Hj Hf]].
    + destruct k as [|k]; [lia|].
      apply (IH k); [exact Hb1|lia|]. rewrite Et, Hj. lia.
    + apply (IH k); [exact Hb1|lia|]. rewrite Et, Hj. lia.
Qed.

Lemma run_finished_inv (fuel : nat) (s0 s : t) :
  run fuel s0 = Finished s ->
  rate s0 <> 0 /\
  exists s2,
    run_loop fuel (batch_size_of (rate s0))
             (inject_Z (batch_size_of (rate s0)) / inject_Z (rate s0))%Q
             (clock s0) (clock s0)
             (set_start_time (Some (clock s0))
                (print (Header (rate s0) (duration s0) (total_jobs s0)) s0))
      = Some (None, s2) /\
    s = print (Summary (jobs_produced s2) (clock s2 - clock s0)
                       (if Qlt_bool 0 (clock s2 - clock s0)
                        then inject_Z (jobs_produced s2) / (clock s2 - clock s0)
                        else 0)%Q) s2.
Proof.
  unfold run. cbn [rate clock print set_start_time].
  destruct (Z.eqb_spec (rate s0) 0) as [|Hr]; [discriminate|].
  destruct (run_loop _ _ _ _ _ _) as [[[e|] s2]|]; try discriminate.
  intros H. injection H as <-. split; [exact Hr|].
  exists s2. split; reflexivity.
Qed.

Lemma batch_size_of_pos (r : Z) : 1 <= batch_size_of r.
Proof. unfold batch_size_of. lia. Qed.

(** X6: [jobs_produced] counts the jobs that the backend holds.  When
    a run starts with no transaction open and returns, the rows of the
    queue table (the entries of the stream, for Valkey) have grown by
    exactly the growth of [jobs_produced], whatever batches failed on
    the way, and no transaction is left open. *)
Theorem producer_counts_stored_jobs (fuel : nat) (s0 s : t) :
  in_transaction (conn s0) = [] ->
  run fuel s0 = Finished s ->
  stored_jobs s = stored_jobs s0 + (jobs_produced s - jobs_produced s0) /\
  jobs_produced s0 <= jobs_produced s /\
  in_transaction (conn s) = [].
Proof.
  intros Htx Hrun.
  destruct (run_finished_inv fuel s0 s Hrun) as (_ & s2 & Hloop & ->).
  destruct (run_loop_any _ _ _ (batch_size_of_pos (rate s0)) _ _ _ _ Hloop)
    as (_ & [m Hm] & _ & (Eb & _) & Hst).
  cbn [jobs_produced conn print set_start_time backend] in Hm, Hst, Eb.
  destruct (Hst Htx) as (Hs & Htx').
  unfold stored_jobs in *.
  cbn [jobs_produced conn valkey backend print set_start_time] in *.
  rewrite Eb in *.
  pose proof (batch_size_of_pos (rate s0)).
  split; [lia|]. split; [nia|exact Htx'].
Qed.

Lemma producer_counts_stored_jobs_witness :
  let boom := Exn "deadlock detected" in
  let c := {| table := [{| partition_key := None; payload_id := 7; priority := 1 |}];
              in_transaction := [];
              pg_faults := [None; None; Some boom; None;
                            None; Some boom; None] |} in
  let s0 := init Pg SkipLocked 2 3 c empty_server 0 [5; 9] in
  exists s,
    run 20 s0 = Finished s /\
    stored_jobs s = stored_jobs s0 + (jobs_produced s - jobs_produced s0) /\
    jobs_produced s0 <= jobs_produced s /\
    in_transaction (conn s) = [].
Proof.
  intros boom c s0.
  assert (H : exists s, run 20 s0 = Finished s)
    by (eexists; vm_compute; reflexivity).
  destruct H as [s H]. exists s. split; [exact H|].
  apply (producer_counts_stored_jobs 20 s0 s); [reflexivity|exact H].
Defined.

(** X7: on the Valkey backend failed batches delay a run but do not
    change what it delivers.  Every call of [produce_valkey_batch] is
    inside its [try], so with a nonzero rate, a positive total and
    nothing produced yet, a run in which at most [k] pipelines raise
    returns within [k + ceil(total / batch_size)] turns of the loop,
    with [jobs_produced] the first multiple of the batch size that
    reaches the total: every batch that failed has been made up for. *)
Theorem producer_finishes_despite_failures (fuel : nat) (s0 : t) :
  let bs := batch_size_of (rate s0) in
  backend s0 = ValkeyStreams ->
  rate s0 <> 0 -> 1 <= total_jobs s0 -> jobs_produced s0 = 0 ->
  (failures (Valkey.faults (valkey s0))
   + Z.to_nat (ceil_div (total_jobs s0) bs) <= fuel)%nat ->
  exists s,
    run fuel s0 = Finished s /\
    jobs_produced s = bs * ceil_div (total_jobs s0) bs /\
    total_jobs s0 <= jobs_produced s < total_jobs s0 + bs.
Proof.
  intros bs Hb Hr Htot Hj0 Hfuel.
  assert (Hbs : 1 <= bs) by apply batch_size_of_pos.
  pose proof (ceil_div_bounds (total_jobs s0) bs Hbs) as Hc.
  unfold run. cbn [rate clock print set_start_time].
  destruct (Z.eqb_spec (rate s0) 0) as [|_]; [contradiction|].
  fold bs.
  match goal with |- context [run_loop fuel bs ?i ?st ?nx ?s1] =>
    destruct (run_loop_ends_any bs i st Hbs fuel
                (Z.to_nat (ceil_div (total_jobs s0) bs)) nx s1)
      as (s' & Hrun);
    [ exact Hb | exact Hfuel
    | cbn [total_jobs jobs_produced print set_start_time]; rewrite Hj0; nia
    | rewrite Hrun;
      destruct (run_loop_any bs i st Hbs fuel nx s1 s' Hrun)
        as (Hreach & [m Hm] & Hbound & _) ]
  end.
  cbn [total_jobs jobs_produced print set_start_time] in Hreach, Hbound, Hm.
  rewrite Hj0 in Hbound, Hm. specialize (Hbound ltac:(lia)).
  eexists. split; [reflexivity|]. cbn [jobs_produced print].
  assert (Em : Z.of_nat m = ceil_div (total_jobs s0) bs).
  { apply (multiple_in_window (total_jobs s0) bs); lia. }
  split; [lia|lia].
Qed.

Lemma producer_finishes_despite_failures_witness :
  let boom := Exn "connection reset" in
  let v := {| Valkey.stream := []; Valkey.group := None;
              Valkey.faults := [None; Some boom; Some boom; None; Some boom];
              Valkey.trace := [] |} in
  let s0 := init ValkeyStreams SkipLocked 250 2 empty_connection v 0 [4; 7] in
  exists s,
    run 300 s0 = Finished s /\
    jobs_produced s =
      batch_size_of (rate s0) *
      ceil_div (total_jobs s0) (batch_size_of (rate s0)) /\
    total_jobs s0 <= jobs_produced s
      < total_jobs s0 + batch_size_of (rate s0).
Proof.
  intros boom v s0.
  apply (producer_finishes_despite_failures 300 s0).
  - reflexivity.
  - vm_compute. discriminate.
  - vm_compute. discriminate.
  - reflexivity.
  - apply Nat.leb_le. vm_compute. reflexivity.
Defined.

(** X9: the rows of a PostgreSQL batch.  When [produce_pg_batch]
    returns the batch size, with no transaction open before, the table
    has gained exactly [batch_size] rows, at its end, and each of them
    has a priority in 0..10, a partition key in 0..15 for the
    partitioned queue and none for the others, and a payload whose id is
    the value of [jobs_produced] before the batch: all rows of one batch
    carry the same id. *)
Theorem pg_batch_rows (batch_size : Z) (s : t) :
  1 <= batch_size -> in_transaction (conn s) = [] ->
  let r := produce_pg_batch batch_size s in
  fst r = Ok batch_size ->
  exists jobs,
    table (conn (snd r)) = table (conn s) ++ jobs /\
    len jobs = batch_size /\
    Forall (well_formed_row (queue_type s) (jobs_produced s)) jobs /\
    jobs_produced (snd r) = jobs_produced s + batch_size /\
    stdout (snd r) = stdout s.
Proof.
  intros Hbs Htx r Hret. subst r.
  destruct (produce_pg_batch batch_size s) as [produced s'] eqn:Ep.
  cbn [fst snd] in *. subst produced.
  destruct (produce_pg_batch_any batch_size s s' batch_size ltac:(lia) Ep)
    as (Hc & _).
  destruct Hc as [(H0 & _)|(_ & Hj & Ho & jobs & Et & El & Hw)]; [lia|].
  exists jobs. rewrite Htx in Et. cbn [app] in Et.
  repeat split; assumption.
Qed.

Lemma pg_batch_rows_witness :
  let s := init Pg Partitioned 300 1 empty_connection empty_server 0
                [14; 35; 2; 16] in
  exists jobs,
    table (conn (snd (produce_pg_batch 3 s))) = table (conn s) ++ jobs /\
    len jobs = 3 /\
    Forall (well_formed_row (queue_type s) (jobs_produced s)) jobs /\
    jobs_produced (snd (produce_pg_batch 3 s)) = jobs_produced s + 3 /\
    stdout (snd (produce_pg_batch 3 s)) = stdout s.
Proof.
  intros s.
  apply (pg_batch_rows 3 s); [lia|reflexivity|reflexivity].
Defined.

(** X10: a Valkey batch is written as a whole or not at all.
    [produce_valkey_batch] sends one pipeline; when it raises, 0 is
    returned, the stream and [jobs_produced] are as before and the error
    is printed; otherwise the batch size is returned, [jobs_produced]
    has grown by it, nothing is printed and the stream has gained
    [batch_size] entries at its end, each with a [created_at] field that
    holds the time of the call. *)
Theorem valkey_batch_all_or_nothing (batch_size : Z) (s : t) :
  0 <= batch_size ->
  let r := produce_valkey_batch batch_size s in
  Valkey.trace (valkey (snd r)) =
    Valkey.trace (valkey s) ++ [Valkey.XAdd batch_size] /\
  ((fst r = 0 /\ jobs_produced (snd r) = jobs_produced s /\
    Valkey.stream (valkey (snd r)) = Valkey.stream (valkey s) /\
    exists e, stdout (snd r) = stdout s ++ [ErrorProducingBatch e]) \/
   (fst r = batch_size /\
    jobs_produced (snd r) = jobs_produced s + batch_size /\
    stdout (snd r) = stdout s /\
    exists entries,
      Valkey.stream (valkey (snd r)) = Valkey.stream (valkey s) ++ entries /\
      len entries = batch_size /\
      Forall (fun m => Valkey.created_at m = Valkey.IsoCreatedAt (clock s))
             entries)).
Proof.
  intros Hbs r.
  destruct (produce_valkey_batch_any batch_size s Hbs) as (Hc & _ & Ht & _).
  split; [exact Ht|exact Hc].
Qed.

Lemma valkey_batch_all_or_nothing_witness :
  let boom := Exn "connection reset" in
  let v := {| Valkey.stream := []; Valkey.group := None;
              Valkey.faults := [Some boom]; Valkey.trace := [] |} in
  let s := init ValkeyStreams SkipLocked 500 1 empty_connection v 0 [3] in
  let r := produce_valkey_batch 5 s in
  Valkey.trace (valkey (snd r)) =
    Valkey.trace (valkey s) ++ [Valkey.XAdd 5] /\
  ((fst r = 0 /\ jobs_produced (snd r) = jobs_produced s /\
    Valkey.stream (valkey (snd r)) = Valkey.stream (valkey s) /\
    exists e, stdout (snd r) = stdout s ++ [ErrorProducingBatch e]) \/
   (fst r = 5 /\
    jobs_produced (snd r) = jobs_produced s + 5 /\
    stdout (snd r) = stdout s /\
    exists entries,
      Valkey.stream (valkey (snd r)) = Valkey.stream (valkey s) ++ entries /\
      len entries = 5 /\
      Forall (fun m => Valkey.created_at m = Valkey.IsoCreatedAt (clock s))
             entries)).
Proof.
  intros boom v s.
  apply (valkey_batch_all_or_nothing 5 s). lia.
Defined.

(** X11: a run with nothing to produce.  When the total
    [rate * duration] is not positive, a run of a fresh producer never
    enters its loop: with a rate of 0 it raises on the division that
    computes the interval, after the header and without a summary;
    otherwise it returns at once, whatever the fuel, having printed
    the header and a summary with 0 jobs and an actual rate of 0 (the
    elapsed time is 0 and is not divided by).  In both cases no call
    reaches the backend. *)
Theorem run_nothing_to_produce
    (b : backend_t) (q : queue_type_t) (rate_ duration_ : Z)
    (c : connection) (v : Valkey.server) (now : Q) (draws : list Z)
    (fuel : nat) :
  rate_ * duration_ <= 0 ->
  let s0 := init b q rate_ duration_ c v now draws in
  let header := Header rate_ duration_ (rate_ * duration_) in
  exists s,
    (if rate_ =? 0
     then (exists e, run fuel s0 = Crashed e s) /\
          stdout s = stdout s0 ++ [header]
     else run fuel s0 = Finished s /\
          exists elapsed,
            stdout s = stdout s0 ++ [header; Summary 0 elapsed 0] /\
            (elapsed == 0)%Q) /\
    jobs_produced s = 0 /\ conn s = conn s0 /\ valkey s = valkey s0 /\
    random s = random s0 /\ start_time s = Some (clock s0).
Proof.
  intros Htot s0 header.
  destruct (init_fields b q rate_ duration_ c v now draws)
    as (Er & Ed & Et & Ej).
  fold s0 in Er, Ed, Et, Ej.
  unfold run. cbn [rate clock print set_start_time].
  rewrite Er, Ed, Et. fold header.
  destruct (rate_ =? 0).
  - eexists. split; [split; [eexists; reflexivity|reflexivity]|].
    cbn [jobs_produced conn valkey random start_time print set_start_time].
    now rewrite Ej.
  - assert (Hl : forall bs i st nx,
               run_loop fuel bs i st nx
                 (set_start_time (Some (clock s0)) (print header s0))
               = Some (None,
                       set_start_time (Some (clock s0)) (print header s0))).
    { intros. destruct fuel; cbn [run_loop];
        cbn [jobs_produced total_jobs set_start_time print];
        rewrite Ej, Et;
        destruct (Z.ltb_spec 0 (rate_ * duration_)); try lia; reflexivity. }
    rewrite Hl. cbn [clock jobs_produced set_start_time print]. rewrite Ej.
    assert (E0 : (clock s0 - clock s0 == 0)%Q) by ring.
    destruct (Qlt_bool_cases 0 (clock s0 - clock s0)) as [[_ Hlt]|[-> _]].
    + rewrite E0 in Hlt. discriminate.
    + eexists. split.
      * split; [reflexivity|]. eexists.
        cbn [stdout print set_start_time]. rewrite <- app_assoc.
        split; [reflexivity|exact E0].
      * cbn [jobs_produced conn valkey random start_time print
             set_start_time].
        now rewrite Ej.
Qed.

Lemma run_nothing_to_produce_witness :
  let s0 := init Pg DeleteReturning 50 0 empty_connection empty_server
                 (9 # 4) [8] in
  let header := Header 50 0 (50 * 0) in
  exists s,
    (if 50 =? 0
     then (exists e, run 0 s0 = Crashed e s) /\
          stdout s = stdout s0 ++ [header]
     else run 0 s0 = Finished s /\
          exists elapsed,
            stdout s = stdout s0 ++ [header; Summary 0 elapsed 0] /\
            (elapsed == 0)%Q) /\
    jobs_produced s = 0 /\ conn s = conn s0 /\ valkey s = valkey s0 /\
    random s = random s0 /\ start_time s = Some (clock s0).
Proof.
  intros s0 header.
  apply (run_nothing_to_produce Pg DeleteReturning 50 0 empty_connection
           empty_server (9 # 4) [8] 0).
  lia.
Defined.

End ProducerAnyOutcome.

(* ------------------------------------------------------------------ *)
(** ** The Valkey worker: counters and commands *)

Section WorkerAccounting.

Import ValkeyWorker.

Lemma same_worker_refl (s : t) : same_worker s s.
Proof. repeat split. Qed.

Lemma worker_progress_refl (s : t) : worker_progress 0 [] s s.
Proof.
  unfold worker_progress. rewrite !Z.add_0_r, app_nil_r.
  repeat split. exists []. now rewrite app_nil_r.
Qed.

Lemma worker_progress_trans (n m : Z) (new new' : list Valkey.command)
      (s s1 s2 : t) :
  worker_progress n new s s1 -> worker_progress m new' s1 s2 ->
  worker_progress (n + m) (new ++ new') s s2.
Proof.
  intros (Hj & Hc & (l & Hl & Hn) & Ht & Hw)
         (Hj' & Hc' & (l' & Hl' & Hn') & Ht' & Hw').
  unfold worker_progress.
  split; [lia|]. split; [lia|]. split.
  - exists (l ++ l'). split; [rewrite Hl', Hl, <- app_assoc; reflexivity|].
    unfold len in *. rewrite length_app. lia.
  - split; [rewrite Ht', Ht, <- app_assoc; reflexivity|].
    eapply same_worker_trans; eassumption.
Qed.

Lemma follow_up_same (s s' : t) (c : Valkey.command) :
  same_worker s s' -> follow_up s' c -> follow_up s c.
Proof. intros (Hw & _). destruct c; cbn; rewrite ?Hw; trivial. Qed.

Lemma worker_command_same (s s' : t) (c : Valkey.command) :
  same_worker s s' -> worker_command s' c -> worker_command s c.
Proof.
  intros (Hw & Hb & Hp). destruct c; cbn; rewrite ?Hw, ?Hb, ?Hp; trivial.
Qed.

Lemma follow_up_quiet (s : t) (c : Valkey.command) :
  follow_up s c ->
  worker_command s c /\ is_read c = false /\ is_scan c = false.
Proof.
  destruct c; cbn; intros H; try contradiction;
    (split; [exact H|split; reflexivity]).
Qed.

Lemma server_xreadgroup_trace (w : string) (count block : Z) (now : Q)
      (v : Valkey.server) :
  Valkey.trace (snd (Valkey.xreadgroup w count block now v)) =
    Valkey.trace v ++ [Valkey.XReadGroup w count block].
Proof.
  unfold Valkey.xreadgroup.
  pose proof (issue_effect (Valkey.XReadGroup w count block) v) as H.
  cbv zeta in H.
  destruct (Valkey.issue _ v) as [[e|] v1]; cbn [fst snd] in *;
    destruct H as (_ & _ & Ht & _); [exact Ht|].
  destruct (Valkey.group v1) as [g|]; [|exact Ht].
  destruct (firstn _ _); exact Ht.
Qed.

Lemma server_xreadgroup_size (w : string) (count block : Z) (now : Q)
      (v v' : Valkey.server) (messages : list (string * list Valkey.message)) :
  Valkey.xreadgroup w count block now v = (Ok messages, v') ->
  len (reply_messages messages) <= Z.max 0 count.
Proof.
  unfold Valkey.xreadgroup.
  destruct (Valkey.issue _ v) as [[e|] v1]; [discriminate|].
  destruct (Valkey.group v1) as [g|]; [|discriminate].
  destruct (firstn _ _) as [|m0 msgs] eqn:E; intros H; injection H as <- _.
  - cbn. lia.
  - unfold reply_messages. cbn [flat_map snd]. rewrite app_nil_r, <- E.
    unfold len.
    pose proof (firstn_le_length (Z.to_nat count)
                  (skipn (Valkey.delivered g) (Valkey.stream v1))).
    lia.
Qed.

Lemma xreadgroup_trace (s s1 : t)
      (r : result (list (string * list Valkey.message))) :
  xreadgroup s = (r, s1) ->
  Valkey.trace (valkey s1) =
    Valkey.trace (valkey s) ++
    [Valkey.XReadGroup (worker_id s) (batch_size s) (poll_interval s)] /\
  (forall messages, r = Ok messages ->
     len (reply_messages messages) <= Z.max 0 (batch_size s)).
Proof.
  unfold xreadgroup.
  pose proof (server_xreadgroup_trace (worker_id s) (batch_size s)
                (poll_interval s) (clock s) (valkey s)) as Ht.
  pose proof (server_xreadgroup_size (worker_id s) (batch_size s)
                (poll_interval s) (clock s) (valkey s)) as Hs.
  destruct (Valkey.xreadgroup _ _ _ _ _) as [r0 v]. cbn [snd] in Ht.
  destruct r0 as [[|x l]|e]; intros H; injection H as <- <-; wsimpl;
    (split; [exact Ht|]); intros messages E; try discriminate;
    injection E as <-; eapply Hs; reflexivity.
Qed.

Lemma processed_le (msgs : list Valkey.message) :
  len (processed msgs) <= len msgs.
Proof.
  unfold processed, len.
  pose proof (filter_length_le (fun m => negb (throws m)) msgs). lia.
Qed.

(** One call of [process_messages]: a fetch, then at most one command
    that is an acknowledgement or the creation of the group. *)
Lemma process_messages_progress (s : t) :
  let r := process_messages s in
  0 <= fst r <= Z.max 0 (batch_size s) /\
  exists new,
    worker_progress (fst r)
      (Valkey.XReadGroup (worker_id s) (batch_size s) (poll_interval s) :: new)
      s (snd r) /\
    Forall (follow_up s) new.
Proof.
  cbv zeta. unfold process_messages.
  destruct (xreadgroup s) as [r s1] eqn:Ex.
  destruct (xreadgroup_frame s s1 r Ex) as (Fj & Fm & Fo & Fw).
  destruct (xreadgroup_trace s s1 r Ex) as (Ft & Fs).
  destruct r as [[|m ms]|e].
  - cbn [fst snd]. split; [lia|]. exists []. split; [|constructor].
    unfold worker_progress. rewrite Fj, Fm, Ft, !Z.add_0_r.
    repeat split; try apply Fw. exists []. now rewrite app_nil_r.
  - specialize (Fs _ eq_refl).
    pose proof (process_reply_effect (m :: ms) empty_batch s1) as He.
    destruct (process_reply (m :: ms) empty_batch s1) as [b s2].
    cbn [fst snd] in He. unfold loop_effect in He.
    destruct He as (Hi & (new & Hl & Hlen) & Hj & Hv & Hmet & _ & Hw & _).
    cbn [empty_batch ids_to_ack batch_latencies app] in Hi, Hl.
    pose proof (ack_and_record_effect ErrorAcknowledgingBatch b s2) as Ha.
    pose proof (ack_and_record_trace ErrorAcknowledgingBatch b s2) as At.
    cbv zeta in Ha. destruct Ha as (Hn & Aj & Aw & Al & Ac & _).
    set (n := len (processed (reply_messages (m :: ms)))) in *.
    assert (En : len (ids_to_ack b) = n).
    { rewrite Hi. unfold n, len. now rewrite length_map. }
    assert (En' : len new = n) by (unfold n, len; now rewrite Hlen).
    pose proof (processed_le (reply_messages (m :: ms))) as Hle.
    fold n in Hle. assert (0 <= n) by (unfold n, len; lia).
    rewrite Hn, En. split; [lia|].
    exists (match ids_to_ack b with
            | [] => []
            | _ :: _ => [Valkey.XAck (ids_to_ack b)]
            end).
    split.
    + unfold worker_progress. rewrite At, Hv, Ft, Aj, Hj, Fj, Ac, Al, Hl.
      rewrite Hmet, Fm, En', <- app_assoc.
      split; [reflexivity|]. split; [reflexivity|].
      split; [exists new; split; [reflexivity|exact En']|].
      split; [reflexivity|].
      eapply same_worker_trans; [exact Fw|].
      eapply same_worker_trans; [exact Hw|exact Aw].
    + destruct (ids_to_ack b); constructor; [discriminate|constructor].
  - destruct (contains "NOGROUP" (exn_msg e)).
    + cbn [fst snd]. split; [lia|]. exists [Valkey.XGroupCreate].
      split; [|constructor; [exact I|constructor]].
      unfold xgroup_create, Valkey.xgroup_create.
      pose proof (issue_effect Valkey.XGroupCreate (valkey s1)) as Hi.
      cbv zeta in Hi. wsimpl.
      destruct (Valkey.issue Valkey.XGroupCreate (valkey s1)) as [[e'|] v1];
        cbn [fst snd] in Hi; destruct Hi as (_ & _ & Ht & _);
        [|destruct (Valkey.group v1)];
        unfold worker_progress, same_worker; wsimpl;
        cbn [Valkey.trace Valkey.set_group];
        rewrite Ht, Ft, Fj, Fm, !Z.add_0_r, <- app_assoc;
        (repeat split; try apply Fw); exists []; now rewrite app_nil_r.
    + cbn [fst snd]. split; [lia|]. exists []. split; [|constructor].
      unfold worker_progress, same_worker. wsimpl.
      rewrite Ft, Fj, Fm, !Z.add_0_r.
      (repeat split; try apply Fw). exists []. now rewrite app_nil_r.
Qed.

Lemma process_claimed_counts (l : list Valkey.message) :
  forall (b : batch) (s : t),
    let r := snd (process_claimed l b s) in
    exists extra samples,
      ids_to_ack (fst r) = ids_to_ack b ++ extra /\
      batch_latencies (fst r) = batch_latencies b ++ samples /\
      List.length samples = List.length extra /\
      jobs_processed (snd r) = jobs_processed s + len extra /\
      metrics (snd r) = metrics s /\ same_worker s (snd r).
Proof.
  induction l as [|m l IH]; intros b s; cbv zeta.
  - exists [], []. cbn. rewrite !app_nil_r. repeat split. lia.
  - cbn [process_claimed].
    destruct (measure_cases m s)
      as [(e & s1 & _ & _ & -> & Hs1)|(lat & _ & ->)].
    + destruct (raised_frame s s1 Hs1) as (Rj & _ & Rm & _ & Rw & _).
      exists [], []. cbn [fst snd len List.length]. rewrite !app_nil_r.
      repeat split; try assumption; try apply Rw. cbn. lia.
    + cbn [collect].
      pose proof (simulate_processing_frame s) as Hf. cbv zeta in Hf.
      destruct Hf as (Fj & _ & Fm & _ & Fw & _).
      match goal with |- context [process_claimed l ?b1 ?s1] =>
        destruct (IH b1 s1) as (extra & samples & Hi & Hl & Hn & Hj & Hm & Hw)
      end.
      cbv zeta in Hi, Hl, Hj, Hm, Hw. wsimpl.
      exists (Valkey.message_id m :: extra), (lat :: samples).
      rewrite Hi, Hl, Hj, Hm, Fj, <- !app_assoc.
      split; [reflexivity|]. split; [reflexivity|].
      split; [cbn; now rewrite Hn|].
      split; [unfold len; cbn [List.length]; lia|].
      split; [exact Fm|].
      eapply same_worker_trans; [exact Fw|].
      destruct Hw as (H1 & H2 & H3). repeat split; assumption.
Qed.

Lemma xclaim_frame (min_idle_time : Z) (ids : list Valkey.entry_id) (s : t) :
  let r := xclaim min_idle_time ids s in
  jobs_processed (snd r) = jobs_processed s /\
  metrics (snd r) = metrics s /\ same_worker s (snd r).
Proof.
  cbv zeta. unfold xclaim.
  destruct (Valkey.xclaim _ _ _ _ _) as [r v]. repeat split.
Qed.

Lemma claim_each_counts (infos : list Valkey.pending_info) :
  forall (b : batch) (s : t),
    let r := claim_each infos b s in
    exists extra samples,
      ids_to_ack (fst r) = ids_to_ack b ++ extra /\
      batch_latencies (fst r) = batch_latencies b ++ samples /\
      List.length samples = List.length extra /\
      jobs_processed (snd r) = jobs_processed s + len extra /\
      metrics (snd r) = metrics s /\ same_worker s (snd r).
Proof.
  induction infos as [|msg rest IH]; intros b s; cbv zeta.
  - exists [], []. cbn. rewrite !app_nil_r. repeat split. lia.
  - cbn [claim_each].
    destruct (5000 <? Valkey.time_since_delivered msg); [|apply IH].
    pose proof (xclaim_frame 5000 [Valkey.pi_message_id msg] s) as Hx.
    cbv zeta in Hx.
    destruct (xclaim 5000 [Valkey.pi_message_id msg] s) as [[reply|e] s1];
      cbn [fst snd] in Hx; destruct Hx as (Xj & Xm & Xw).
    + pose proof (process_claimed_counts reply b s1) as Hp. cbv zeta in Hp.
      destruct (process_claimed reply b s1) as [oe [b1 s2]].
      cbn [fst snd] in Hp.
      destruct Hp as (extra & samples & Hi & Hl & Hn & Hj & Hm & Hw).
      assert (Hrest : forall s3,
                 jobs_processed s3 = jobs_processed s2 ->
                 metrics s3 = metrics s2 -> same_worker s2 s3 ->
                 exists extra0 samples0,
                   ids_to_ack (fst (claim_each rest b1 s3)) =
                     ids_to_ack b ++ extra0 /\
                   batch_latencies (fst (claim_each rest b1 s3)) =
                     batch_latencies b ++ samples0 /\
                   List.length samples0 = List.length extra0 /\
                   jobs_processed (snd (claim_each rest b1 s3)) =
                     jobs_processed s + len extra0 /\
                   metrics (snd (claim_each rest b1 s3)) = metrics s /\
                   same_worker s (snd (claim_each rest b1 s3))).
      { intros s3 Ej Em Ew.
        destruct (IH b1 s3) as (extra' & samples' & Hi' & Hl' & Hn' & Hj' & Hm' & Hw').
        cbv zeta in Hi', Hl', Hj', Hm', Hw'.
        exists (extra ++ extra'), (samples ++ samples').
        rewrite Hi', Hl', Hi, Hl, Hj', Hm', Ej, Em, Hj, Hm, Xj, Xm, <- !app_assoc.
        split; [reflexivity|]. split; [reflexivity|].
        split; [rewrite !length_app; lia|].
        split; [unfold len; rewrite length_app; lia|].
        split; [reflexivity|].
        eapply same_worker_trans; [exact Xw|].
        eapply same_worker_trans; [exact Hw|].
        eapply same_worker_trans; [exact Ew|exact Hw']. }
      destruct oe as [e|]; apply Hrest; unfold same_worker; wsimpl;
        repeat split.
    + match goal with |- context [claim_each rest b ?s3] =>
        destruct (IH b s3) as (extra & samples & Hi & Hl & Hn & Hj & Hm & Hw)
      end.
      cbv zeta in Hi, Hl, Hj, Hm, Hw. wsimpl.
      exists extra, samples. rewrite Hi, Hl, Hj, Hm, Xj, Xm.
      repeat split; try assumption.
      * destruct Xw as (H1 & _), Hw as (H2 & _). wsimpl. congruence.
      * destruct Xw as (_ & H1 & _), Hw as (_ & H2 & _). wsimpl. congruence.
      * destruct Xw as (_ & _ & H1), Hw as (_ & _ & H2). wsimpl. congruence.
Qed.

Lemma xpending_range_frame (count : Z) (s s1 : t)
      (r : result (list Valkey.pending_info)) :
  xpending_range count s = (r, s1) ->
  jobs_processed s1 = jobs_processed s /\ metrics s1 = metrics s /\
  stdout s1 = stdout s /\ clock s1 = clock s /\ same_worker s s1 /\
  Valkey.stream (valkey s1) = Valkey.stream (valkey s) /\
  Valkey.group (valkey s1) = Valkey.group (valkey s) /\
  Valkey.trace (valkey s1) =
    Valkey.trace (valkey s) ++ [Valkey.XPendingRange count] /\
  (Valkey.group (valkey s) = None -> exists e, r = Raise e) /\
  (forall e fs, Valkey.faults (valkey s) = Some e :: fs -> r = Raise e).
Proof.
  unfold xpending_range, Valkey.xpending_range.
  pose proof (issue_effect (Valkey.XPendingRange count) (valkey s)) as H.
  cbv zeta in H.
  destruct (Valkey.issue _ (valkey s)) as [[e|] v1]; cbn [fst snd] in H;
    destruct H as (Hs & Hg1 & Ht & _ & Hf).
  - intros E. injection E as <- <-. unfold same_worker. wsimpl.
    repeat split; try assumption; [eauto|].
    intros e' fs E. rewrite E in Hf. congruence.
  - destruct (Valkey.group v1) as [g|] eqn:Eg; intros E; injection E as <- <-;
      unfold same_worker; wsimpl; repeat split; try assumption;
      try congruence; try (intros; eauto; fail);
      intros e' fs E; rewrite E in Hf; discriminate.
Qed.

(** One call of [claim_pending_messages]: a scan, then claims of one
    entry each, then at most one acknowledgement. *)
Lemma claim_pending_messages_progress (s : t) :
  let r := claim_pending_messages s in
  0 <= fst r /\
  exists new,
    worker_progress (fst r) (Valkey.XPendingRange 10 :: new) s (snd r) /\
    Forall (follow_up s) new.
Proof.
  cbv zeta. unfold claim_pending_messages.
  destruct (xpending_range 10 s) as [r s1] eqn:Ex.
  destruct (xpending_range_frame 10 s s1 r Ex)
    as (Fj & Fm & _ & _ & Fw & _ & _ & Ft & _).
  assert (Hnone : worker_progress 0 [Valkey.XPendingRange 10] s s1).
  { unfold worker_progress. rewrite Fj, Fm, Ft, !Z.add_0_r.
    repeat split; try apply Fw. exists []. now rewrite app_nil_r. }
  destruct r as [[|i infos]|e].
  - cbn [fst snd]. split; [lia|]. exists []. split; [exact Hnone|constructor].
  - pose proof (claim_each_counts (i :: infos) empty_batch s1) as Hc.
    destruct (claim_each_claims (i :: infos) empty_batch s1)
      as (Cw & claims & Ct & Cf).
    cbv zeta in Hc.
    destruct (claim_each (i :: infos) empty_batch s1) as [b s2].
    cbn [fst snd] in Hc, Cw, Ct.
    destruct Hc as (extra & samples & Hi & Hl & Hn & Hj & Hm & Hw).
    cbn [empty_batch ids_to_ack batch_latencies app] in Hi, Hl.
    pose proof (ack_and_record_effect ErrorAcknowledgingClaimedBatch b s2) as Ha.
    pose proof (ack_and_record_trace ErrorAcknowledgingClaimedBatch b s2) as At.
    cbv zeta in Ha. destruct Ha as (Hr & Aj & Aw & Al & Ac & _).
    rewrite Hr. split; [unfold len; lia|].
    exists (claims ++ match ids_to_ack b with
                      | [] => []
                      | _ :: _ => [Valkey.XAck (ids_to_ack b)]
                      end).
    split.
    + unfold worker_progress.
      rewrite At, Ct, Ft, Aj, Hj, Fj, Ac, Al, Hm, Fm, Hi, Hl, <- !app_assoc.
      assert (El : len samples = len extra) by (unfold len; now rewrite Hn).
      split; [reflexivity|]. split; [now rewrite El|].
      split; [exists samples; split; [reflexivity|exact El]|].
      split; [reflexivity|].
      eapply same_worker_trans; [exact Fw|].
      eapply same_worker_trans; [exact Hw|exact Aw].
    + apply Forall_app. split.
      * eapply Forall_impl; [|exact Cf].
        intros c (msg & _ & _ & ->). cbn.
        destruct Fw as (-> & _). repeat split. eauto.
      * destruct (ids_to_ack b); constructor; [discriminate|constructor].
  - cbn [fst snd]. split; [lia|]. exists []. split; [|constructor].
    destruct Hnone as (Hj & Hc & Hl & Ht & Hw).
    unfold worker_progress, same_worker. wsimpl. repeat split; try assumption;
      apply Hw.
Qed.

Lemma how_many_app (f : Valkey.command -> bool) (l l' : list Valkey.command) :
  how_many f (l ++ l') = how_many f l + how_many f l'.
Proof. unfold how_many, len. rewrite filter_app, length_app. lia. Qed.

Lemma how_many_follow_up (s : t) (l : list Valkey.command) :
  Forall (follow_up s) l -> how_many is_read l = 0 /\ how_many is_scan l = 0.
Proof.
  induction 1 as [|c l Hc _ [IH1 IH2]]; [now split|].
  destruct (follow_up_quiet s c Hc) as (_ & Hr & Hs).
  unfold how_many in *. cbn [filter]. rewrite Hr, Hs. now split.
Qed.

(** The loop of [run] after [iterations] turns, entered with
    [claim_counter] turns since the last sweep. *)
Lemma run_loop_progress (iterations : nat) :
  forall (claim_counter : Z) (s : t),
    0 <= claim_counter < 10 ->
    exists n new,
      0 <= n /\
      worker_progress n new s (run_loop iterations claim_counter s) /\
      Forall (worker_command s) new /\
      how_many is_read new = Z.of_nat iterations /\
      how_many is_scan new = (claim_counter + Z.of_nat iterations) / 10.
Proof.
  induction iterations as [|k IH]; intros cc s Hcc.
  - exists 0, []. split; [lia|]. split; [apply worker_progress_refl|].
    split; [constructor|]. split; [reflexivity|].
    cbn [how_many filter]. rewrite Z.add_0_r, Z.div_small by lia. reflexivity.
  - rewrite run_loop_turn.
    destruct (process_messages_progress s) as (Hn1 & new1 & Hp1 & Hf1).
    cbv zeta in Hn1, Hp1.
    set (s1 := snd (process_messages s)) in *.
    set (n1 := fst (process_messages s)) in *.
    pose proof Hp1 as (_ & _ & _ & _ & Hw1).
    destruct (how_many_follow_up s new1 Hf1) as (Hr1 & Hs1).
    assert (Hc1 : Forall (worker_command s)
                    (Valkey.XReadGroup (worker_id s) (batch_size s)
                                       (poll_interval s) :: new1)).
    { constructor; [cbn; repeat split|].
      eapply Forall_impl; [|exact Hf1]. intros c Hc.
      now apply follow_up_quiet. }
    destruct (Z.leb_spec 10 (cc + 1)) as [Hten|Hless].
    + destruct (claim_pending_messages_progress s1) as (Hn2 & new2 & Hp2 & Hf2).
      cbv zeta in Hn2, Hp2.
      set (s2 := snd (claim_pending_messages s1)) in *.
      set (n2 := fst (claim_pending_messages s1)) in *.
      pose proof Hp2 as (_ & _ & _ & _ & Hw2).
      destruct (how_many_follow_up s1 new2 Hf2) as (Hr2 & Hs2).
      destruct (IH 0 s2 ltac:(lia)) as (n3 & new3 & Hn3 & Hp3 & Hc3 & Hr3 & Hs3).
      exists (n1 + n2 + n3),
        ((Valkey.XReadGroup (worker_id s) (batch_size s) (poll_interval s)
          :: new1) ++ (Valkey.XPendingRange 10 :: new2) ++ new3).
      split; [lia|]. split.
      { rewrite <- Z.add_assoc.
        eapply worker_progress_trans; [exact Hp1|].
        eapply worker_progress_trans; [exact Hp2|exact Hp3]. }
      split.
      { apply Forall_app. split; [exact Hc1|].
        apply Forall_app. split.
        - constructor; [reflexivity|].
          eapply Forall_impl; [|exact Hf2]. intros c Hc.
          apply (worker_command_same s s1 c Hw1). now apply follow_up_quiet.
        - eapply Forall_impl; [|exact Hc3]. intros c Hc.
          apply (worker_command_same s s2 c); [|exact Hc].
          eapply same_worker_trans; eassumption. }
      rewrite !how_many_app.
      change (Valkey.XReadGroup (worker_id s) (batch_size s) (poll_interval s)
              :: new1)
        with ([Valkey.XReadGroup (worker_id s) (batch_size s) (poll_interval s)]
              ++ new1).
      change (Valkey.XPendingRange 10 :: new2)
        with ([Valkey.XPendingRange 10] ++ new2).
      rewrite !how_many_app, Hr1, Hs1, Hr2, Hs2, Hr3, Hs3.
      change (how_many is_read [Valkey.XReadGroup (worker_id s) (batch_size s)
                                                  (poll_interval s)]) with 1.
      change (how_many is_scan [Valkey.XReadGroup (worker_id s) (batch_size s)
                                                  (poll_interval s)]) with 0.
      change (how_many is_read [Valkey.XPendingRange 10]) with 0.
      change (how_many is_scan [Valkey.XPendingRange 10]) with 1.
      split; [lia|].
      replace (cc + Z.of_nat (S k)) with (1 * 10 + Z.of_nat k) by lia.
      rewrite Z.div_add_l by lia. cbn [Z.add]. lia.
    + destruct (IH (cc + 1) s1 ltac:(lia))
        as (n3 & new3 & Hn3 & Hp3 & Hc3 & Hr3 & Hs3).
      exists (n1 + n3),
        ((Valkey.XReadGroup (worker_id s) (batch_size s) (poll_interval s)
          :: new1) ++ new3).
      split; [lia|]. split.
      { eapply worker_progress_trans; [exact Hp1|exact Hp3]. }
      split.
      { apply Forall_app. split; [exact Hc1|].
        eapply Forall_impl; [|exact Hc3]. intros c Hc.
        apply (worker_command_same s s1 c Hw1 Hc). }
      rewrite !how_many_app.
      change (Valkey.XReadGroup (worker_id s) (batch_size s) (poll_interval s)
              :: new1)
        with ([Valkey.XReadGroup (worker_id s) (batch_size s) (poll_interval s)]
              ++ new1).
      rewrite !how_many_app, Hr1, Hs1, Hr3, Hs3.
      change (how_many is_read [Valkey.XReadGroup (worker_id s) (batch_size s)
                                                  (poll_interval s)]) with 1.
      change (how_many is_scan [Valkey.XReadGroup (worker_id s) (batch_size s)
                                                  (poll_interval s)]) with 0.
      split; [lia|].
      replace (cc + Z.of_nat (S k)) with (cc + 1 + Z.of_nat k) by lia. lia.
Qed.

(** X12: what a processing call returns is what it has counted.
    [process_messages] returns a number between 0 and the batch size,
    [claim_pending_messages] a number that is not negative, and in both
    the worker's [jobs_processed], the collector's [jobs_processed] and
    the collector's list of samples have grown by exactly the number
    returned, whatever the server answered and whichever entries
    failed. *)
Theorem processing_calls_count (s : t) :
  (let r := process_messages s in
   0 <= fst r <= Z.max 0 (batch_size s) /\
   exists new, worker_progress (fst r) new s (snd r)) /\
  (let r := claim_pending_messages s in
   0 <= fst r /\
   exists new, worker_progress (fst r) new s (snd r)).
Proof.
  split; cbv zeta.
  - destruct (process_messages_progress s) as (Hn & new & Hp & _).
    split; [exact Hn|]. eexists. exact Hp.
  - destruct (claim_pending_messages_progress s) as (Hn & new & Hp & _).
    split; [exact Hn|]. eexists. exact Hp.
Qed.

Lemma run_progress (iterations : nat) (s : t) :
  exists n new,
    0 <= n /\
    worker_progress n new s (run iterations s) /\
    Forall (worker_command s) new /\
    how_many is_read new = Z.of_nat iterations /\
    how_many is_scan new = Z.of_nat iterations / 10 /\
    stdout (run iterations s) =
      stdout (run_loop iterations 0 (print (Started (worker_id s) (batch_size s)) s))
      ++ [Stopped (worker_id s) (jobs_processed s + n)].
Proof.
  unfold run.
  set (s1 := print (Started (worker_id s) (batch_size s)) s).
  destruct (run_loop_progress iterations 0 s1 ltac:(lia))
    as (n & new & Hn & Hp & Hc & Hr & Hs).
  set (s2 := run_loop iterations 0 s1) in *.
  exists n, new. split; [exact Hn|].
  destruct Hp as (Hj & Hm & Hl & Ht & Hw).
  split; [|split; [|split; [exact Hr|split; [exact Hs|]]]].
  - unfold worker_progress, same_worker. wsimpl.
    repeat split; try assumption; apply Hw.
  - eapply Forall_impl; [|exact Hc]. intros c.
    apply worker_command_same. repeat split.
  - wsimpl. rewrite Hj. destruct Hw as (-> & _). reflexivity.
Qed.

(** X13: over a whole run of the worker, for any number of turns of
    its loop and any behaviour of the server, the worker's
    [jobs_processed], the collector's [jobs_processed] and the number
    of samples in the collector grow by the same amount, and the last
    line printed reports the worker's final [jobs_processed]. *)
Theorem valkey_run_counters_agree (iterations : nat) (s : t) :
  let s' := run iterations s in
  exists n,
    0 <= n /\
    jobs_processed s' = jobs_processed s + n /\
    MetricsCollector.jobs_processed (metrics s') =
      MetricsCollector.jobs_processed (metrics s) + n /\
    len (MetricsCollector.latencies (metrics s')) =
      len (MetricsCollector.latencies (metrics s)) + n /\
    exists out, stdout s' = out ++ [Stopped (worker_id s) (jobs_processed s')].
Proof.
  cbv zeta.
  destruct (run_progress iterations s)
    as (n & new & Hn & (Hj & Hm & (l & Hl & Hlen) & _) & _ & _ & _ & Ho).
  exists n. split; [exact Hn|]. split; [exact Hj|]. split; [exact Hm|].
  split.
  - rewrite Hl. unfold len in *. rewrite length_app. lia.
  - eexists. rewrite Ho, Hj. reflexivity.
Qed.

(** X14: the commands of a worker.  Whatever the server answers, the
    commands that a run sends are fetches for the worker's own consumer
    name with its batch size and block time, scans of at most 10
    pending entries, claims of a single entry for the worker itself with
    a minimum idle time of 5000 ms, acknowledgements that name at least
    one entry, and creations of the group: a worker never adds an entry
    to the stream and never sends an empty acknowledgement. *)
Theorem worker_commands (iterations : nat) (s : t) :
  exists new,
    Valkey.trace (valkey (run iterations s)) = Valkey.trace (valkey s) ++ new /\
    Forall (worker_command s) new.
Proof.
  destruct (run_progress iterations s)
    as (n & new & _ & (_ & _ & _ & Ht & _) & Hc & _).
  exists new. split; assumption.
Qed.

(** X15: the sweep runs after every tenth fetch.  In a run of
    [iterations] turns there are exactly [iterations] fetches and
    [iterations // 10] scans of the pending entries, whatever the
    fetches return and even when they raise. *)
Theorem sweep_every_tenth_turn (iterations : nat) (s : t) :
  exists new,
    Valkey.trace (valkey (run iterations s)) = Valkey.trace (valkey s) ++ new /\
    how_many is_read new = Z.of_nat iterations /\
    how_many is_scan new = Z.of_nat iterations / 10.
Proof.
  destruct (run_progress iterations s)
    as (n & new & _ & (_ & _ & _ & Ht & _) & _ & Hr & Hs & _).
  exists new. repeat split; assumption.
Qed.

(** X16: a fetch that raises an error other than NOGROUP is only
    reported.  [process_messages] returns 0 and prints the error; no
    other command is sent (the group is not recreated), nothing is
    recorded or counted, stream and group are as before, and the worker
    does not wait before its next turn. *)
Theorem read_error_only_reported (s : t) (e : exn) (fs : list (option exn)) :
  Valkey.faults (valkey s) = Some e :: fs ->
  contains "NOGROUP" (exn_msg e) = false ->
  let r := process_messages s in
  fst r = 0 /\
  stdout (snd r) = stdout s ++ [ErrorReadingStream (worker_id s) e] /\
  Valkey.trace (valkey (snd r)) =
    Valkey.trace (valkey s) ++
    [Valkey.XReadGroup (worker_id s) (batch_size s) (poll_interval s)] /\
  Valkey.stream (valkey (snd r)) = Valkey.stream (valkey s) /\
  Valkey.group (valkey (snd r)) = Valkey.group (valkey s) /\
  jobs_processed (snd r) = jobs_processed s /\
  metrics (snd r) = metrics s /\
  clock (snd r) = clock s.
Proof.
  intros Hf Hc. cbv zeta.
  unfold process_messages, xreadgroup, Valkey.xreadgroup, Valkey.issue.
  rewrite Hf. wsimpl. rewrite Hc. wsimpl.
  cbn [Valkey.stream Valkey.group Valkey.trace]. repeat split.
Qed.

Lemma read_error_only_reported_witness :
  let boom := Exn "Connection refused" in
  let s := three_entries [Some boom] in
  let r := process_messages s in
  fst r = 0 /\
  stdout (snd r) = stdout s ++ [ErrorReadingStream (worker_id s) boom] /\
  Valkey.trace (valkey (snd r)) =
    Valkey.trace (valkey s) ++
    [Valkey.XReadGroup (worker_id s) (batch_size s) (poll_interval s)] /\
  Valkey.stream (valkey (snd r)) = Valkey.stream (valkey s) /\
  Valkey.group (valkey (snd r)) = Valkey.group (valkey s) /\
  jobs_processed (snd r) = jobs_processed s /\
  metrics (snd r) = metrics s /\
  clock (snd r) = clock s.
Proof.
  intros boom s.
  apply (read_error_only_reported s boom []); reflexivity.
Defined.

(** X17: a scan that raises is only reported, also when it is the
    group that is missing.  When the group does not exist or the scan
    is scheduled to raise, [claim_pending_messages] returns 0 and prints
    the error; the scan is the only command sent, so unlike
    [process_messages] it does not recreate a missing group, and
    nothing is claimed, acknowledged, recorded or counted. *)
Theorem scan_error_not_repaired (s : t) :
  Valkey.group (valkey s) = None \/
  (exists e fs, Valkey.faults (valkey s) = Some e :: fs) ->
  let r := claim_pending_messages s in
  fst r = 0 /\
  (exists e, stdout (snd r) = stdout s ++ [ErrorClaimingPending (worker_id s) e]) /\
  Valkey.trace (valkey (snd r)) =
    Valkey.trace (valkey s) ++ [Valkey.XPendingRange 10] /\
  Valkey.stream (valkey (snd r)) = Valkey.stream (valkey s) /\
  Valkey.group (valkey (snd r)) = Valkey.group (valkey s) /\
  jobs_processed (snd r) = jobs_processed s /\
  metrics (snd r) = metrics s.
Proof.
  intros H. cbv zeta. unfold claim_pending_messages.
  destruct (xpending_range 10 s) as [r s1] eqn:Ex.
  destruct (xpending_range_frame 10 s s1 r Ex)
    as (Fj & Fm & Fo & _ & (Fw & _) & Fs & Fg & Ft & Hnone & Hfault).
  assert (Hr : exists e, r = Raise e).
  { destruct H as [Hg|(e & fs & Hf)]; [now apply Hnone|].
    exists e. eapply Hfault. exact Hf. }
  destruct Hr as (e & ->). wsimpl.
  split; [reflexivity|]. split; [exists e; now rewrite Fo, Fw|].
  repeat split; assumption.
Qed.

Lemma scan_error_not_repaired_witness :
  let s := mk "worker_0" 0 50 100 (MetricsCollector.init "metrics_valkey.jsonl" 0)
              empty_server 1 [] in
  let r := claim_pending_messages s in
  fst r = 0 /\
  (exists e, stdout (snd r) = stdout s ++ [ErrorClaimingPending (worker_id s) e]) /\
  Valkey.trace (valkey (snd r)) =
    Valkey.trace (valkey s) ++ [Valkey.XPendingRange 10] /\
  Valkey.stream (valkey (snd r)) = Valkey.stream (valkey s) /\
  Valkey.group (valkey (snd r)) = Valkey.group (valkey s) /\
  jobs_processed (snd r) = jobs_processed s /\
  metrics (snd r) = metrics s.
Proof.
  intros s.
  apply (scan_error_not_repaired s). left. reflexivity.
Defined.

End WorkerAccounting.

(* ------------------------------------------------------------------ *)
(** ** The PostgreSQL worker *)

(** Projections of a worker state after the setters. *)
Ltac psimpl :=
  cbn [PgWorker.worker_id PgWorker.queue_type PgWorker.partitions
       PgWorker.jobs_processed PgWorker.metrics PgWorker.conn PgWorker.clock
       PgWorker.stdout PgWorker.set_jobs_processed PgWorker.print
       PgWorker.set_conn PgWorker.set_clock PgWorker.set_metrics
       PgWorker.record_metrics PgWorker.log PgWorker.script
       MetricsCollector.record_job MetricsCollector.latencies
       MetricsCollector.jobs_processed fst snd] in *.

Section PgWorkerTurns.

Import PgWorker.

Lemma same_pg_worker_refl (s : t) : same_pg_worker s s.
Proof. repeat split. Qed.

Lemma same_pg_worker_trans (s1 s2 s3 : t) :
  same_pg_worker s1 s2 -> same_pg_worker s2 s3 -> same_pg_worker s1 s3.
Proof.
  intros (A1 & A2 & A3) (B1 & B2 & B3). repeat split; congruence.
Qed.

Lemma pg_progress_trans (n m : Z) (new new' : list statement) (s s1 s2 : t) :
  0 <= n -> 0 <= m ->
  pg_progress n new s s1 -> pg_progress m new' s1 s2 ->
  pg_progress (n + m) (new ++ new') s s2.
Proof.
  intros Hn0 Hm0 (Hj & Hc & (l & Hl & Hn) & Ht & Hw & Hk)
         (Hj' & Hc' & (l' & Hl' & Hn') & Ht' & Hw' & Hk').
  unfold pg_progress.
  split; [lia|]. split; [lia|]. split.
  { exists (l ++ l'). split; [rewrite Hl', Hl, <- app_assoc; reflexivity|].
    unfold len in *. rewrite length_app. lia. }
  split; [rewrite Ht', Ht, <- app_assoc; reflexivity|].
  split; [eapply same_pg_worker_trans; eassumption|].
  eapply Qle_trans; [|exact Hk'].
  rewrite inject_Z_plus, Qmult_plus_distr_l, Qplus_assoc.
  apply Qplus_le_l. exact Hk.
Qed.

(** A statement is logged, takes its reply from the script and leaves
    the worker as it is. *)
Lemma cursor_execute_effect (st : statement) (s : t) :
  let r := cursor_execute st s in
  log (conn (snd r)) = log (conn s) ++ [st] /\
  script (conn (snd r)) = tl (script (conn s)) /\
  fst r = match script (conn s) with [] => NoRow | x :: _ => x end /\
  jobs_processed (snd r) = jobs_processed s /\
  metrics (snd r) = metrics s /\ clock (snd r) = clock s /\
  stdout (snd r) = stdout s /\ same_pg_worker s (snd r).
Proof.
  cbv zeta. unfold cursor_execute, execute.
  destruct (script (conn s)); cbn; repeat split.
Qed.

Lemma sleep_effect (seconds : Q) (s : t) :
  let s' := sleep seconds s in
  (clock s' == clock s + seconds)%Q /\
  jobs_processed s' = jobs_processed s /\ metrics s' = metrics s /\
  conn s' = conn s /\ stdout s' = stdout s /\ same_pg_worker s s'.
Proof.
  cbv zeta. unfold sleep. psimpl.
  split; [apply Qred_correct|repeat split].
Qed.

Lemma processing_time_pos : (0 <= processing_time)%Q.
Proof. vm_compute. discriminate. Qed.

Lemma polling_time_pos : (0 <= polling_time)%Q.
Proof. vm_compute. discriminate. Qed.

(** Nothing counted, some statements sent, the clock not moved back. *)
Lemma pg_progress_none (new : list statement) (s s' : t) :
  jobs_processed s' = jobs_processed s -> metrics s' = metrics s ->
  log (conn s') = log (conn s) ++ new -> same_pg_worker s s' ->
  (clock s <= clock s')%Q ->
  pg_progress 0 new s s'.
Proof.
  intros Hj Hm Hl Hw Hc. unfold pg_progress.
  rewrite Hj, Hm, Hl, !Z.add_0_r.
  split; [reflexivity|]. split; [reflexivity|].
  split; [exists []; now rewrite app_nil_r|].
  split; [reflexivity|]. split; [exact Hw|].
  assert (E : (clock s + inject_Z 0 * processing_time == clock s)%Q) by ring.
  now rewrite E.
Qed.

Lemma function_names (s : t) (parameters : list value) (k : Z) :
  is_get s (get_job s) = true /\ is_complete s (get_job s) = false /\
  is_fail s (get_job s) = false /\
  is_get s (get_job_from s k) = true /\
  is_complete s (get_job_from s k) = false /\
  is_fail s (get_job_from s k) = false /\
  is_get s (complete_job s parameters) = false /\
  is_complete s (complete_job s parameters) = true /\
  is_fail s (complete_job s parameters) = false.
Proof.
  unfold is_get, is_complete, is_fail, calls_function, get_job, get_job_from,
    complete_job. cbn [function].
  destruct (queue_type s); repeat split.
Qed.

Lemma calls_app (f : statement -> bool) (l l' : list statement) :
  calls f (l ++ l') = calls f l + calls f l'.
Proof. unfold calls, len. rewrite filter_app, length_app. lia. Qed.

Lemma calls_cons (f : statement -> bool) (st : statement) (l : list statement) :
  calls f (st :: l) = (if f st then 1 else 0) + calls f l.
Proof.
  unfold calls, len. cbn [filter]. destruct (f st); cbn [List.length]; lia.
Qed.

Lemma calls_nil (f : statement -> bool) : calls f [] = 0.
Proof. reflexivity. Qed.

Lemma disciplined_same (s s' : t) (n : Z) (new : list statement) :
  same_pg_worker s s' -> disciplined s' n new -> disciplined s n new.
Proof.
  intros (Hw & Hq & Hp) (Hf & Hfail & Hc).
  unfold disciplined, own_statement, is_get, is_complete, is_fail, get_job,
    get_job_from in *.
  rewrite Hw, Hq, Hp in *. repeat split; assumption || apply Hc.
Qed.

Lemma disciplined_app (s : t) (n m : Z) (new new' : list statement) :
  disciplined s n new -> disciplined s m new' ->
  disciplined s (n + m) (new ++ new').
Proof.
  intros (Hf & Hfail & Hc) (Hf' & Hfail' & Hc'). unfold disciplined.
  rewrite !calls_app. split; [now apply Forall_app|]. split; lia.
Qed.

Lemma disciplined_fetch (s : t) : disciplined s 0 [get_job s].
Proof.
  destruct (function_names s [] 0) as (G & C & F & _).
  unfold disciplined. rewrite !calls_cons, !calls_nil, G, C, F.
  split; [|lia]. constructor; [now left|constructor].
Qed.

Lemma disciplined_fetch_from (s : t) (keys : list Z) (k : Z) :
  partitions s = Some keys -> In k keys ->
  disciplined s 0 [get_job_from s k].
Proof.
  intros Hp Hk. destruct (function_names s [] k) as (_ & _ & _ & G & C & F & _).
  unfold disciplined. rewrite !calls_cons, !calls_nil, G, C, F.
  split; [|lia]. constructor; [|constructor]. right. left. eauto.
Qed.

Lemma disciplined_job (s : t) (fetch : statement) (parameters : list value)
      (n : Z) :
  disciplined s 0 [fetch] -> is_get s fetch = true ->
  is_complete s fetch = false -> n <= 1 ->
  disciplined s n [fetch; complete_job s parameters].
Proof.
  intros (Hf & Hfail & Hc) Hg Hnc Hn.
  destruct (function_names s parameters 0) as (_ & _ & _ & _ & _ & _ & G & C & F).
  unfold disciplined in *.
  rewrite !calls_cons, !calls_nil in *. rewrite G, C, F, Hg, Hnc in *.
  split.
  - constructor; [now inversion Hf|]. constructor; [|constructor].
    right. right. now split.
  - destruct (is_fail s fetch); lia.
Qed.

(** The common part of the three methods: the job that was fetched is
    processed and marked as completed. *)
Lemma job_processed (s s1 : t) (fetch : statement) (parameters : list value)
      (job : job_row) :
  cursor_execute fetch s = (Row job, s1) ->
  disciplined s 0 [fetch] -> is_get s fetch = true ->
  is_complete s fetch = false ->
  let r := cursor_execute (complete_job s parameters) (simulate_processing s1) in
  match fst r with
  | Fails e => pg_progress 0 [fetch; complete_job s parameters] s (snd r)
  | _ => pg_progress 1 [fetch; complete_job s parameters] s
                     (record_metrics job (snd r))
  end /\
  same_pg_worker s (snd r) /\
  disciplined s 1 [fetch; complete_job s parameters].
Proof.
  intros Hx Hd Hg Hnc. cbv zeta.
  pose proof (cursor_execute_effect fetch s) as H1. cbv zeta in H1.
  rewrite Hx in H1. cbn [fst snd] in H1.
  destruct H1 as (L1 & _ & _ & J1 & M1 & C1 & _ & W1).
  pose proof (sleep_effect processing_time s1) as H2. cbv zeta in H2.
  change (sleep processing_time s1) with (simulate_processing s1) in H2.
  destruct H2 as (C2 & J2 & M2 & D2 & _ & W2).
  set (s2 := simulate_processing s1) in *.
  pose proof (cursor_execute_effect (complete_job s parameters) s2) as H3.
  cbv zeta in H3.
  destruct (cursor_execute (complete_job s parameters) s2) as [r s3].
  cbn [fst snd] in *.
  destruct H3 as (L3 & _ & _ & J3 & M3 & C3 & _ & W3).
  assert (Hw : same_pg_worker s s3).
  { eapply same_pg_worker_trans; [exact W1|].
    eapply same_pg_worker_trans; [exact W2|exact W3]. }
  assert (Hl : log (conn s3) = log (conn s) ++ [fetch; complete_job s parameters]).
  { rewrite L3, D2, L1, <- app_assoc. reflexivity. }
  assert (Hc : (clock s + processing_time <= clock s3)%Q).
  { rewrite C3, C2, C1. apply Qle_refl. }
  split; [|split; [exact Hw|apply disciplined_job; [exact Hd|exact Hg|exact Hnc|lia]]].
  assert (Hone : pg_progress 1 [fetch; complete_job s parameters] s
                   (record_metrics job s3)).
  { unfold pg_progress, same_pg_worker. psimpl.
    rewrite J3, J2, J1, M3, M2, M1, Hl.
    split; [reflexivity|]. split; [reflexivity|].
    split; [eexists; split; [reflexivity|reflexivity]|].
    split; [reflexivity|]. split; [exact Hw|].
    assert (E : (clock s + inject_Z 1 * processing_time
                 == clock s + processing_time)%Q) by ring.
    now rewrite E. }
  destruct r as [job'| |e]; try exact Hone.
  apply pg_progress_none; try congruence; try assumption.
  eapply Qle_trans; [|exact Hc].
  rewrite <- (Qplus_0_r (clock s)) at 1.
  apply Qplus_le_r. apply processing_time_pos.
Qed.

(** The outcome of a method whose fetch is [fetch] and whose completion
    carries [parameters job]: [process_job_basic] and
    [process_job_delete_returning] are of this form. *)
Lemma fetch_and_complete_progress (s : t) (fetch : statement)
      (parameters : job_row -> t -> list value) :
  disciplined s 0 [fetch] -> is_get s fetch = true ->
  is_complete s fetch = false ->
  let r :=
    match cursor_execute fetch s with
    | (Fails e, s1) => (false, print (ErrorProcessingJob (worker_id s1) e) s1)
    | (NoRow, s1) => (false, poll_sleep s1)
    | (Row job, s1) =>
      let s2 := simulate_processing s1 in
      match cursor_execute (complete_job s (parameters job s2)) s2 with
      | (Fails e, s3) => (false, print (ErrorProcessingJob (worker_id s3) e) s3)
      | (_, s3) => (true, record_metrics job s3)
      end
    end in
  exists new,
    pg_progress (if fst r then 1 else 0) new s (snd r) /\
    disciplined s (if fst r then 1 else 0) new.
Proof.
  intros Hd Hg Hnc. cbv zeta.
  pose proof (cursor_execute_effect fetch s) as H1. cbv zeta in H1.
  destruct (cursor_execute fetch s) as [[job| |e] s1] eqn:Ex; cbn [fst snd] in H1;
    destruct H1 as (L1 & _ & _ & J1 & M1 & C1 & _ & W1).
  - pose proof (job_processed s s1 fetch
                  (parameters job (simulate_processing s1)) job Ex Hd Hg Hnc)
      as Hp.
    cbv zeta in Hp.
    destruct (cursor_execute _ (simulate_processing s1)) as [[job'| |e] s3];
      cbn [fst snd] in *; destruct Hp as (Hp & Hw & Hdj);
      exists [fetch; complete_job s (parameters job (simulate_processing s1))].
    + split; [exact Hp|exact Hdj].
    + split; [exact Hp|exact Hdj].
    + split.
      * destruct Hp as (P1 & P2 & P3 & P4 & P5 & P6).
        unfold pg_progress, same_pg_worker in *. psimpl.
        split; [exact P1|]. split; [exact P2|]. split; [exact P3|].
        split; [exact P4|]. split; [exact P5|exact P6].
      * destruct Hdj as (A & B & C). split; [exact A|]. split; [exact B|lia].
  - exists [fetch]. cbn [fst snd]. split; [|exact Hd].
    pose proof (sleep_effect polling_time s1) as H2. cbv zeta in H2.
    change (sleep polling_time s1) with (poll_sleep s1) in H2.
    destruct H2 as (C2 & J2 & M2 & D2 & _ & W2).
    apply pg_progress_none; try congruence.
    + eapply same_pg_worker_trans; eassumption.
    + rewrite C2, C1. rewrite <- (Qplus_0_r (clock s)) at 1.
      apply Qplus_le_r. apply polling_time_pos.
  - exists [fetch]. cbn [fst snd]. split; [|exact Hd].
    apply pg_progress_none; unfold same_pg_worker in *; psimpl;
      try assumption.
    rewrite C1. apply Qle_refl.
Qed.

Lemma process_job_basic_progress (s : t) :
  let r := process_job_basic s in
  exists new,
    pg_progress (if fst r then 1 else 0) new s (snd r) /\
    disciplined s (if fst r then 1 else 0) new.
Proof.
  destruct (function_names s [] 0) as (G & C & _).
  exact (fetch_and_complete_progress s (get_job s)
           (fun job _ => [VInt (job_id job)]) (disciplined_fetch s) G C).
Qed.

Lemma process_job_delete_returning_progress (s : t) :
  let r := process_job_delete_returning s in
  exists new,
    pg_progress (if fst r then 1 else 0) new s (snd r) /\
    disciplined s (if fst r then 1 else 0) new.
Proof.
  destruct (function_names s [] 0) as (G & C & _).
  exact (fetch_and_complete_progress s (get_job s)
           (fun job s2 => [VInt (job_id job); VJson (job_payload job);
                           VInt (job_priority job); VTime (job_created_at job);
                           VStr (worker_id s2)])
           (disciplined_fetch s) G C).
Qed.

Lemma statements_same (s s' : t) :
  same_pg_worker s s' ->
  is_get s' = is_get s /\ is_complete s' = is_complete s /\
  is_fail s' = is_fail s /\
  (forall k, get_job_from s' k = get_job_from s k) /\
  (forall ps, complete_job s' ps = complete_job s ps).
Proof.
  intros (Hw & Hq & _).
  unfold is_get, is_complete, is_fail, get_job_from, complete_job.
  rewrite Hw, Hq. repeat split.
Qed.

Lemma pg_progress_clock (n : Z) (new : list statement) (s s' : t) :
  0 <= n -> pg_progress n new s s' -> (clock s <= clock s')%Q.
Proof.
  intros Hn (_ & _ & _ & _ & _ & Hc).
  eapply Qle_trans; [|exact Hc].
  rewrite <- (Qplus_0_r (clock s)) at 1. apply Qplus_le_r.
  apply Qmult_le_0_compat; [|apply processing_time_pos].
  rewrite <- (Zle_Qle 0). exact Hn.
Qed.

Lemma names_fetch (s : t) (key : Z) :
  Forall (names_partition [key]) [get_job_from s key].
Proof.
  constructor; [|constructor]. exists key. eexists.
  split; [now left|reflexivity].
Qed.

Lemma names_job (s : t) (key i : Z) :
  Forall (names_partition [key])
         [get_job_from s key; complete_job s [VInt key; VInt i]].
Proof.
  constructor; [|constructor; [|constructor]];
    exists key; eexists; (split; [now left|reflexivity]).
Qed.

Lemma polled_step (key : Z) (rest : list Z) (pre : list statement)
      (s s0 : t) (r : bool * t) :
  pg_progress 0 pre s s0 -> disciplined s 0 pre ->
  Forall (names_partition [key]) pre ->
  List.filter (is_get s) pre = [get_job_from s key] ->
  polled rest s0 r -> polled (key :: rest) s r.
Proof.
  intros Hp Hd Hnm Hf (new & k & P & D & N & K & F & Hfalse & Htrue).
  pose proof Hp as (_ & _ & _ & _ & Hw & _).
  destruct (statements_same s s0 Hw) as (Eg & Ec & Ef & Egf & Ecj).
  assert (Hn : 0 <= (if fst r then 1 else 0)) by (destruct (fst r); lia).
  exists (pre ++ new), (S k).
  split; [|split; [|split; [|split; [|split; [|split]]]]].
  - replace (if fst r then 1 else 0) with (0 + (if fst r then 1 else 0)) by lia.
    eapply pg_progress_trans; [lia|exact Hn|exact Hp|exact P].
  - replace (if fst r then 1 else 0) with (0 + (if fst r then 1 else 0)) by lia.
    apply disciplined_app; [exact Hd|].
    apply (disciplined_same s s0 _ _ Hw D).
  - apply Forall_app. split.
    + eapply Forall_impl; [|exact Hnm].
      intros st (k0 & ps & Hin & E). exists k0, ps. split; [|exact E].
      destruct Hin as [<-|[]]. now left.
    + eapply Forall_impl; [|exact N].
      intros st (k0 & ps & Hin & E). exists k0, ps. split; [now right|exact E].
  - cbn [List.length]. lia.
  - rewrite filter_app, Hf. rewrite Eg in F. rewrite F.
    cbn [firstn List.map app]. f_equal.
    apply map_ext. exact Egf.
  - intros E. destruct (Hfalse E) as (-> & Hc). split; [reflexivity|].
    eapply Qle_trans; [|exact Hc].
    apply Qplus_le_l. apply (pg_progress_clock 0 pre s s0); [lia|exact Hp].
  - intros E. destruct (Htrue E) as (Hk & pre' & key' & job & -> & Hnth).
    split; [lia|].
    exists (pre ++ pre'), key', job. split.
    + rewrite <- app_assoc, Egf, Ecj. reflexivity.
    + destruct k as [|k]; [lia|]. exact Hnth.
Qed.

Lemma try_partitions_polled (all : list Z) :
  forall (keys : list Z) (s : t),
    partitions s = Some all -> incl keys all ->
    polled keys s (try_partitions keys s).
Proof.
  induction keys as [|key rest IH]; intros s Hall Hin.
  - cbn [try_partitions]. exists [], 0%nat. cbn [fst snd].
    pose proof (sleep_effect polling_time s) as H2. cbv zeta in H2.
    change (sleep polling_time s) with (poll_sleep s) in H2.
    destruct H2 as (C2 & J2 & M2 & D2 & _ & W2).
    split; [|split; [|split; [|split; [|split; [|split]]]]].
    + apply pg_progress_none; try assumption.
      * now rewrite D2, app_nil_r.
      * rewrite C2. rewrite <- (Qplus_0_r (clock s)) at 1.
        apply Qplus_le_r. apply polling_time_pos.
    + unfold disciplined. rewrite !calls_nil. split; [constructor|lia].
    + constructor.
    + cbn. lia.
    + reflexivity.
    + intros _. split; [reflexivity|]. rewrite C2. apply Qle_refl.
    + discriminate.
  - assert (Hk : In key all) by (apply Hin; now left).
    assert (Hrest : incl rest all) by (intros x Hx; apply Hin; now right).
    destruct (function_names s [] key) as (_ & _ & _ & G & C & _).
    pose proof (disciplined_fetch_from s all key Hall Hk) as Hd.
    cbn [try_partitions].
    change {| function := get_function (QUEUE_TYPES (queue_type s));
              parameters := [VInt key; VStr (worker_id s)] |}
      with (get_job_from s key).
    pose proof (cursor_execute_effect (get_job_from s key) s) as H1.
    cbv zeta in H1.
    destruct (cursor_execute (get_job_from s key) s) as [[job| |e] s1] eqn:Ex;
      cbn [fst snd] in H1;
      destruct H1 as (L1 & _ & _ & J1 & M1 & C1 & _ & W1).
    + pose proof (job_processed s s1 (get_job_from s key)
                    [VInt key; VInt (job_id job)] job Ex Hd G C) as Hp.
      cbv zeta in Hp.
      change {| function := complete_function (QUEUE_TYPES (queue_type s));
                parameters := [VInt key; VInt (job_id job)] |}
        with (complete_job s [VInt key; VInt (job_id job)]).
      destruct (cursor_execute (complete_job s [VInt key; VInt (job_id job)])
                               (simulate_processing s1)) as [[job'| |e] s3];
        cbn [fst snd] in Hp; destruct Hp as (Hp & Hw & Hdj).
      * exists [get_job_from s key; complete_job s [VInt key; VInt (job_id job)]],
               1%nat.
        cbn [fst snd]. split; [exact Hp|]. split; [exact Hdj|].
        split.
        { eapply Forall_impl; [|apply (names_job s key (job_id job))].
          intros st (k0 & ps & Hin0 & E). exists k0, ps.
          split; [|exact E]. destruct Hin0 as [<-|[]]. now left. }
        split; [cbn; lia|]. split.
        { destruct (function_names s [VInt key; VInt (job_id job)] key)
            as (_ & _ & _ & G' & _ & _ & G2 & _).
          cbn [filter]. rewrite G', G2. reflexivity. }
        split; [discriminate|]. intros _. split; [lia|].
        exists [], key, job. split; reflexivity.
      * exists [get_job_from s key; complete_job s [VInt key; VInt (job_id job)]],
               1%nat.
        cbn [fst snd]. split; [exact Hp|]. split; [exact Hdj|].
        split.
        { eapply Forall_impl; [|apply (names_job s key (job_id job))].
          intros st (k0 & ps & Hin0 & E). exists k0, ps.
          split; [|exact E]. destruct Hin0 as [<-|[]]. now left. }
        split; [cbn; lia|]. split.
        { destruct (function_names s [VInt key; VInt (job_id job)] key)
            as (_ & _ & _ & G' & _ & _ & G2 & _).
          cbn [filter]. rewrite G', G2. reflexivity. }
        split; [discriminate|]. intros _. split; [lia|].
        exists [], key, job. split; reflexivity.
      * apply (polled_step key rest
                 [get_job_from s key; complete_job s [VInt key; VInt (job_id job)]]
                 s (print (ErrorProcessingJobFromPartition (worker_id s3) key e) s3)).
        -- destruct Hp as (P1 & P2 & P3 & P4 & P5 & P6).
           unfold pg_progress, same_pg_worker in *. psimpl.
           split; [exact P1|]. split; [exact P2|]. split; [exact P3|].
           split; [exact P4|]. split; [exact P5|exact P6].
        -- destruct Hdj as (A & B & D). split; [exact A|]. split; [exact B|lia].
        -- apply names_job.
        -- destruct (function_names s [VInt key; VInt (job_id job)] key)
             as (_ & _ & _ & G' & _ & _ & G2 & _).
           cbn [filter]. rewrite G', G2. reflexivity.
        -- apply IH; [|exact Hrest]. psimpl.
           destruct Hw as (_ & _ & ->). exact Hall.
    + apply (polled_step key rest [get_job_from s key] s s1).
      * apply pg_progress_none; try assumption. rewrite C1. apply Qle_refl.
      * exact Hd.
      * apply names_fetch.
      * cbn [filter]. now rewrite G.
      * apply IH; [|exact Hrest]. destruct W1 as (_ & _ & ->). exact Hall.
    + apply (polled_step key rest [get_job_from s key] s
               (print (ErrorProcessingJobFromPartition (worker_id s1) key e) s1)).
      * apply pg_progress_none; unfold same_pg_worker in *; psimpl;
          try assumption.
        rewrite C1. apply Qle_refl.
      * exact Hd.
      * apply names_fetch.
      * cbn [filter]. now rewrite G.
      * apply IH; [|exact Hrest]. psimpl.
        destruct W1 as (_ & _ & ->). exact Hall.
Qed.

Lemma polled_progress (keys : list Z) (s : t) (r : bool * t) :
  polled keys s r ->
  exists new,
    pg_progress (if fst r then 1 else 0) new s (snd r) /\
    disciplined s (if fst r then 1 else 0) new.
Proof. intros (new & k & P & D & _). exists new. now split. Qed.


(** One turn of the loop of [run] that does not raise. *)
Lemma turn_progress (s s' : t) (found : bool) :
  turn s = (Ok found, s') ->
  exists new,
    pg_progress (if found then 1 else 0) new s s' /\
    disciplined s (if found then 1 else 0) new.
Proof.
  unfold turn, process_job_partitioned.
  destruct (queue_type s).
  - pose proof (process_job_basic_progress s) as H. cbv zeta in H.
    destruct (process_job_basic s) as [b s1]. intros E. injection E as <- <-.
    exact H.
  - pose proof (process_job_delete_returning_progress s) as H. cbv zeta in H.
    destruct (process_job_delete_returning s) as [b s1].
    intros E. injection E as <- <-. exact H.
  - destruct (partitions s) as [keys|] eqn:Ep; [|discriminate].
    pose proof (try_partitions_polled keys keys s Ep (incl_refl keys)) as H.
    apply polled_progress in H.
    destruct (try_partitions keys s) as [b s1]. intros E. injection E as <- <-.
    exact H.
Qed.

Lemma turn_raises (s s' : t) (e : exn) :
  turn s = (Raise e, s') -> s' = s.
Proof.
  unfold turn, process_job_partitioned.
  destruct (queue_type s).
  - destruct (process_job_basic s); discriminate.
  - destruct (process_job_delete_returning s); discriminate.
  - destruct (partitions s); [destruct (try_partitions _ _); discriminate|].
    intros E. now injection E.
Qed.

Lemma pg_progress_refl (s : t) : pg_progress 0 [] s s.
Proof.
  apply pg_progress_none; try reflexivity.
  - now rewrite app_nil_r.
  - apply same_pg_worker_refl.
  - apply Qle_refl.
Qed.

Lemma disciplined_nil (s : t) : disciplined s 0 [].
Proof. unfold disciplined. rewrite !calls_nil. split; [constructor|lia]. Qed.

Lemma run_loop_progress_pg (iterations : nat) :
  forall s : t,
    exists n new,
      0 <= n <= Z.of_nat iterations /\
      pg_progress n new s (snd (run_loop iterations s)) /\
      disciplined s n new.
Proof.
  induction iterations as [|k IH]; intros s.
  - exists 0, []. split; [lia|]. split; [apply pg_progress_refl|].
    apply disciplined_nil.
  - cbn [run_loop].
    destruct (turn s) as [[found|e] s1] eqn:Et.
    + destruct (turn_progress s s1 found Et) as (new1 & P1 & D1).
      destruct (IH s1) as (n2 & new2 & Hn2 & P2 & D2).
      pose proof P1 as (_ & _ & _ & _ & Hw & _).
      assert (Hn1 : 0 <= (if found then 1 else 0) <= 1)
        by (destruct found; lia).
      exists ((if found then 1 else 0) + n2), (new1 ++ new2).
      split; [lia|]. split.
      * eapply pg_progress_trans; [lia|lia|exact P1|exact P2].
      * apply disciplined_app; [exact D1|].
        apply (disciplined_same s s1 _ _ Hw D2).
    + apply turn_raises in Et. subst s1. cbn [snd].
      exists 0, []. split; [lia|]. split; [apply pg_progress_refl|].
      apply disciplined_nil.
Qed.

Lemma run_progress_pg (iterations : nat) (s : t) :
  exists n new,
    0 <= n <= Z.of_nat iterations /\
    pg_progress n new s (snd (run iterations s)) /\
    disciplined s n new /\
    exists out,
      stdout (snd (run iterations s)) =
        out ++ [Stopped (worker_id s) (jobs_processed s + n)].
Proof.
  unfold run.
  set (s1 := print (Started (worker_id s)) s).
  destruct (run_loop_progress_pg iterations s1) as (n & new & Hn & P & D).
  destruct (run_loop iterations s1) as [raised s2]. cbn [snd] in *.
  exists n, new. split; [exact Hn|].
  destruct P as (P1 & P2 & P3 & P4 & P5 & P6).
  split; [|split].
  - unfold pg_progress, same_pg_worker in *. subst s1. psimpl.
    split; [exact P1|]. split; [exact P2|]. split; [exact P3|].
    split; [exact P4|]. split; [exact P5|exact P6].
  - apply (disciplined_same s s1); [|exact D]. repeat split.
  - eexists. psimpl. rewrite P1. destruct P5 as (-> & _). reflexivity.
Qed.

(** X18: what a method returns is what it has counted.  Each of
    [process_job_basic], [process_job_delete_returning] and
    [process_job_partitioned] returns True exactly when it has counted
    one job: then the worker's [jobs_processed] and the collector's
    [jobs_processed] have grown by 1, one sample has been appended to
    the collector and the processing time has passed; when it returns
    False all three are as before, whatever the database answered. *)
Theorem pg_methods_count_one_job (s : t) :
  (let r := process_job_basic s in
   exists new, pg_progress (if fst r then 1 else 0) new s (snd r)) /\
  (let r := process_job_delete_returning s in
   exists new, pg_progress (if fst r then 1 else 0) new s (snd r)) /\
  (forall found s',
     process_job_partitioned s = (Ok found, s') ->
     exists new, pg_progress (if found then 1 else 0) new s s').
Proof.
  split; [|split]; cbv zeta.
  - destruct (process_job_basic_progress s) as (new & P & _). eauto.
  - destruct (process_job_delete_returning_progress s) as (new & P & _). eauto.
  - unfold process_job_partitioned. intros found s'.
    destruct (partitions s) as [keys|] eqn:Ep; [|discriminate].
    pose proof (try_partitions_polled keys keys s Ep (incl_refl keys)) as H.
    apply polled_progress in H.
    destruct (try_partitions keys s) as [b s1]. intros E. injection E as <- <-.
    destruct H as (new & P & _). eauto.
Qed.

(** X19: over a whole run of a PostgreSQL worker, for any number of
    turns of its loop and any behaviour of the database, at most one
    job is counted per turn; the worker's [jobs_processed], the
    collector's [jobs_processed] and the number of samples in the
    collector grow by the same amount [n]; at least [n] processing
    times (5 ms each) have passed, which bounds the worker's throughput
    by 200 jobs per second; and the last line printed reports the
    worker's final [jobs_processed], also when the loop was left by an
    exception. *)
Theorem pg_run_counters_agree (iterations : nat) (s : t) :
  let s' := snd (run iterations s) in
  exists n,
    0 <= n <= Z.of_nat iterations /\
    jobs_processed s' = jobs_processed s + n /\
    MetricsCollector.jobs_processed (metrics s') =
      MetricsCollector.jobs_processed (metrics s) + n /\
    len (MetricsCollector.latencies (metrics s')) =
      len (MetricsCollector.latencies (metrics s)) + n /\
    (inject_Z n * (5 # 1000) <= clock s' - clock s)%Q /\
    exists out, stdout s' = out ++ [Stopped (worker_id s) (jobs_processed s')].
Proof.
  cbv zeta.
  destruct (run_progress_pg iterations s)
    as (n & new & Hn & (Hj & Hm & (l & Hl & Hlen) & _ & _ & Hc) & _ & out & Ho).
  exists n. split; [exact Hn|]. split; [exact Hj|]. split; [exact Hm|].
  split; [|split].
  - rewrite Hl. unfold len in *. rewrite length_app. lia.
  - apply (Qplus_le_r _ _ (clock s)).
    assert (E : (clock s + (clock (snd (run iterations s)) - clock s)
                 == clock (snd (run iterations s)))%Q) by ring.
    rewrite E. exact Hc.
  - exists out. rewrite Ho, Hj. reflexivity.
Qed.

(** X20: the statements of a worker.  Whatever the database answers,
    the statements that a run sends are fetches with the get function
    of the worker's queue type, for the worker itself and from one of
    its own partitions when it has partitions, and completions with the
    complete function; the fail function of the queue type is never
    called, so a job whose completion raised is not handed back; every
    job counted was marked as completed, and there are never more
    completions than fetches. *)
Theorem pg_worker_statements (iterations : nat) (s : t) :
  let s' := snd (run iterations s) in
  exists new,
    log (conn s') = log (conn s) ++ new /\
    Forall (own_statement s) new /\
    calls (is_fail s) new = 0 /\
    jobs_processed s' - jobs_processed s <= calls (is_complete s) new /\
    calls (is_complete s) new <= calls (is_get s) new.
Proof.
  cbv zeta.
  destruct (run_progress_pg iterations s)
    as (n & new & _ & (Hj & _ & _ & Hl & _) & (Hf & Hfail & Hc) & _).
  exists new. split; [exact Hl|]. split; [exact Hf|]. split; [exact Hfail|].
  split; lia.
Qed.

(** X21: the partitions are tried in their order.  A worker with
    partitions [keys] fetches from them in the order of the list, going
    on to the next one when a partition has no job and also when its
    fetch or the completion of its job raises; it stops at the first
    partition whose job it has completed and returns True, its last two
    statements being the fetch from that partition and the completion
    of the job there; when no partition yields a job it has fetched
    from every one of them, waits for the polling time and returns
    False. *)
Theorem partitions_polled_in_order (s : t) (keys : list Z) :
  partitions s = Some keys ->
  exists found s',
    process_job_partitioned s = (Ok found, s') /\
    polled keys s (found, s').
Proof.
  intros Hp. unfold process_job_partitioned. rewrite Hp.
  pose proof (try_partitions_polled keys keys s Hp (incl_refl keys)) as H.
  destruct (try_partitions keys s) as [found s'].
  exists found, s'. split; [reflexivity|exact H].
Qed.

Lemma partitions_polled_in_order_witness :
  let boom := Exn "canceling statement due to statement timeout" in
  let job := {| job_id := 41; job_created_at := 1;
                job_payload := 0; job_priority := 5 |} in
  let s := pg_worker partitioned (Some [3; 4; 5; 6])
                     [NoRow; Fails boom; Row job; NoRow] in
  exists found s',
    process_job_partitioned s = (Ok found, s') /\
    polled [3; 4; 5; 6] s (found, s').
Proof.
  intros boom job s.
  apply (partitions_polled_in_order s [3; 4; 5; 6]). reflexivity.
Defined.

(** X22: a completion that raises leaves the job behind.  When the
    fetch returns a job and the completion raises, [process_job_basic]
    and [process_job_delete_returning] return False having sent these
    two statements only: the error is printed, nothing is counted or
    recorded although the processing time has passed, and no statement
    hands the job back to the queue. *)
Theorem completion_failure_drops_job (s : t) (job : job_row) (e : exn)
    (rest : list reply) :
  script (conn s) = Row job :: Fails e :: rest ->
  (let r := process_job_basic s in
   fst r = false /\
   log (conn (snd r)) =
     log (conn s) ++ [get_job s; complete_job s [VInt (job_id job)]] /\
   script (conn (snd r)) = rest /\
   stdout (snd r) = stdout s ++ [ErrorProcessingJob (worker_id s) e] /\
   jobs_processed (snd r) = jobs_processed s /\
   metrics (snd r) = metrics s /\
   (clock (snd r) == clock s + processing_time)%Q) /\
  (let r := process_job_delete_returning s in
   fst r = false /\
   log (conn (snd r)) =
     log (conn s) ++
     [get_job s;
      complete_job s [VInt (job_id job); VJson (job_payload job);
                      VInt (job_priority job); VTime (job_created_at job);
                      VStr (worker_id s)]] /\
   script (conn (snd r)) = rest /\
   stdout (snd r) = stdout s ++ [ErrorProcessingJob (worker_id s) e] /\
   jobs_processed (snd r) = jobs_processed s /\
   metrics (snd r) = metrics s /\
   (clock (snd r) == clock s + processing_time)%Q).
Proof.
  intros Hs. cbv zeta.
  unfold process_job_basic, process_job_delete_returning, cursor_execute,
    execute, simulate_processing, sleep.
  rewrite Hs. psimpl. cbn [fst snd]. rewrite <- !app_assoc.
  split; (repeat split; try reflexivity; apply Qred_correct).
Qed.

Lemma completion_failure_drops_job_witness :
  let boom := Exn "server closed the connection unexpectedly" in
  let job := {| job_id := 41; job_created_at := 1;
                job_payload := 0; job_priority := 5 |} in
  let s := pg_worker delete_returning None [Row job; Fails boom; NoRow] in
  let r := process_job_delete_returning s in
  fst r = false /\
  log (conn (snd r)) =
    log (conn s) ++
    [get_job s;
     complete_job s [VInt (job_id job); VJson (job_payload job);
                     VInt (job_priority job); VTime (job_created_at job);
                     VStr (worker_id s)]] /\
  script (conn (snd r)) = [NoRow] /\
  stdout (snd r) = stdout s ++ [ErrorProcessingJob (worker_id s) boom] /\
  jobs_processed (snd r) = jobs_processed s /\
  metrics (snd r) = metrics s /\
  (clock (snd r) == clock s + processing_time)%Q.
Proof.
  intros boom job s.
  exact (proj2 (completion_failure_drops_job s job boom [NoRow] eq_refl)).
Defined.

Lemma run_loop_names (all : list Z) (iterations : nat) :
  forall s : t,
    queue_type s = partitioned -> partitions s = Some all ->
    exists new,
      log (conn (snd (run_loop iterations s))) = log (conn s) ++ new /\
      Forall (names_partition all) new.
Proof.
  induction iterations as [|k IH]; intros s Hq Hp.
  - exists []. split; [now rewrite app_nil_r|constructor].
  - cbn [run_loop]. unfold turn, process_job_partitioned. rewrite Hq, Hp.
    pose proof (try_partitions_polled all all s Hp (incl_refl all)) as H.
    destruct (try_partitions all s) as [found s1].
    destruct H as (new1 & k1 & P & _ & N & _).
    cbn [fst snd] in P.
    destruct P as (_ & _ & _ & L1 & (_ & Hq1 & Hp1) & _).
    destruct (IH s1) as (new2 & L2 & N2); [congruence|congruence|].
    exists (new1 ++ new2).
    split; [rewrite L2, L1, <- app_assoc; reflexivity|].
    apply Forall_app. now split.
Qed.

(** X23: which partitions the configured pool asks for.  With the
    settings of config.py (10 workers, 16 partitions) the worker with
    identifier [w] in 0..9 is constructed with the one partition [w],
    and every statement that a run of it sends, fetch or completion,
    names that partition: no worker of the pool ever fetches from the
    partitions 10 to 15. *)
Theorem configured_worker_names_own_partition
    (w : Z) (metrics_collector : MetricsCollector.t) (db : database)
    (now : Q) (out : list line) (iterations : nat) :
  0 <= w < Config.num_workers Config.BENCHMARK ->
  exists s,
    init w partitioned metrics_collector db now out = Ok s /\
    partitions s = Some [w] /\
    exists new,
      log (conn (snd (run iterations s))) = log db ++ new /\
      Forall (names_partition [w]) new.
Proof.
  cbv [Config.num_workers Config.BENCHMARK]. intros Hw.
  unfold init. cbv [Config.num_workers Config.BENCHMARK
                    Config.partitioned_partitions].
  rewrite partitions_ok by lia.
  change (range (Z.max 1 (16 / 10))) with [0]. cbn [List.map].
  rewrite Z.add_0_r, Z.mod_mod, Z.mod_small by lia.
  eexists. split; [reflexivity|]. split; [reflexivity|].
  unfold run.
  match goal with |- context [run_loop iterations ?s1] =>
    destruct (run_loop_names [w] iterations s1 eq_refl eq_refl)
      as (new & L & N);
    destruct (run_loop iterations s1) as [raised s2]
  end.
  cbn [snd] in *. psimpl. exists new. split; [exact L|exact N].
Qed.

Lemma configured_worker_names_own_partition_witness :
  let job := {| job_id := 41; job_created_at := 1;
                job_payload := 0; job_priority := 5 |} in
  let db := {| script := [NoRow; Row job; NoRow]; log := [] |} in
  exists s,
    init 7 partitioned (MetricsCollector.init "metrics_pg.jsonl" 0) db 2 []
      = Ok s /\
    partitions s = Some [7] /\
    exists new,
      log (conn (snd (run 4 s))) = log db ++ new /\
      Forall (names_partition [7]) new.
Proof.
  intros job db.
  apply (configured_worker_names_own_partition 7
           (MetricsCollector.init "metrics_pg.jsonl" 0) db 2 [] 4).
  cbv [Config.num_workers Config.BENCHMARK]. lia.
Defined.

Lemma try_partitions_idle :
  forall (keys : list Z) (s : t),
    script (conn s) = [] ->
    let r := try_partitions keys s in
    fst r = false /\ script (conn (snd r)) = [] /\
    log (conn (snd r)) = log (conn s) ++ List.map (get_job_from s) keys /\
    (clock (snd r) == clock s + polling_time)%Q /\
    jobs_processed (snd r) = jobs_processed s /\
    metrics (snd r) = metrics s /\ stdout (snd r) = stdout s /\
    same_pg_worker s (snd r).
Proof.
  induction keys as [|key rest IH]; intros s Hs; cbv zeta.
  - cbn [try_partitions fst snd List.map]. unfold poll_sleep, sleep. psimpl.
    rewrite app_nil_r. repeat split; try assumption. apply Qred_correct.
  - cbn [try_partitions]. unfold cursor_execute, execute. rewrite Hs.
    cbv beta iota zeta.
    match goal with |- context [try_partitions rest ?s1] =>
      pose proof (IH s1 eq_refl) as H; cbv zeta in H;
      destruct (try_partitions rest s1) as [found s']
    end.
    cbn [fst snd] in *. unfold same_pg_worker, get_job_from in *. psimpl.
    destruct H as (A & B & C & D & E & F & G & H).
    split; [exact A|]. split; [exact B|].
    split; [rewrite C, <- app_assoc; reflexivity|].
    split; [exact D|]. repeat split; try assumption; apply H.
Qed.

Lemma turn_idle (s : t) :
  script (conn s) = [] ->
  (queue_type s = partitioned -> partitions s <> None) ->
  exists s',
    turn s = (Ok false, s') /\ script (conn s') = [] /\
    log (conn s') = log (conn s) ++ idle_turn s /\
    (clock s' == clock s + polling_time)%Q /\
    jobs_processed s' = jobs_processed s /\
    metrics s' = metrics s /\ stdout s' = stdout s /\
    same_pg_worker s s'.
Proof.
  intros Hs Hp. unfold turn, idle_turn, process_job_partitioned.
  destruct (queue_type s) eqn:Eq.
  - unfold process_job_basic, cursor_execute, execute, poll_sleep, sleep.
    rewrite Hs, Eq. eexists. split; [reflexivity|]. psimpl.
    unfold get_job. rewrite Eq.
    repeat split; try reflexivity. apply Qred_correct.
  - unfold process_job_delete_returning, cursor_execute, execute, poll_sleep,
      sleep.
    rewrite Hs, Eq. eexists. split; [reflexivity|]. psimpl.
    unfold get_job. rewrite Eq.
    repeat split; try reflexivity. apply Qred_correct.
  - destruct (partitions s) as [keys|] eqn:Ep; [|now destruct (Hp eq_refl)].
    pose proof (try_partitions_idle keys s Hs) as H. cbv zeta in H.
    destruct (try_partitions keys s) as [found s1]. cbn [fst snd] in H.
    destruct H as (-> & H). exists s1. split; [reflexivity|exact H].
Qed.

Lemma idle_turn_same (s s' : t) :
  same_pg_worker s s' -> idle_turn s' = idle_turn s.
Proof.
  intros (Hw & Hq & Hp). unfold idle_turn, get_job, get_job_from.
  now rewrite Hw, Hq, Hp.
Qed.

Lemma run_loop_idle (iterations : nat) :
  forall s : t,
    script (conn s) = [] ->
    (queue_type s = partitioned -> partitions s <> None) ->
    let r := run_loop iterations s in
    fst r = None /\ script (conn (snd r)) = [] /\
    log (conn (snd r)) =
      log (conn s) ++ List.concat (repeat (idle_turn s) iterations) /\
    (clock (snd r)
     == clock s + inject_Z (Z.of_nat iterations) * polling_time)%Q /\
    jobs_processed (snd r) = jobs_processed s /\
    metrics (snd r) = metrics s /\ stdout (snd r) = stdout s /\
    same_pg_worker s (snd r).
Proof.
  induction iterations as [|k IH]; intros s Hs Hp; cbv zeta.
  - cbn [run_loop fst snd repeat List.concat]. rewrite app_nil_r.
    repeat split; try assumption. cbn [Z.of_nat]. ring.
  - cbn [run_loop].
    destruct (turn_idle s Hs Hp) as (s1 & -> & S1 & L1 & C1 & J1 & M1 & O1 & W1).
    assert (Hp1 : queue_type s1 = partitioned -> partitions s1 <> None).
    { destruct W1 as (_ & -> & ->). exact Hp. }
    destruct (IH s1 S1 Hp1) as (A & B & C & D & E & F & G & H).
    split; [exact A|]. split; [exact B|].
    split; [rewrite C, L1, (idle_turn_same s s1 W1), <- app_assoc; reflexivity|].
    split.
    { rewrite D, C1, Nat2Z.inj_succ. unfold Z.succ.
      rewrite inject_Z_plus. ring. }
    split; [congruence|]. split; [congruence|]. split; [congruence|].
    eapply same_pg_worker_trans; eassumption.
Qed.

(** X24: a worker in front of an empty queue polls at the pace of
    the polling time.  When the queue stays empty, every turn of the
    loop sends one fetch (one per partition for a partitioned worker,
    in the order of its partitions) and then waits for
    [worker_poll_interval_ms]: after [iterations] turns that many
    polling times have passed, nothing has been counted, recorded or
    printed but the first and the last line of [run], and no exception
    has left the loop. *)
Theorem idle_worker_polls (iterations : nat) (s : t) :
  script (conn s) = [] ->
  (queue_type s = partitioned -> partitions s <> None) ->
  let r := run iterations s in
  fst r = None /\
  log (conn (snd r)) =
    log (conn s) ++ List.concat (repeat (idle_turn s) iterations) /\
  (clock (snd r)
   == clock s + inject_Z (Z.of_nat iterations) * polling_time)%Q /\
  jobs_processed (snd r) = jobs_processed s /\
  metrics (snd r) = metrics s /\
  stdout (snd r) =
    stdout s ++ [Started (worker_id s); Stopped (worker_id s) (jobs_processed s)].
Proof.
  intros Hs Hp. cbv zeta. unfold run.
  pose proof (run_loop_idle iterations (print (Started (worker_id s)) s) Hs Hp)
    as H.
  cbv zeta in H.
  destruct (run_loop iterations (print (Started (worker_id s)) s))
    as [raised s2].
  cbn [fst snd] in *.
  destruct H as (A & B & C & D & E & F & G & (H1 & H2 & H3)).
  psimpl. rewrite C, E, F, G, H1, <- app_assoc.
  split; [exact A|]. split; [reflexivity|].
  split; [exact D|]. repeat split.
Qed.

Lemma idle_worker_polls_witness :
  let s := pg_worker partitioned (Some [3; 4]) [] in
  let r := run 5 s in
  fst r = None /\
  log (conn (snd r)) = log (conn s) ++ List.concat (repeat (idle_turn s) 5) /\
  (clock (snd r) == clock s + inject_Z (Z.of_nat 5) * polling_time)%Q /\
  jobs_processed (snd r) = jobs_processed s /\
  metrics (snd r) = metrics s /\
  stdout (snd r) =
    stdout s ++ [Started (worker_id s); Stopped (worker_id s) (jobs_processed s)].
Proof.
  intros s.
  apply (idle_worker_polls 5 s); [reflexivity|].
  intros _. discriminate.
Defined.

End PgWorkerTurns.

(* ------------------------------------------------------------------ *)
(** ** Which pools serve every partition *)

Section PoolCoverage.

Import PostgreSQLWorker.



End PoolCoverage.

(* ------------------------------------------------------------------ *)
(** ** The pace of the Valkey worker *)

Section WorkerPace.

Import ValkeyWorker.

Lemma paced_same (s s' : t) :
  jobs_processed s' = jobs_processed s -> (clock s <= clock s')%Q ->
  paced s s'.
Proof.
  intros Hj Hc. unfold paced. rewrite Hj, Z.sub_diag.
  assert (E : (clock s + inject_Z 0 * processing_time == clock s)%Q) by ring.
  now rewrite E.
Qed.

Lemma paced_trans (s s1 s2 : t) : paced s s1 -> paced s1 s2 -> paced s s2.
Proof.
  unfold paced. intros H1 H2.
  eapply Qle_trans; [|exact H2].
  replace (jobs_processed s2 - jobs_processed s)
    with ((jobs_processed s1 - jobs_processed s)
          + (jobs_processed s2 - jobs_processed s1)) by lia.
  rewrite inject_Z_plus, Qmult_plus_distr_l, Qplus_assoc.
  apply Qplus_le_l. exact H1.
Qed.

(** An entry that is counted has been processed for the processing
    time. *)
Lemma collect_paced (i : Valkey.entry_id) (latency_ms : Q) (b : batch) (s : t) :
  paced s (snd (collect i latency_ms b (simulate_processing s))).
Proof.
  unfold paced, collect, simulate_processing, sleep. wsimpl.
  replace (jobs_processed s + 1 - jobs_processed s) with 1 by lia.
  rewrite Qred_correct.
  assert (E : (clock s + inject_Z 1 * processing_time
               == clock s + processing_time)%Q) by ring.
  rewrite E. apply Qle_refl.
Qed.

Lemma process_stream_messages_paced (msgs : list Valkey.message) :
  forall (b : batch) (s : t), paced s (snd (process_stream_messages msgs b s)).
Proof.
  induction msgs as [|m rest IH]; intros b s.
  - apply paced_same; [reflexivity|apply Qle_refl].
  - cbn [process_stream_messages].
    destruct (measure_cases m s)
      as [(e & s1 & _ & _ & -> & Hs1)|(lat & _ & ->)].
    + destruct (raised_frame s s1 Hs1) as (Rj & _ & _ & _ & _ & Rc).
      eapply paced_trans; [|apply IH].
      apply paced_same; [exact Rj|exact Rc].
    + pose proof (collect_paced (Valkey.message_id m) lat b s) as Hc.
      destruct (collect (Valkey.message_id m) lat b (simulate_processing s))
        as [b1 s2].
      eapply paced_trans; [exact Hc|apply IH].
Qed.

Lemma process_reply_paced (messages : list (string * list Valkey.message)) :
  forall (b : batch) (s : t), paced s (snd (process_reply messages b s)).
Proof.
  induction messages as [|[name msgs] rest IH]; intros b s.
  - apply paced_same; [reflexivity|apply Qle_refl].
  - cbn [process_reply].
    pose proof (process_stream_messages_paced msgs b s) as H1.
    destruct (process_stream_messages msgs b s) as [b1 s1].
    eapply paced_trans; [exact H1|apply IH].
Qed.

Lemma ack_and_record_clock (on_error : string -> exn -> line) (b : batch) (s : t) :
  clock (snd (ack_and_record on_error b s)) = clock s.
Proof.
  unfold ack_and_record, xack. cbv zeta.
  destruct (ids_to_ack b) as [|i ids].
  - destruct (batch_latencies b); reflexivity.
  - destruct (Valkey.xack (i :: ids) (valkey s)) as [[n|e] v];
      destruct (batch_latencies b); reflexivity.
Qed.

Lemma ack_and_record_paced (on_error : string -> exn -> line) (b : batch) (s : t) :
  paced s (snd (ack_and_record on_error b s)).
Proof.
  pose proof (ack_and_record_effect on_error b s) as H. cbv zeta in H.
  destruct H as (_ & Hj & _).
  apply paced_same; [exact Hj|].
  rewrite ack_and_record_clock. apply Qle_refl.
Qed.

(** The fetch blocks for the poll interval at most; it is no step back
    when the interval is not negative. *)
Lemma xreadgroup_clock (s s1 : t)
      (r : result (list (string * list Valkey.message))) :
  0 <= poll_interval s ->
  xreadgroup s = (r, s1) -> (clock s <= clock s1)%Q.
Proof.
  intros Hp. unfold xreadgroup.
  destruct (Valkey.xreadgroup _ _ _ _ _) as [r0 v].
  destruct r0 as [[|x l]|e]; intros H; injection H as <- <-;
    unfold sleep; wsimpl; try apply Qle_refl.
  apply Qred_le_add. apply Qle_shift_div_l; [reflexivity|].
  rewrite Qmult_0_l. rewrite <- (Zle_Qle 0). exact Hp.
Qed.

Lemma process_messages_paced (s : t) :
  0 <= poll_interval s -> paced s (snd (process_messages s)).
Proof.
  intros Hp. unfold process_messages.
  destruct (xreadgroup s) as [r s1] eqn:Ex.
  destruct (xreadgroup_frame s s1 r Ex) as (Fj & _).
  pose proof (xreadgroup_clock s s1 r Hp Ex) as Fc.
  assert (H1 : paced s s1) by (apply paced_same; assumption).
  destruct r as [[|m ms]|e].
  - exact H1.
  - pose proof (process_reply_paced (m :: ms) empty_batch s1) as H2.
    destruct (process_reply (m :: ms) empty_batch s1) as [b s2].
    cbn [snd] in H2.
    eapply paced_trans; [exact H1|].
    eapply paced_trans; [exact H2|apply ack_and_record_paced].
  - destruct (contains "NOGROUP" (exn_msg e)); cbn [snd].
    + eapply paced_trans; [exact H1|].
      unfold xgroup_create.
      destruct (Valkey.xgroup_create _) as [r v]. cbn [snd].
      apply paced_same; [reflexivity|apply Qle_refl].
    + eapply paced_trans; [exact H1|].
      apply paced_same; [reflexivity|apply Qle_refl].
Qed.

Lemma process_claimed_paced (l : list Valkey.message) :
  forall (b : batch) (s : t), paced s (snd (snd (process_claimed l b s))).
Proof.
  induction l as [|m rest IH]; intros b s.
  - apply paced_same; [reflexivity|apply Qle_refl].
  - cbn [process_claimed].
    destruct (measure_cases m s)
      as [(e & s1 & _ & _ & -> & Hs1)|(lat & _ & ->)].
    + destruct (raised_frame s s1 Hs1) as (Rj & _ & _ & _ & _ & Rc).
      apply paced_same; [exact Rj|exact Rc].
    + pose proof (collect_paced (Valkey.message_id m) lat b s) as Hc.
      destruct (collect (Valkey.message_id m) lat b (simulate_processing s))
        as [b1 s2].
      eapply paced_trans; [exact Hc|apply IH].
Qed.

Lemma xclaim_paced (min_idle_time : Z) (ids : list Valkey.entry_id) (s : t) :
  paced s (snd (xclaim min_idle_time ids s)).
Proof.
  unfold xclaim. destruct (Valkey.xclaim _ _ _ _ _) as [r v].
  apply paced_same; [reflexivity|apply Qle_refl].
Qed.

Lemma claim_each_paced (infos : list Valkey.pending_info) :
  forall (b : batch) (s : t), paced s (snd (claim_each infos b s)).
Proof.
  induction infos as [|msg rest IH]; intros b s.
  - apply paced_same; [reflexivity|apply Qle_refl].
  - cbn [claim_each].
    destruct (5000 <? Valkey.time_since_delivered msg); [|apply IH].
    pose proof (xclaim_paced 5000 [Valkey.pi_message_id msg] s) as Hx.
    destruct (xclaim 5000 [Valkey.pi_message_id msg] s) as [[reply|e] s1];
      cbn [snd] in Hx.
    + pose proof (process_claimed_paced reply b s1) as Hp.
      destruct (process_claimed reply b s1) as [[e|] [b1 s2]]; cbn [snd] in Hp.
      * eapply paced_trans; [exact Hx|].
        eapply paced_trans; [exact Hp|].
        eapply paced_trans; [|apply IH].
        apply paced_same; [reflexivity|apply Qle_refl].
      * eapply paced_trans; [exact Hx|].
        eapply paced_trans; [exact Hp|apply IH].
    + eapply paced_trans; [exact Hx|].
      eapply paced_trans; [|apply IH].
      apply paced_same; [reflexivity|apply Qle_refl].
Qed.

Lemma claim_pending_messages_paced (s : t) :
  paced s (snd (claim_pending_messages s)).
Proof.
  unfold claim_pending_messages.
  destruct (xpending_range 10 s) as [r s1] eqn:Ex.
  destruct (xpending_range_frame 10 s s1 r Ex) as (Fj & _ & _ & Fc & _).
  assert (H1 : paced s s1).
  { apply paced_same; [exact Fj|]. rewrite Fc. apply Qle_refl. }
  destruct r as [[|i infos]|e].
  - exact H1.
  - pose proof (claim_each_paced (i :: infos) empty_batch s1) as H2.
    destruct (claim_each (i :: infos) empty_batch s1) as [b s2].
    cbn [snd] in H2.
    eapply paced_trans; [exact H1|].
    eapply paced_trans; [exact H2|apply ack_and_record_paced].
  - eapply paced_trans; [exact H1|].
    apply paced_same; [reflexivity|apply Qle_refl].
Qed.

Lemma run_loop_worker_paced (iterations : nat) :
  forall (claim_counter : Z) (s : t),
    0 <= poll_interval s ->
    paced s (run_loop iterations claim_counter s).
Proof.
  induction iterations as [|k IH]; intros cc s Hp.
  - apply paced_same; [reflexivity|apply Qle_refl].
  - rewrite run_loop_turn.
    pose proof (process_messages_paced s Hp) as H1.
    destruct (process_messages_progress s) as (_ & new & (_ & _ & _ & _ & Hw) & _).
    cbv zeta in Hw.
    set (s1 := snd (process_messages s)) in *.
    assert (Hp1 : 0 <= poll_interval s1) by (destruct Hw as (_ & _ & ->); exact Hp).
    destruct (10 <=? cc + 1).
    + pose proof (claim_pending_messages_paced s1) as H2.
      destruct (claim_pending_messages_progress s1)
        as (_ & new2 & (_ & _ & _ & _ & Hw2) & _).
      cbv zeta in Hw2.
      set (s2 := snd (claim_pending_messages s1)) in *.
      eapply paced_trans; [exact H1|].
      eapply paced_trans; [exact H2|].
      apply IH. destruct Hw2 as (_ & _ & ->). exact Hp1.
    + eapply paced_trans; [exact H1|]. apply IH. exact Hp1.
Qed.

(** X26: batching does not lift the pace of a worker.  Over a run of
    a Valkey worker whose block time is not negative, at least one
    processing time (5 ms) passes for every entry that is counted,
    fetched or reclaimed, whatever the batch size and whatever the
    server answers: the entries of a batch are processed one after the
    other, so a worker never counts more than 200 entries per second. *)
Theorem valkey_worker_pace (iterations : nat) (s : t) :
  0 <= poll_interval s ->
  let s' := run iterations s in
  (inject_Z (jobs_processed s' - jobs_processed s) * (5 # 1000)
   <= clock s' - clock s)%Q.
Proof.
  intros Hp. cbv zeta. unfold run.
  pose proof (run_loop_worker_paced iterations 0
                (print (Started (worker_id s) (batch_size s)) s) Hp) as H.
  set (s2 := run_loop iterations 0
               (print (Started (worker_id s) (batch_size s)) s)) in *.
  unfold paced in H. wsimpl.
  apply (Qplus_le_r _ _ (clock s)).
  assert (E : (clock s + (clock s2 - clock s) == clock s2)%Q) by ring.
  rewrite E. exact H.
Qed.

Lemma valkey_worker_pace_witness :
  let s := three_entries [] in
  (inject_Z (jobs_processed (run 12 s) - jobs_processed s) * (5 # 1000)
   <= clock (run 12 s) - clock s)%Q.
Proof.
  intros s. apply (valkey_worker_pace 12 s). vm_compute. discriminate.
Defined.

End WorkerPace.

(* ------------------------------------------------------------------ *)
(** ** The samples of entries without a creation time *)

Section UndatedEntries.

Import ValkeyWorker.

Lemma measure_undated (m : Valkey.message) (s : t) :
  undated m ->
  exists latency_ms,
    measure m s = (Ok latency_ms, simulate_processing s) /\
    (latency_ms == inject_Z (Config.job_processing_time_ms Config.BENCHMARK))%Q.
Proof.
  unfold undated, measure. intros ->. eexists. split; [reflexivity|].
  unfold simulate_processing, sleep. wsimpl. rewrite Qred_correct.
  cbv [Config.job_processing_time_ms Config.BENCHMARK]. field.
Qed.

Lemma process_stream_messages_undated (msgs : list Valkey.message) :
  forall (b : batch) (s : t),
    Forall undated msgs ->
    exists new,
      batch_latencies (fst (process_stream_messages msgs b s)) =
        batch_latencies b ++ new /\
      Forall (fun l => (l == inject_Z (Config.job_processing_time_ms
                                         Config.BENCHMARK))%Q) new.
Proof.
  induction msgs as [|m rest IH]; intros b s Hu.
  - exists []. split; [now rewrite app_nil_r|constructor].
  - inversion Hu as [|? ? Hm Hrest]; subst.
    cbn [process_stream_messages].
    destruct (measure_undated m s Hm) as (lat & -> & Hlat).
    cbn [collect].
    match goal with |- context [process_stream_messages rest ?b1 ?s1] =>
      destruct (IH b1 s1 Hrest) as (new & Hn & Hf)
    end.
    wsimpl. exists (lat :: new).
    split; [rewrite Hn, <- app_assoc; reflexivity|].
    constructor; assumption.
Qed.

Lemma process_reply_undated (messages : list (string * list Valkey.message)) :
  forall (b : batch) (s : t),
    Forall undated (reply_messages messages) ->
    exists new,
      batch_latencies (fst (process_reply messages b s)) =
        batch_latencies b ++ new /\
      Forall (fun l => (l == inject_Z (Config.job_processing_time_ms
                                         Config.BENCHMARK))%Q) new.
Proof.
  induction messages as [|[name msgs] rest IH]; intros b s Hu.
  - exists []. split; [now rewrite app_nil_r|constructor].
  - unfold reply_messages in Hu. cbn [flat_map snd] in Hu.
    apply Forall_app in Hu. destruct Hu as [Hu1 Hu2].
    cbn [process_reply].
    destruct (process_stream_messages_undated msgs b s Hu1) as (n1 & H1 & F1).
    destruct (process_stream_messages msgs b s) as [b1 s1]. cbn [fst] in H1.
    destruct (IH b1 s1 Hu2) as (n2 & H2 & F2).
    exists (n1 ++ n2).
    split; [rewrite H2, H1, <- app_assoc; reflexivity|].
    apply Forall_app. now split.
Qed.

Lemma processed_undated (msgs : list Valkey.message) :
  Forall undated msgs -> processed msgs = msgs.
Proof.
  intros H. apply processed_all. apply forallb_forall. intros m Hm.
  rewrite Forall_forall in H. specialize (H m Hm).
  unfold undated in H. unfold throws, thrown. now rewrite H.
Qed.

(** X27: an entry without a creation time is recorded with the
    processing time as its latency.  When every entry of a fetched
    batch lacks the [created_at] field, [process_messages] records one
    sample per entry and each sample equals [job_processing_time_ms]
    (5 ms), however long the entries have been in the stream and
    whatever their position in the batch: the creation time is replaced
    by the time at which the processing of the entry starts. *)
Theorem undated_entries_latency
    (s s1 : t) (messages : list (string * list Valkey.message)) :
  xreadgroup s = (Ok messages, s1) ->
  Forall undated (reply_messages messages) ->
  let r := process_messages s in
  exists new,
    MetricsCollector.latencies (metrics (snd r)) =
      MetricsCollector.latencies (metrics s) ++ new /\
    len new = len (reply_messages messages) /\
    Forall (fun l => (l == inject_Z (Config.job_processing_time_ms
                                       Config.BENCHMARK))%Q) new.
Proof.
  intros Hx Hu. cbv zeta.
  destruct (xreadgroup_frame s s1 _ Hx) as (_ & Fm & _).
  destruct messages as [|m ms].
  - unfold process_messages. rewrite Hx. cbn [snd].
    exists []. rewrite Fm, app_nil_r. split; [reflexivity|].
    split; [reflexivity|constructor].
  - rewrite (process_messages_on_reply s s1 _ Hx) by discriminate.
    pose proof (process_reply_effect (m :: ms) empty_batch s1) as He.
    destruct (process_reply_undated (m :: ms) empty_batch s1 Hu) as (new & Hn & Hf).
    destruct (process_reply (m :: ms) empty_batch s1) as [b s2].
    cbn [fst snd] in *. unfold loop_effect in He.
    destruct He as (_ & (new' & Hl & Hlen) & _ & _ & Hmet & _).
    cbn [empty_batch batch_latencies app] in Hn, Hl.
    assert (E : new' = new) by congruence. rewrite E in Hlen.
    pose proof (ack_and_record_effect ErrorAcknowledgingBatch b s2) as Ha.
    cbv zeta in Ha. destruct Ha as (_ & _ & _ & Al & _).
    exists new. rewrite Al, Hmet, Fm, Hn.
    split; [reflexivity|]. split; [|exact Hf].
    unfold len. rewrite Hlen, (processed_undated _ Hu). reflexivity.
Qed.

Lemma undated_entries_latency_witness :
  let s := undated_entries in
  let r := process_messages s in
  exists new,
    MetricsCollector.latencies (metrics (snd r)) =
      MetricsCollector.latencies (metrics s) ++ new /\
    len new = len (reply_messages [("bench_queue"%string,
                                    Valkey.stream (valkey s))]) /\
    Forall (fun l => (l == inject_Z (Config.job_processing_time_ms
                                       Config.BENCHMARK))%Q) new.
Proof.
  intros s.
  apply (undated_entries_latency s (snd (xreadgroup s))
           [("bench_queue"%string, Valkey.stream (valkey s))]).
  - reflexivity.
  - repeat constructor.
Defined.

End UndatedEntries.
